(** * scrape_pubmed.py: the concurrent fetch / extract / assemble pipeline

    A shallow embedding of [src/scrape_pubmed.py] and the properties of its
    [Scraper] class.  The development follows the file top to bottom:

    - Python values the script manipulates: [str], [dict], [pd.NA];
    - the coroutines [get_html_content] and [scrape_data], written in a small
      language of awaitable operations that mirrors the [async def] bodies;
    - the asyncio event loop with its [Semaphore], as a scheduler that
      interleaves the coroutines of [asyncio.gather];
    - the pandas frames built by [load_data], [scrape_all] and [save_results];
    - [main].

    What lives outside the repository (the HTML parser and the CSS selector
    engine of BeautifulSoup, the HTTP client of aiohttp) is a Section variable:
    every theorem holds for every parser and every network.  The parser may
    reject a document and the client may raise on any URL.  The input file
    is given by what [pd.read_csv] makes of it: an exception, or the header
    names, the row index and the cells of the [url] column. *)

From Stdlib Require Import String Ascii List ZArith NArith Lia Bool Arith.
From Stdlib Require DecimalNat.
Import ListNotations.
Open Scope list_scope.

(* ------------------------------------------------------------------ *)
(** ** Python strings *)

Module PyStr.

(** A Python [str] is a sequence of Unicode code points. *)
Definition codepoint := N.
Definition str := list codepoint.

(** A literal of the source, read as code points (the literals of the script
    are ASCII). *)
Definition py (s : string) : str :=
  map N_of_ascii (list_ascii_of_string s).

Fixpoint eqb (a b : str) : bool :=
  match a, b with
  | [], [] => true
  | x :: a', y :: b' => N.eqb x y && eqb a' b'
  | _, _ => false
  end.

(** [str.isspace] on one code point: the characters [str.strip()] removes
    when called without argument (CPython's [_PyUnicode_IsWhitespace]). *)
Definition isspace (c : codepoint) : bool :=
  ((9 <=? c) && (c <=? 13)            (* \t \n \v \f \r *)
   || (28 <=? c) && (c <=? 31)        (* FS GS RS US *)
   || (c =? 32)                       (* space *)
   || (c =? 133)                      (* NEL *)
   || (c =? 160)                      (* no-break space *)
   || (c =? 5760)                     (* U+1680 *)
   || (8192 <=? c) && (c <=? 8202)    (* U+2000 .. U+200A *)
   || (c =? 8232) || (c =? 8233)      (* U+2028, U+2029 *)
   || (c =? 8239)                     (* U+202F *)
   || (c =? 8287)                     (* U+205F *)
   || (c =? 12288))%N.                (* U+3000 *)

(** [s.lstrip()], [s.rstrip()], [s.strip()] *)
Fixpoint lstrip (s : str) : str :=
  match s with
  | [] => []
  | c :: t => if isspace c then lstrip t else s
  end.

Definition rstrip (s : str) : str := rev (lstrip (rev s)).

Definition strip (s : str) : str := rstrip (lstrip s).

(** [sep.join(parts)] *)
Fixpoint join (sep : str) (parts : list str) : str :=
  match parts with
  | [] => []
  | [x] => x
  | x :: rest => x ++ sep ++ join sep rest
  end.

(** [str(n)] for an integer [n >= 0]: its decimal digits. *)
Fixpoint digits (d : Decimal.uint) : str :=
  match d with
  | Decimal.Nil => []
  | Decimal.D0 d' => 48%N :: digits d'
  | Decimal.D1 d' => 49%N :: digits d'
  | Decimal.D2 d' => 50%N :: digits d'
  | Decimal.D3 d' => 51%N :: digits d'
  | Decimal.D4 d' => 52%N :: digits d'
  | Decimal.D5 d' => 53%N :: digits d'
  | Decimal.D6 d' => 54%N :: digits d'
  | Decimal.D7 d' => 55%N :: digits d'
  | Decimal.D8 d' => 56%N :: digits d'
  | Decimal.D9 d' => 57%N :: digits d'
  end.

Definition str_of_nat (n : nat) : str := digits (Nat.to_uint n).

(** [str(n)] for an [int]. *)
Definition str_of_Z (n : Z) : str :=
  if (n <? 0)%Z then 45%N :: str_of_nat (Z.to_nat (- n)) else str_of_nat (Z.to_nat n).

End PyStr.

Import PyStr.

(* ------------------------------------------------------------------ *)
(** ** Python dicts

    A [dict] keeps its keys in insertion order; assigning to a key that is
    already there replaces the value in place. *)

Module PyDict.

Definition dict (V : Type) := list (str * V).

Fixpoint get {V} (d : dict V) (k : str) : option V :=
  match d with
  | [] => None
  | (k', v) :: d' => if PyStr.eqb k' k then Some v else get d' k
  end.

(** [d[k] = v] *)
Fixpoint set {V} (d : dict V) (k : str) (v : V) : dict V :=
  match d with
  | [] => [(k, v)]
  | (k', v') :: d' =>
      if PyStr.eqb k' k then (k', v) :: d' else (k', v') :: set d' k v
  end.

Definition keys {V} (d : dict V) : list str := map fst d.

Definition items {V} (d : dict V) : list (str * V) := d.

End PyDict.

(* ------------------------------------------------------------------ *)
(** ** Values of the extraction result *)

(** A field of the result of [scrape_data]: the joined text, or [pd.NA]. *)
Inductive value : Type :=
| Text (s : str)
| NA.

(** The exceptions the script can meet.  [asyncio.TimeoutError] is the only
    one it catches; [ClientError] stands for every other failure of the
    transport (connection reset, DNS failure, ...).  [FileNotFoundError],
    [EmptyDataError] and [ParserError] are those of [pd.read_csv],
    [InvalidIndexError] that of [pd.concat], [ParserRejectedMarkup] that of
    [BeautifulSoup]. *)
Inductive exn : Type :=
| TimeoutError
| ClientError
| KeyError
| ValueError
| AttributeError
| TypeError
| FileNotFoundError
| EmptyDataError
| ParserError
| InvalidIndexError
| ParserRejectedMarkup.

(** What [pd.read_csv] leaves in a cell of a column: a [str], the float
    [nan] of a blank cell, or, when every cell of the column reads as one,
    an [int], a [float] (given by its [repr]) or a [bool]. *)
Inductive scalar : Type :=
| SStr (s : str)
| SNaN
| SInt (n : Z)
| SFloat (repr : str)
| SBool (b : bool).

(** [f"{x}"] for such a value. *)
Definition format (x : scalar) : str :=
  match x with
  | SStr s => s
  | SNaN => py "nan"
  | SInt n => str_of_Z n
  | SFloat repr => repr
  | SBool true => py "True"
  | SBool false => py "False"
  end.

(** The [elements] dict of [scrape_data]: field name, CSS selector. *)
Definition elements : PyDict.dict str :=
  [ (py "title",
     py "header#heading.heading div#full-view-heading.full-view h1.heading-title");
    (py "publication_type",
     py "header#heading.heading div#short-view-heading.short-view div.publication-type");
    (py "journal",
     py "header#heading.heading div#full-view-heading.full-view div.article-citation div.article-source div.journal-actions.dropdown-block button#full-view-journal-trigger.journal-actions-trigger.trigger");
    (py "coi",
     py "div#conflict-of-interest.conflict-of-interest div.statement p");
    (py "grants",
     py "div#grants.grants");
    (py "authors",
     py "header#heading.heading div#full-view-heading.full-view div.inline-authors div.authors div.authors-list");
    (py "abstracts",
     py "div#abstract.abstract div#eng-abstract.abstract-content.selected");
    (py "pmid",
     py "header#heading.heading div#full-view-heading.full-view ul#full-view-identifiers.identifiers li span.identifier.pubmed strong.current-id");
    (py "pmcid",
     py "header#heading.heading div#full-view-heading.full-view ul#full-view-identifiers.identifiers li span.identifier.pmc a.id-link");
    (py "doi",
     py "header#heading.heading div#full-view-heading.full-view ul#full-view-identifiers.identifiers li span.identifier.doi a.id-link");
    (py "citation",
     py "header#heading.heading div#full-view-heading.full-view div.article-citation div.article-source span.cit");
    (py "erratum",
     py "main#article-details.article-details div#linked-correction-forward.linked-articles") ].

(** The twelve field names, in the order of [elements]. *)
Definition field_names : list str :=
  [ py "title"; py "publication_type"; py "journal"; py "coi"; py "grants";
    py "authors"; py "abstracts"; py "pmid"; py "pmcid"; py "doi";
    py "citation"; py "erratum" ].

(* ------------------------------------------------------------------ *)
(** ** pandas frames

    The part of pandas the script uses: [pd.read_csv(path)], [df[[...]]],
    [df[name]], [pd.DataFrame(list)], [pd.concat(..., axis=1)],
    [df.to_csv(path, index=False)], [len(df)] and [df.head(n)].  A frame is
    its row index and its columns; [pd.concat(..., axis=1)] aligns the rows
    of its frames on their index labels. *)

Module Pandas.

(** A label of an axis: a string, or an integer (the label pandas gives to
    an unnamed column, and to the rows of a default index). *)
Inductive label : Type :=
| LStr (s : str)
| LInt (n : Z).

Definition label_eqb (a b : label) : bool :=
  match a, b with
  | LStr x, LStr y => PyStr.eqb x y
  | LInt x, LInt y => Z.eqb x y
  | _, _ => false
  end.

(** What a cell of a column can hold in this script. *)
Inductive cell : Type :=
| CStr (s : str)                      (* a Python str *)
| CNA                                 (* pd.NA *)
| CNaN                                (* the float nan pandas fills holes with *)
| CNone                               (* None *)
| CDict (d : PyDict.dict value)       (* a dict kept as one object *)
| CInt (n : Z)                        (* an int *)
| CFloat (repr : str)                 (* a float other than nan *)
| CBool (b : bool).                   (* a bool *)

(** The index of the rows, top to bottom, and the columns, left to right:
    a label and one cell per row. *)
Record frame : Type := {
  index : list label;
  columns : list (label * list cell)
}.

(** [len(df)] *)
Definition nrows (df : frame) : nat := List.length (index df).

Definition labels (df : frame) : list label := map fst (columns df).

(** [pd.RangeIndex(n)]: the default index, [0 .. n-1]. *)
Definition RangeIndex (n : nat) : list label :=
  map (fun i => LInt (Z.of_nat i)) (seq 0 n).

(** [df[name]]: the values of the column, [KeyError] when it is missing. *)
Definition getitem (df : frame) (name : label) : exn + list cell :=
  match find (fun c => label_eqb (fst c) name) (columns df) with
  | Some c => inr (snd c)
  | None => inl KeyError
  end.

Definition cell_of_value (v : value) : cell :=
  match v with
  | Text s => CStr s
  | NA => CNA
  end.

Definition cell_of_object (o : option (PyDict.dict value)) : cell :=
  match o with
  | Some d => CDict d
  | None => CNone
  end.

Definition cell_of_scalar (x : scalar) : cell :=
  match x with
  | SStr s => CStr s
  | SNaN => CNaN
  | SInt n => CInt n
  | SFloat repr => CFloat repr
  | SBool b => CBool b
  end.

Definition cell_of_label (l : label) : cell :=
  match l with
  | LStr s => CStr s
  | LInt n => CInt n
  end.

(** The union of the keys of a list of dicts, in order of first appearance
    (the columns of a frame built from records). *)
Definition add_key (acc : list str) (k : str) : list str :=
  if existsb (PyStr.eqb k) acc then acc else acc ++ [k].

Definition unique_keys (ds : list (PyDict.dict value)) : list str :=
  fold_left (fun acc d => fold_left add_key (PyDict.keys d) acc) ds [].

(** [x.keys()] for every element: fails on the first [None]. *)
Fixpoint all_dicts (data : list (option (PyDict.dict value)))
  : option (list (PyDict.dict value)) :=
  match data with
  | [] => Some []
  | None :: _ => None
  | Some d :: rest =>
      match all_dicts rest with
      | Some ds => Some (d :: ds)
      | None => None
      end
  end.

(** [pd.DataFrame(data)] for a list [data] of dicts and [None]s; the rows
    get the default index.

    - an empty list gives a frame with no row and no column;
    - when [data[0]] is not list-like ([None]) the list is read as one
      column of objects, labelled [0];
    - when [data[0]] is a dict the list is read as records: the columns are
      the keys, and asking a [None] record for its keys raises
      [AttributeError]. *)
Definition DataFrame (data : list (option (PyDict.dict value))) : exn + frame :=
  match data with
  | [] => inr {| index := []; columns := [] |}
  | None :: _ =>
      inr {| index := RangeIndex (List.length data);
             columns := [(LInt 0, map cell_of_object data)] |}
  | Some _ :: _ =>
      match all_dicts data with
      | None => inl AttributeError
      | Some ds =>
          inr {| index := RangeIndex (List.length data);
                 columns :=
                   map (fun k =>
                          (LStr k,
                           map (fun d => match PyDict.get d k with
                                         | Some v => cell_of_value v
                                         | None => CNaN
                                         end) ds))
                       (unique_keys ds) |}
      end
  end.

(** *** Index objects

    [a.equals(b)]: the same labels in the same order; [a.is_unique];
    [a.get_loc(x)]: the position of a label. *)
Fixpoint equals (a b : list label) : bool :=
  match a, b with
  | [], [] => true
  | x :: a', y :: b' => label_eqb x y && equals a' b'
  | _, _ => false
  end.

Definition mem (x : label) (l : list label) : bool := existsb (label_eqb x) l.

Fixpoint is_unique (l : list label) : bool :=
  match l with
  | [] => true
  | x :: rest => negb (mem x rest) && is_unique rest
  end.

Fixpoint position (x : label) (l : list label) : option nat :=
  match l with
  | [] => None
  | y :: rest => if label_eqb y x then Some 0
                 else match position x rest with
                      | Some p => Some (S p)
                      | None => None
                      end
  end.

(** The labels of a list without their repetitions, in order of first
    appearance, and the number of times a label occurs. *)
Definition add_label (acc : list label) (x : label) : list label :=
  if mem x acc then acc else acc ++ [x].

Definition unique (l : list label) : list label := fold_left add_label l [].

Definition occurrences (x : label) (l : list label) : nat :=
  List.length (filter (label_eqb x) l).

(** [a.union(b, sort=False)], the index of the outer join: [a] itself when
    [b] is empty or holds the same labels; else [b] when [a] is empty; else
    the labels of [a] followed by those of [b] that [a] lacks (when [b]
    repeats a label: every label as often as the index that has it most). *)
Definition union (a b : list label) : list label :=
  if equals a b then a
  else match a, b with
       | _, [] => a
       | [], _ => b
       | _ :: _, _ :: _ =>
           if is_unique b
           then a ++ filter (fun x => negb (mem x a)) b
           else flat_map (fun x => repeat x (Nat.max (occurrences x a) (occurrences x b)))
                         (unique (a ++ b))
       end.

(** [df.reindex(new_index)] as [pd.concat] does it: nothing to do when the
    frame carries these labels already; else every row is looked up by its
    label, which asks for labels without repetition
    ([InvalidIndexError] otherwise), and the rows the frame lacks are filled
    with nan. *)
Definition reindex (df : frame) (new_index : list label)
  : exn + list (label * list cell) :=
  if equals new_index (index df) then inr (columns df)
  else if is_unique (index df)
  then inr (map (fun c =>
                   (fst c,
                    map (fun x => match position x (index df) with
                                  | Some p => nth p (snd c) CNaN
                                  | None => CNaN
                                  end) new_index))
                (columns df))
  else inl InvalidIndexError.

(** [pd.concat([a, b], axis=1)]: the rows are the union of the two indexes,
    the columns those of [a] then those of [b], each frame aligned on the
    new index. *)
Definition concat_axis1 (a b : frame) : exn + frame :=
  let new_index := union (index a) (index b) in
  match reindex a new_index with
  | inl e => inl e
  | inr columns_a =>
      match reindex b new_index with
      | inl e => inl e
      | inr columns_b => inr {| index := new_index; columns := columns_a ++ columns_b |}
      end
  end.

(** The table [to_csv] writes: a header line and one line per row. *)
Record csv_file : Type := {
  header : list label;
  rows : list (list cell)
}.

Definition row_at (cols : list (label * list cell)) (i : nat) : list cell :=
  map (fun c => nth i (snd c) CNaN) cols.

(** [df.to_csv(path, index=index)]: with [index=True] the row index is
    written as a first column with an empty name. *)
Definition to_csv (df : frame) (index : bool) : csv_file :=
  let cols :=
    if index
    then (LStr [], map cell_of_label (Pandas.index df)) :: columns df
    else columns df in
  {| header := map fst cols;
     rows := map (row_at cols) (seq 0 (nrows df)) |}.

(** What [pd.read_csv(path)] makes of the input file.  It raises when there
    is no such file ([FileNotFoundError]), when the file holds no line at
    all ([EmptyDataError]) or a line with too many fields ([ParserError]).
    Else it gives a frame, of which the script keeps the [url] column: the
    names of the header line, and for every data line, top to bottom, the
    label of its row and its cell under [url] (of no use when the header has
    no such name).  The rows are labelled [0 .. n-1] when the data lines
    have no more fields than the header has names; when they have one field
    more, their first field is their label (an integer or a text). *)
Inductive csv_input : Type :=
| Unreadable (e : exn)
| Parsed (header_names : list str) (lines : list (label * scalar)).

Definition header_names (file : csv_input) : list str :=
  match file with
  | Unreadable _ => []
  | Parsed names _ => names
  end.

Definition row_labels (file : csv_input) : list label :=
  match file with
  | Unreadable _ => []
  | Parsed _ lines => map fst lines
  end.

Definition url_cells (file : csv_input) : list scalar :=
  match file with
  | Unreadable _ => []
  | Parsed _ lines => map snd lines
  end.

(** [pd.read_csv(path)[["url"]]]: the frame reduced to its [url] column,
    [KeyError] when the header has none. *)
Definition read_url_column (file : csv_input) : exn + frame :=
  match file with
  | Unreadable e => inl e
  | Parsed names _ =>
      if existsb (PyStr.eqb (py "url")) names
      then inr {| index := row_labels file;
                  columns := [(LStr (py "url"), map cell_of_scalar (url_cells file))] |}
      else inl KeyError
  end.

(** The values of a column [pd.read_csv] filled. *)
Definition scalars (cells : list cell) : list scalar :=
  flat_map (fun c => match c with
                     | CStr s => [SStr s]
                     | CNaN => [SNaN]
                     | CInt n => [SInt n]
                     | CFloat repr => [SFloat repr]
                     | CBool b => [SBool b]
                     | _ => []
                     end) cells.

(** [df.head(n)]: the first [n] rows. *)
Definition head (n : nat) (df : frame) : frame :=
  {| index := firstn n (index df);
     columns := map (fun c => (fst c, firstn n (snd c))) (columns df) |}.

End Pandas.

Import Pandas.

(* ------------------------------------------------------------------ *)
(** ** A test double of the parser and of the network

    Four pages and a handful of hosts, to run the definitions on concrete
    batches.  A parsed page is its text, an element is its text, and
    [select] knows the elements the pages hold.  The fourth page is one
    that [html.parser] rejects. *)

Module Fixture.

Definition Soup : Type := str.
Definition Tag : Type := str.

Definition page_a : str :=
  py "<div id='grants' class='grants'> R01 CA1 </div>".

Definition page_b : str :=
  py "<div id='conflict-of-interest' class='conflict-of-interest'><div class='statement'><p> none </p><p>declared </p></div></div>".

Definition page_empty : str := [].

Definition page_odd : str := py "<![x]>".

Definition BeautifulSoup (html : str) : exn + Soup :=
  if PyStr.eqb html page_odd then inl ParserRejectedMarkup else inr html.

Definition select (soup : Soup) (css : str) : list Tag :=
  if PyStr.eqb soup page_a && PyStr.eqb css (py "div#grants.grants")
  then [py " R01 CA1 "]
  else if PyStr.eqb soup page_b
          && PyStr.eqb css (py "div#conflict-of-interest.conflict-of-interest div.statement p")
  then [py " none "; py "declared "]
  else [].

Definition text (e : Tag) : str := e.

(** A response is what reading its body will give. *)
Definition Response : Type := (exn + str)%type.

(** [https://a] and [https://b] serve the two pages, [https://empty] an
    empty body, [https://odd] the page the parser rejects, [https://slow]
    times out on the request, [https://stall] answers and times out while
    the body is read; every other host resets the connection, and what is
    not a [str] is refused as a URL. *)
Definition session_get (i : nat) (url : scalar) : exn + Response :=
  match url with
  | SStr url =>
      if PyStr.eqb url (py "https://a") then inr (inr page_a)
      else if PyStr.eqb url (py "https://b") then inr (inr page_b)
      else if PyStr.eqb url (py "https://empty") then inr (inr page_empty)
      else if PyStr.eqb url (py "https://odd") then inr (inr page_odd)
      else if PyStr.eqb url (py "https://slow") then inl TimeoutError
      else if PyStr.eqb url (py "https://stall") then inr (inl TimeoutError)
      else inl ClientError
  | _ => inl TypeError
  end.

Definition response_text (r : Response) : exn + str := r.

(** An input file with the single column [url]: its rows get the default
    index. *)
Definition urls_file (urls : list string) : csv_input :=
  Parsed [py "url"]
         (combine (RangeIndex (List.length urls)) (map (fun u => SStr (py u)) urls)).

(** A file with row names, as R writes them: the header names the column
    [url] and every data line holds a name and a URL. *)
Definition named_rows (lines : list (string * string)) : csv_input :=
  Parsed [py "url"] (map (fun l => (LStr (py (fst l)), SStr (py (snd l)))) lines).

Local Open Scope string_scope.

Definition url_a : scalar := SStr (py "https://a").
Definition url_b : scalar := SStr (py "https://b").
Definition url_slow : scalar := SStr (py "https://slow").
Definition url_down : scalar := SStr (py "https://down").
Definition url_odd : scalar := SStr (py "https://odd").

Definition two_pages : csv_input := urls_file ["https://a"; "https://b"].
Definition page_then_timeout : csv_input := urls_file ["https://a"; "https://slow"].
Definition timeout_then_page : csv_input := urls_file ["https://slow"; "https://a"].
Definition page_then_reset : csv_input := urls_file ["https://a"; "https://down"].
Definition only_timeout : csv_input := urls_file ["https://slow"].
Definition page_then_odd : csv_input := urls_file ["https://a"; "https://odd"].
Definition no_urls : csv_input := urls_file [].

(** A file whose header has no [url]. *)
Definition no_url_column : csv_input :=
  Parsed [py "id"; py "link"] [].

(** A file of zero bytes. *)
Definition zero_bytes : csv_input := Unreadable EmptyDataError.

(** Two files with row names: distinct ones, and the same one twice. *)
Definition with_row_names : csv_input :=
  named_rows [("r1", "https://a"); ("r2", "https://b")].
Definition same_row_name : csv_input :=
  named_rows [("r", "https://a"); ("r", "https://b")].

(** A file with a blank cell under [url]. *)
Definition blank_url : csv_input :=
  Parsed [py "url"] [(LInt 0, SStr (py "https://a")); (LInt 1, SNaN)].

(** Schedules for two tasks: one task after the other, and turn by turn. *)
Definition one_by_one : list nat := [0; 0; 0; 0; 0; 1; 1; 1; 1; 1]%nat.
Definition turn_by_turn : list nat := [0; 1; 0; 1; 0; 1; 0; 1; 0; 1]%nat.
Definition last_first : list nat := [1; 1; 1; 1; 1; 0; 0; 0; 0; 0]%nat.

(** Shorter ones: task 0 up to its request while task 1 asks for a permit;
    task 0 to its end; a task whose request times out, to its end. *)
Definition head_start : list nat := [0; 1; 0]%nat.
Definition first_task : list nat := [0; 0; 0; 0; 0]%nat.
Definition four_turns : list nat := [0; 0; 0; 0]%nat.

End Fixture.

(** A second parser: every page holds three author elements, the first of
    which is blank. *)
Module BlankFirst.

Definition Soup : Type := str.
Definition Tag : Type := str.
Definition BeautifulSoup (html : str) : exn + Soup := inr html.

Definition authors_css : str :=
  py "header#heading.heading div#full-view-heading.full-view div.inline-authors div.authors div.authors-list".

Definition select (soup : Soup) (css : str) : list Tag :=
  if PyStr.eqb css authors_css
  then [[32%N; 10%N]; py " Ann Lee "; py "Bo Chan"]
  else [].

Definition text (e : Tag) : str := e.

End BlankFirst.

(* ------------------------------------------------------------------ *)
(** ** The Scraper *)

Section Scraper.

(** BeautifulSoup: [BeautifulSoup(html, "html.parser")] (the parsed
    document, or the exception of a parser that rejects the markup),
    [soup.select(css)] (the matching elements, in document order) and
    [e.text]. *)
Variable Soup : Type.
Variable Tag : Type.
Variable BeautifulSoup : str -> exn + Soup.
Variable select : Soup -> str -> list Tag.
Variable text : Tag -> str.

(** aiohttp: what [session.get(url)] answers to the task at position [i] of
    the batch (a response, or an exception), and what [response.text()]
    answers (the body, or an exception).  [url] is the value found in the
    cell, a [str] or not. *)
Variable Response : Type.
Variable session_get : nat -> scalar -> exn + Response.
Variable response_text : Response -> exn + str.

(** *** Coroutines

    The body of an [async def]: what it does next.  [SemAcquire],
    [SessionGet], [AsyncioSleep] and [ResponseText] are the [await]s at which
    the event loop may run another task. *)
Inductive coro (R : Type) : Type :=
| Ret (r : R)                                               (* return r *)
| Raise (e : exn)                                           (* raise e *)
| SemAcquire (k : coro R)                                   (* await semaphore.acquire() *)
| SemRelease (k : coro R)                                   (* semaphore.release() *)
| SessionGet (url : scalar) (k : exn + Response -> coro R)  (* session.get(url) *)
| AsyncioSleep (seconds : Z) (k : coro R)                   (* await asyncio.sleep(seconds) *)
| ResponseText (r : Response) (k : exn + str -> coro R)     (* await response.text() *)
| PrintLine (line : str) (k : coro R).                      (* print(line) *)

Arguments Ret {R} r.
Arguments Raise {R} e.
Arguments SemAcquire {R} k.
Arguments SemRelease {R} k.
Arguments SessionGet {R} url k.
Arguments AsyncioSleep {R} seconds k.
Arguments ResponseText {R} r k.
Arguments PrintLine {R} line k.

(** Sequencing: [x = await c; f x]. *)
Fixpoint bind {A B : Type} (c : coro A) (f : A -> coro B) : coro B :=
  match c with
  | Ret a => f a
  | Raise e => Raise e
  | SemAcquire k => SemAcquire (bind k f)
  | SemRelease k => SemRelease (bind k f)
  | SessionGet url k => SessionGet url (fun a => bind (k a) f)
  | AsyncioSleep d k => AsyncioSleep d (bind k f)
  | ResponseText r k => ResponseText r (fun a => bind (k a) f)
  | PrintLine l k => PrintLine l (bind k f)
  end.

Notation "x <- c ;; k" := (bind c (fun x => k))
  (at level 61, c at next level, right associativity).

(** [try: body  except ...: handler]: [handler e] is the clause that catches
    [e], if there is one. *)
Fixpoint try_except {A : Type} (body : coro A) (handler : exn -> option (coro A))
  : coro A :=
  match body with
  | Ret a => Ret a
  | Raise e => match handler e with
               | Some h => h
               | None => Raise e
               end
  | SemAcquire k => SemAcquire (try_except k handler)
  | SemRelease k => SemRelease (try_except k handler)
  | SessionGet url k => SessionGet url (fun a => try_except (k a) handler)
  | AsyncioSleep d k => AsyncioSleep d (try_except k handler)
  | ResponseText r k => ResponseText r (fun a => try_except (k a) handler)
  | PrintLine l k => PrintLine l (try_except k handler)
  end.

(** [async with self.semaphore: body]: [__aenter__] awaits [acquire()];
    [__aexit__] calls [release()] however the body ends. *)
Fixpoint release_on_exit {A : Type} (body : coro A) : coro A :=
  match body with
  | Ret a => SemRelease (Ret a)
  | Raise e => SemRelease (Raise e)
  | SemAcquire k => SemAcquire (release_on_exit k)
  | SemRelease k => SemRelease (release_on_exit k)
  | SessionGet url k => SessionGet url (fun a => release_on_exit (k a))
  | AsyncioSleep d k => AsyncioSleep d (release_on_exit k)
  | ResponseText r k => ResponseText r (fun a => release_on_exit (k a))
  | PrintLine l k => PrintLine l (release_on_exit k)
  end.

Definition async_with_semaphore {A : Type} (body : coro A) : coro A :=
  SemAcquire (release_on_exit body).

(** The awaitables of the script. *)
Definition await_get (url : scalar) : coro Response :=
  SessionGet url (fun a => match a with
                           | inl e => Raise e
                           | inr response => Ret response
                           end).

Definition await_sleep (seconds : Z) : coro unit :=
  AsyncioSleep seconds (Ret tt).

Definition await_text (response : Response) : coro str :=
  ResponseText response (fun a => match a with
                                  | inl e => Raise e
                                  | inr body => Ret body
                                  end).

Definition print (line : str) : coro unit :=
  PrintLine line (Ret tt).

(** *** class Scraper

    [semaphore] is the counter of [asyncio.Semaphore(max_requests)]: the
    number of permits left. *)
Record Scraper : Type := {
  df : option frame;
  delay : Z;
  semaphore : Z
}.

(** [Scraper.__init__]: [asyncio.Semaphore] refuses a negative value. *)
Definition Scraper_init (delay max_requests : Z) : exn + Scraper :=
  if (max_requests <? 0)%Z then inl ValueError
  else inr {| df := None; delay := delay; semaphore := max_requests |}.

(** [load_data] *)
Definition load_data (self : Scraper) (file : csv_input) : exn + Scraper :=
  match read_url_column file with
  | inl e => inl e
  | inr d => inr {| df := Some d; delay := delay self; semaphore := semaphore self |}
  end.

(** [get_html_content] *)
Definition get_html_content (self : Scraper) (url : scalar) : coro (option str) :=
  async_with_semaphore
    (try_except
       (response <- await_get url ;;
        _ <- await_sleep (delay self) ;;
        body <- await_text response ;;
        Ret (Some body))
       (fun e => match e with
                 | TimeoutError =>
                     Some (_ <- print (py "TimeoutError occurred while fetching "
                                       ++ format url) ;;
                           Ret None)
                 | _ => None
                 end)).

(** The field loop of [scrape_data] (lines 118-123) over the parsed
    document: one entry per item of [elements]. *)
Definition extract (soup : Soup) : PyDict.dict value :=
  fold_left
    (fun texts item =>
       let element := select soup (snd item) in
       PyDict.set texts (fst item)
         (match element with
          | [] => NA
          | _ :: _ => Text (join (py " ") (map (fun e => strip (text e)) element))
          end))
    (PyDict.items elements) [].

(** [scrape_data] *)
Definition scrape_data (self : Scraper) (url : scalar)
  : coro (option (PyDict.dict value)) :=
  html_content <- get_html_content self url ;;
  match html_content with
  | None => Ret None
  | Some html =>
      match BeautifulSoup html with
      | inl e => Raise e
      | inr soup => Ret (Some (extract soup))
      end
  end.

(** *** The event loop

    [asyncio.gather] wraps the coroutines in tasks; the loop runs one task
    at a time, up to its next operation.  A task is a coroutine together with
    whether it is inside [async with self.semaphore] (between the acquisition
    and the release of a permit). *)
Definition result : Type := option (PyDict.dict value).

Record task : Type := {
  code : coro result;
  holding : bool
}.

(** What a task did, as seen from outside. *)
Inductive event : Type :=
| EvAcquire                            (* took a permit *)
| EvRelease                            (* gave it back *)
| EvRequest (url : scalar) (ok : bool) (* session.get(url): answered, or raised *)
| EvSleep (seconds : Z)                (* asyncio.sleep(seconds) *)
| EvRead (ok : bool)                   (* response.text(): answered, or raised *)
| EvPrint (line : str).

Record loop : Type := {
  scraper : Scraper;
  tasks : list task;
  stdout : list str;
  log : list (nat * event)             (* oldest first: task, event *)
}.

Fixpoint replace {A : Type} (i : nat) (x : A) (l : list A) : list A :=
  match l, i with
  | [], _ => []
  | _ :: t, O => x :: t
  | h :: t, S j => h :: replace j x t
  end.

Definition with_semaphore (s : Scraper) (v : Z) : Scraper :=
  {| df := df s; delay := delay s; semaphore := v |}.

(** The exception of the first task that ended by raising. *)
Fixpoint raised (ts : list task) : option exn :=
  match ts with
  | [] => None
  | t :: rest => match code t with
                 | Raise e => Some e
                 | _ => raised rest
                 end
  end.

(** Task [i] performs its next operation [c] (its code becomes [c'],
    logging [ev]). *)
Definition advance (st : loop) (i : nat) (c' : coro result) (h : bool)
    (sem : Z) (out : list str) (ev : event) : loop :=
  {| scraper := with_semaphore (scraper st) sem;
     tasks := replace i {| code := c'; holding := h |} (tasks st);
     stdout := stdout st ++ out;
     log := log st ++ [(i, ev)] |}.

Definition is_ok {A B : Type} (a : A + B) : bool :=
  match a with inl _ => false | inr _ => true end.

(** One turn of the loop: task [i] is resumed and performs one operation.
    A task waiting for a permit stays where it is while the semaphore has
    none; a finished task does nothing; once a task has raised, [gather] has
    raised and the run is over.

    The loop of asyncio is one of the schedules: it runs a task up to its
    next [await] (several turns of the same task in a row here) and wakes
    the tasks waiting for a permit in the order they came, where a schedule
    may pick any of them.  What holds of every schedule holds of it. *)
Definition step (st : loop) (i : nat) : loop :=
  match raised (tasks st) with
  | Some _ => st
  | None =>
    let sem := semaphore (scraper st) in
    match nth_error (tasks st) i with
    | None => st
    | Some t =>
      match code t with
      | Ret _ => st
      | Raise _ => st
      | SemAcquire k =>
          if (0 <? sem)%Z
          then advance st i k true (sem - 1)%Z [] EvAcquire
          else st
      | SemRelease k =>
          advance st i k false (sem + 1)%Z [] EvRelease
      | SessionGet url k =>
          let a := session_get i url in
          advance st i (k a) (holding t) sem [] (EvRequest url (is_ok a))
      | AsyncioSleep d k =>
          advance st i k (holding t) sem [] (EvSleep d)
      | ResponseText r k =>
          let a := response_text r in
          advance st i (k a) (holding t) sem [] (EvRead (is_ok a))
      | PrintLine l k =>
          advance st i k (holding t) sem [l] (EvPrint l)
      end
    end
  end.

(** A schedule: the tasks the loop resumes, in order. *)
Definition run (schedule : list nat) (st : loop) : loop :=
  fold_left step schedule st.

(** The number of tasks inside [async with self.semaphore]. *)
Definition in_flight (st : loop) : Z :=
  Z.of_nat (List.length (filter holding (tasks st))).

(** [await asyncio.gather] over the tasks: pending while a task is unfinished,
    raising the exception of the first task that raised, else returning the
    results in the order of the tasks. *)
Inductive gathered : Type :=
| Pending
| Failed (e : exn)
| Done (results : list result).

Fixpoint collect (ts : list task) : option (list result) :=
  match ts with
  | [] => Some []
  | t :: rest =>
      match code t, collect rest with
      | Ret r, Some rs => Some (r :: rs)
      | _, _ => None
      end
  end.

Definition gather (st : loop) : gathered :=
  match raised (tasks st) with
  | Some e => Failed e
  | None => match collect (tasks st) with
            | Some rs => Done rs
            | None => Pending
            end
  end.

(** [scrape_all], up to the [await]: one task per URL of [self.df["url"]]. *)
Definition spawn (self : Scraper) : exn + loop :=
  match df self with
  | None => inl TypeError
  | Some d =>
      match getitem d (LStr (py "url")) with
      | inl e => inl e
      | inr cells =>
          inr {| scraper := self;
                 tasks := map (fun url => {| code := scrape_data self url;
                                             holding := false |})
                              (scalars cells);
                 stdout := [];
                 log := [] |}
      end
  end.

(** [scrape_all], after the [await]. *)
Definition assemble (self : Scraper) (results : list result) : exn + Scraper :=
  match DataFrame results with
  | inl e => inl e
  | inr scraped_df =>
      match df self with
      | None => inl TypeError
      | Some d =>
          match concat_axis1 d scraped_df with
          | inl e => inl e
          | inr joined =>
              inr {| df := Some joined;
                     delay := delay self;
                     semaphore := semaphore self |}
          end
      end
  end.

(** [save_results]: the file written at [output_file]. *)
Definition save_results (self : Scraper) : exn + csv_file :=
  match df self with
  | None => inl AttributeError
  | Some d => inr (to_csv d false)
  end.

(** How a run of [main] stands after a schedule. *)
Inductive outcome : Type :=
| Fatal (e : exn) (net : list (nat * event)) (* uncaught exception; nothing written *)
| Running (st : loop)                        (* still awaiting gather *)
| Saved (file : csv_file) (st : loop).       (* output_file written *)

(** [main]: [file] is the content of [file_path].  The run is followed up
    to [save_results]; [print_results] then reports on the console and
    changes nothing. *)
Definition main (file : csv_input) (delay max_requests : Z)
    (schedule : list nat) : outcome :=
  match Scraper_init delay max_requests with
  | inl e => Fatal e []
  | inr scraper0 =>
    match load_data scraper0 file with
    | inl e => Fatal e []
    | inr scraper1 =>
      match spawn scraper1 with
      | inl e => Fatal e []
      | inr st0 =>
        let st := run schedule st0 in
        match gather st with
        | Pending => Running st
        | Failed e => Fatal e (log st)
        | Done results =>
            match assemble (scraper st) results with
            | inl e => Fatal e (log st)
            | inr scraper2 =>
                match save_results scraper2 with
                | inl e => Fatal e (log st)
                | inr file' => Saved file' st
                end
            end
        end
      end
    end
  end.

Definition output_file (o : outcome) : option csv_file :=
  match o with
  | Saved f _ => Some f
  | _ => None
  end.

Definition network (o : outcome) : list (nat * event) :=
  match o with
  | Fatal _ net => net
  | Running st => log st
  | Saved _ st => log st
  end.

(** *** The standard output of [main]

    What [print] writes: a line of text, or a caption followed by a frame
    (the frame itself stands for its rendering). *)
Inductive item : Type :=
| Line (s : str)
| Framed (caption : str) (df : frame).

(** The line [save_results] prints once the file is written. *)
Definition saved_line (output_file : str) : str :=
  py "Results saved to " ++ output_file.

(** [print_results]: [formatted_time] is what [format_time] made of the
    clock (the elapsed time is a float of the wall clock and is not
    modelled).  Returns what it printed and [self.df]. *)
Definition print_results (self : Scraper) (formatted_time : str)
  : exn + (list item * frame) :=
  match df self with
  | None => inl TypeError
  | Some d =>
      inr ([ Line (py "It took " ++ formatted_time ++ py " to find "
                   ++ str_of_nat (nrows d) ++ py " articles");
             Framed (py "Preview of scraped data:" ++ [10%N]) (head 5 d) ],
           d)
  end.

(** Everything [main] prints on the standard output: the diagnostics of the
    tasks, then (when the run gets that far) the line of [save_results] and
    the report of [print_results].  A traceback goes to the standard error
    and is no part of it. *)
Definition main_stdout (file : csv_input) (delay max_requests : Z)
    (schedule : list nat) (output_file formatted_time : str) : list item :=
  match Scraper_init delay max_requests with
  | inl _ => []
  | inr scraper0 =>
    match load_data scraper0 file with
    | inl _ => []
    | inr scraper1 =>
      match spawn scraper1 with
      | inl _ => []
      | inr st0 =>
        let st := run schedule st0 in
        map Line (stdout st) ++
        match gather st with
        | Pending => []
        | Failed _ => []
        | Done results =>
            match assemble (scraper st) results with
            | inl _ => []
            | inr scraper2 =>
                match save_results scraper2 with
                | inl _ => []
                | inr _ =>
                    Line (saved_line output_file) ::
                    match print_results scraper2 formatted_time with
                    | inl _ => []
                    | inr (out, _) => out
                    end
                end
            end
        end
      end
    end
  end.

(* ------------------------------------------------------------------ *)
(** ** Specification vocabulary *)

(** The requests of a list of events, and the number of requests of a log. *)
Definition is_request (ev : event) : bool :=
  match ev with
  | EvRequest _ _ => true
  | _ => false
  end.

Definition requests (l : list (nat * event)) : nat :=
  List.length (filter (fun p => is_request (snd p)) l).

(** The fetches under way, seen from the tasks: a task is fetching when its
    next operation is the request, the sleep that follows the answer, or
    the read of the body. *)
Definition fetching (t : task) : bool :=
  match code t with
  | SessionGet _ _ | AsyncioSleep _ _ | ResponseText _ _ => true
  | _ => false
  end.

Definition fetches (st : loop) : Z :=
  Z.of_nat (List.length (filter fetching (tasks st))).

(** The fetches under way, seen from the network: the response of task [i]
    is open when its request was answered and its body is not read yet. *)
Definition is_answer (ev : event) : bool :=
  match ev with
  | EvRequest _ true => true
  | _ => false
  end.

Definition is_read (ev : event) : bool :=
  match ev with
  | EvRead _ => true
  | _ => false
  end.

Definition response_open (l : list (nat * event)) (i : nat) : bool :=
  existsb is_answer (map snd (filter (fun p => Nat.eqb (fst p) i) l))
  && negb (existsb is_read (map snd (filter (fun p => Nat.eqb (fst p) i) l))).

Definition open_responses (st : loop) : Z :=
  Z.of_nat (List.length (filter (response_open (log st))
                                (seq 0 (List.length (tasks st))))).

(** The words of the specification of [extract]: a text trimmed of its
    whitespace, and texts joined by a separator. *)
Definition no_space_at_ends (t : str) : Prop :=
  (forall c, hd_error t = Some c -> isspace c = false) /\
  (forall c, hd_error (rev t) = Some c -> isspace c = false).

Definition trimmed (t s : str) : Prop :=
  exists l r, s = l ++ t ++ r /\
              forallb isspace l = true /\ forallb isspace r = true /\
              no_space_at_ends t.



(** The value [extract] gives to the field whose selector is [css]. *)
Definition field_value (soup : Soup) (css : str) : value :=
  match select soup css with
  | [] => NA
  | e :: es => Text (join (py " ") (map (fun e => strip (text e)) (e :: es)))
  end.

(** What a coroutine does when it runs alone as task [i]: its events, and
    how it ends. *)
Fixpoint sequential {R : Type} (i : nat) (c : coro R) : list event * (exn + R) :=
  match c with
  | Ret r => ([], inr r)
  | Raise e => ([], inl e)
  | SemAcquire k =>
      (EvAcquire :: fst (sequential i k), snd (sequential i k))
  | SemRelease k =>
      (EvRelease :: fst (sequential i k), snd (sequential i k))
  | SessionGet url k =>
      let a := session_get i url in
      (EvRequest url (is_ok a) :: fst (sequential i (k a)), snd (sequential i (k a)))
  | AsyncioSleep d k =>
      (EvSleep d :: fst (sequential i k), snd (sequential i k))
  | ResponseText r k =>
      let a := response_text r in
      (EvRead (is_ok a) :: fst (sequential i (k a)), snd (sequential i (k a)))
  | PrintLine l k =>
      (EvPrint l :: fst (sequential i k), snd (sequential i k))
  end.

(** The operations a task still has to perform. *)
Definition todo (i : nat) (t : task) : nat :=
  List.length (fst (sequential i (code t))).

Fixpoint remaining_from (i : nat) (ts : list task) : nat :=
  match ts with
  | [] => 0
  | t :: rest => todo i t + remaining_from (S i) rest
  end.

Definition remaining (st : loop) : nat := remaining_from 0 (tasks st).

(** The events of task [i] in a log, and the lines a log printed. *)
Definition events_of (i : nat) (l : list (nat * event)) : list event :=
  map snd (filter (fun p => Nat.eqb (fst p) i) l).

Definition printed (l : list (nat * event)) : list str :=
  flat_map (fun p => match snd p with EvPrint line => [line] | _ => [] end) l.

(** Where a coroutine stands with respect to the permit: before it takes
    one, while it holds one, after it gave it back.  [follows p c] says that
    [c], started in phase [p], touches the network and sleeps only while it
    holds the permit, and ends after giving it back. *)
Inductive phase : Type := Before | Inside | After.

Definition inside (p : phase) : bool :=
  match p with Inside => true | _ => false end.

Inductive follows {R : Type} : phase -> coro R -> Prop :=
| follows_ret : forall r, follows After (Ret r)
| follows_raise : forall e, follows After (Raise e)
| follows_acquire : forall k, follows Inside k -> follows Before (SemAcquire k)
| follows_release : forall k, follows After k -> follows Inside (SemRelease k)
| follows_get : forall url k,
    (forall a, follows Inside (k a)) -> follows Inside (SessionGet url k)
| follows_sleep : forall d k, follows Inside k -> follows Inside (AsyncioSleep d k)
| follows_text : forall r k,
    (forall a, follows Inside (k a)) -> follows Inside (ResponseText r k)
| follows_print : forall p l k, follows p k -> follows p (PrintLine l k).

(** How the fetch of task [i] ends: the body, [None] after a timeout, or
    the exception that escapes. *)
Definition absorb (e : exn) : exn + option str :=
  match e with
  | TimeoutError => inr None
  | _ => inl e
  end.

Definition fetched (i : nat) (url : scalar) : exn + option str :=
  match session_get i url with
  | inl e => absorb e
  | inr response =>
      match response_text response with
      | inl e => absorb e
      | inr body => inr (Some body)
      end
  end.

(** What [scrape_data] makes of a document: the exception of the parser,
    or the dict of its fields. *)
Definition parsed (body : str) : exn + result :=
  match BeautifulSoup body with
  | inl e => inl e
  | inr soup => inr (Some (extract soup))
  end.

(** How task [i] ends. *)
Definition scraped (i : nat) (url : scalar) : exn + result :=
  match fetched i url with
  | inl e => inl e
  | inr None => inr None
  | inr (Some body) => parsed body
  end.

(** The line [get_html_content] prints on a timeout. *)
Definition diagnostic (url : scalar) : str :=
  py "TimeoutError occurred while fetching " ++ format url.

Definition on_failure (e : exn) (url : scalar) : list event :=
  match e with
  | TimeoutError => [EvPrint (diagnostic url)]
  | _ => []
  end.

(** What task [i] does between taking the permit and giving it back. *)
Definition window (delay : Z) (i : nat) (url : scalar) : list event :=
  match session_get i url with
  | inl e => EvRequest url false :: on_failure e url
  | inr response =>
      EvRequest url true :: EvSleep delay ::
      match response_text response with
      | inl e => EvRead false :: on_failure e url
      | inr _ => [EvRead true]
      end
  end.

(** The results [gather] returns when no task raises: one per URL, in the
    order of the URLs. *)
Fixpoint results_from (i : nat) (urls : list scalar) : list result :=
  match urls with
  | [] => []
  | url :: rest =>
      match scraped i url with
      | inr r => r :: results_from (S i) rest
      | inl _ => None :: results_from (S i) rest
      end
  end.

(** The states of a run: what the loop of [scrape_all] can reach. *)
Definition reachable (file : csv_input) (delay max_requests : Z) (st : loop) : Prop :=
  exists scraper0 scraper1 st0 schedule,
    Scraper_init delay max_requests = inr scraper0 /\
    load_data scraper0 file = inr scraper1 /\
    spawn scraper1 = inr st0 /\
    st = run schedule st0.

Definition finished (t : task) : bool :=
  match code t with
  | Ret _ | Raise _ => true
  | _ => false
  end.

(** Column [k] of a written table, and the cell of row [i] in column [k]. *)
Definition column (f : csv_file) (k : nat) : list cell :=
  map (fun row => nth k row CNaN) (rows f).

Definition cell_at (f : csv_file) (i k : nat) : cell :=
  nth k (nth i (rows f) []) CNaN.

(** The exception [main] dies of, if it does. *)
Definition failure (o : outcome) : option exn :=
  match o with
  | Fatal e _ => Some e
  | _ => None
  end.

Definition b2n (b : bool) : nat := if b then 1 else 0.

(** The frame [load_data] keeps, the scraper and the loop [main] starts
    from, when the file has a [url] column and [max_requests] is not
    negative. *)
Definition url_frame (file : csv_input) : frame :=
  {| index := row_labels file;
     columns := [(LStr (py "url"), map cell_of_scalar (url_cells file))] |}.

Definition loaded (file : csv_input) (delay max_requests : Z) : Scraper :=
  {| df := Some (url_frame file);
     delay := delay;
     semaphore := max_requests |}.

Definition start (file : csv_input) (delay max_requests : Z) : loop :=
  {| scraper := loaded file delay max_requests;
     tasks := map (fun url => {| code := scrape_data (loaded file delay max_requests) url;
                                 holding := false |})
                  (url_cells file);
     stdout := [];
     log := [] |}.

(** [pd.read_csv] gave a frame, with a column named [url]. *)
Definition has_url (file : csv_input) : bool :=
  existsb (PyStr.eqb (py "url")) (header_names file).

(** What [pd.read_csv] raised, if it did. *)
Definition read_error (file : csv_input) : option exn :=
  match file with
  | Unreadable e => Some e
  | Parsed _ _ => None
  end.

(** The rows of the file carry the default index [0 .. n-1]: no data line
    has more fields than the header has names (or the first field of every
    line is its number, from 0). *)
Definition default_index (file : csv_input) : bool :=
  equals (row_labels file) (RangeIndex (List.length (row_labels file))).

(** A row label that is a text: a row name. *)
Definition text_label (l : label) : bool :=
  match l with
  | LStr _ => true
  | LInt _ => false
  end.

(** The results [pd.DataFrame] accepts: it raises on a [None] that follows
    a leading dict. *)
Definition is_dict (r : result) : bool :=
  match r with Some _ => true | None => false end.

Definition accepted (results : list result) : bool :=
  match results with
  | Some _ :: rest => forallb is_dict rest
  | _ => true
  end.

(** What holds of every state of a run of [max_requests] permits over the
    URLs [urls]. *)
Record invariant (max_requests delay0 : Z) (urls : list scalar) (st : loop) : Prop := {
  inv_delay : delay (scraper st) = delay0;
  inv_length : List.length (tasks st) = List.length urls;
  inv_nonneg : (0 <= semaphore (scraper st))%Z;
  inv_permits : (semaphore (scraper st) + in_flight st = max_requests)%Z;
  inv_phase :
    Forall (fun t => exists p, follows p (code t) /\ holding t = inside p) (tasks st);
  inv_tasks :
    forall i t url,
      nth_error (tasks st) i = Some t -> nth_error urls i = Some url ->
      events_of i (log st) ++ fst (sequential i (code t))
        = EvAcquire :: window delay0 i url ++ [EvRelease]
      /\ snd (sequential i (code t)) = scraped i url;
  inv_stdout : stdout st = printed (log st)
}.

(* ------------------------------------------------------------------ *)
(** ** Strings and dicts *)

Lemma eqb_eq : forall a b : str, PyStr.eqb a b = true <-> a = b.
Proof.
  induction a as [|x a IH]; destruct b as [|y b]; simpl; split; intro H;
    try reflexivity; try discriminate.
  - apply andb_true_iff in H. destruct H as [Hx Hr].
    apply N.eqb_eq in Hx. apply IH in Hr. congruence.
  - inversion H; subst. apply andb_true_iff. split.
    + apply N.eqb_refl.
    + apply IH. reflexivity.
Qed.

Lemma eqb_refl : forall a : str, PyStr.eqb a a = true.
Proof. intro a. apply eqb_eq. reflexivity. Qed.

Lemma eqb_neq : forall a b : str, PyStr.eqb a b = false <-> a <> b.
Proof.
  intros a b. split.
  - intros H E. apply eqb_eq in E. congruence.
  - intro H. destruct (PyStr.eqb a b) eqn:E; [|reflexivity].
    apply eqb_eq in E. contradiction.
Qed.

Lemma lstrip_split : forall s,
  exists ws, s = ws ++ lstrip s /\ forallb isspace ws = true.
Proof.
  induction s as [|c s IH]; simpl.
  - exists []. split; reflexivity.
  - destruct (isspace c) eqn:E.
    + destruct IH as [ws [H1 H2]]. exists (c :: ws). simpl. split.
      * congruence.
      * rewrite E, H2. reflexivity.
    + exists []. split; reflexivity.
Qed.

Lemma lstrip_head : forall s c, hd_error (lstrip s) = Some c -> isspace c = false.
Proof.
  induction s as [|x s IH]; simpl; intros c H.
  - discriminate.
  - destruct (isspace x) eqn:E.
    + apply IH. exact H.
    + simpl in H. congruence.
Qed.

Lemma lstrip_spaces : forall ws s, forallb isspace ws = true -> lstrip (ws ++ s) = lstrip s.
Proof.
  induction ws as [|c ws IH]; simpl; intros s H.
  - reflexivity.
  - apply andb_true_iff in H. destruct H as [Hc Hw]. rewrite Hc. apply IH. exact Hw.
Qed.

Lemma lstrip_fixed : forall s,
  (forall c, hd_error s = Some c -> isspace c = false) -> lstrip s = s.
Proof.
  intros [|c s] H; simpl.
  - reflexivity.
  - rewrite (H c eq_refl). reflexivity.
Qed.

Lemma lstrip_snoc : forall s c, isspace c = false -> lstrip (s ++ [c]) = lstrip s ++ [c].
Proof.
  induction s as [|x s IH]; simpl; intros c H.
  - rewrite H. reflexivity.
  - destruct (isspace x); [apply IH; exact H | reflexivity].
Qed.

Lemma strip_trimmed : forall s, trimmed (strip s) s.
Proof.
  intro s. unfold trimmed, strip, rstrip.
  destruct (lstrip_split s) as [l [Hs Hl]].
  destruct (lstrip_split (rev (lstrip s))) as [w [Hr Hw]].
  exists l, (rev w). split; [|split; [exact Hl|split]].
  - rewrite <- rev_app_distr, <- Hr, rev_involutive. exact Hs.
  - rewrite forallb_forall in *. intros x Hx. apply Hw. apply in_rev. exact Hx.
  - split.
    + intros c Hc. destruct (lstrip s) as [|x t] eqn:E.
      * simpl in Hc. discriminate.
      * assert (Hx : isspace x = false) by (apply (lstrip_head s); rewrite E; reflexivity).
        simpl in Hc. rewrite lstrip_snoc in Hc by exact Hx.
        rewrite rev_app_distr in Hc. simpl in Hc. congruence.
    + intros c Hc. rewrite rev_involutive in Hc.
      apply (lstrip_head (rev (lstrip s))). exact Hc.
Qed.

Lemma trimmed_strip : forall t s, trimmed t s -> strip s = t.
Proof.
  intros t s [l [r [Hs [Hl [Hr [Hh Ht]]]]]]. subst s.
  unfold strip, rstrip. rewrite lstrip_spaces by exact Hl.
  destruct t as [|c t].
  - simpl. rewrite <- (app_nil_r r). rewrite lstrip_spaces by exact Hr.
    reflexivity.
  - assert (E1 : lstrip ((c :: t) ++ r) = (c :: t) ++ r).
    { apply lstrip_fixed. intros x Hx. apply Hh. simpl in *. exact Hx. }
    assert (E2 : forallb isspace (rev r) = true).
    { rewrite forallb_forall in *. intros x Hx. apply Hr. apply in_rev. exact Hx. }
    rewrite E1, rev_app_distr, (lstrip_spaces _ _ E2), (lstrip_fixed _ Ht).
    apply rev_involutive.
Qed.


Lemma set_fresh : forall (V : Type) (d : PyDict.dict V) k v,
  ~ In k (PyDict.keys d) -> PyDict.set d k v = d ++ [(k, v)].
Proof.
  induction d as [|[k' v'] d IH]; simpl; intros k v H.
  - reflexivity.
  - destruct (PyStr.eqb k' k) eqn:E.
    + apply eqb_eq in E. tauto.
    + f_equal. apply IH. tauto.
Qed.

Lemma fold_set_distinct :
  forall (V A : Type) (key : A -> str) (f : A -> V)
         (g : PyDict.dict V -> A -> PyDict.dict V),
    (forall d it, g d it = PyDict.set d (key it) (f it)) ->
    forall items acc,
      NoDup (PyDict.keys acc ++ map key items) ->
      fold_left g items acc = acc ++ map (fun it => (key it, f it)) items.
Proof.
  intros V A key f g Hg. induction items as [|it items IH]; simpl; intros acc H.
  - rewrite app_nil_r. reflexivity.
  - rewrite Hg, set_fresh.
    + rewrite IH.
      * rewrite <- app_assoc. reflexivity.
      * unfold PyDict.keys in *. rewrite map_app, <- app_assoc. exact H.
    + apply NoDup_remove_2 in H. intro Hin. apply H. apply in_or_app. left. exact Hin.
Qed.

Lemma get_map_in :
  forall (V A : Type) (key : A -> str) (f : A -> V) items it,
    NoDup (map key items) -> In it items ->
    PyDict.get (map (fun it => (key it, f it)) items) (key it) = Some (f it).
Proof.
  induction items as [|x items IH]; simpl; intros it Hnd Hin.
  - contradiction.
  - inversion Hnd as [|? ? Hx Hnd']; subst.
    destruct Hin as [E | Hin].
    + subst x. rewrite eqb_refl. reflexivity.
    + destruct (PyStr.eqb (key x) (key it)) eqn:E.
      * apply eqb_eq in E. exfalso. apply Hx. rewrite E. apply in_map. exact Hin.
      * apply IH; assumption.
Qed.

Lemma elements_keys : PyDict.keys elements = field_names.
Proof. reflexivity. Qed.

Lemma field_names_distinct : NoDup field_names.
Proof.
  unfold field_names, py. simpl.
  repeat (constructor; [simpl; intuition discriminate|]). constructor.
Qed.

(** [extract] fills the fields one selector at a time. *)
Lemma extract_map : forall soup,
  extract soup =
  map (fun item => (fst item, field_value soup (snd item))) elements.
Proof.
  intro soup. unfold extract, PyDict.items.
  rewrite (fold_set_distinct _ _ fst
             (fun item => field_value soup (snd item))).
  - reflexivity.
  - intros d it. unfold field_value.
    destruct (select soup (snd it)); reflexivity.
  - change (NoDup field_names). exact field_names_distinct.
Qed.

Lemma extract_get : forall soup key css,
  In (key, css) elements ->
  PyDict.get (extract soup) key = Some (field_value soup css).
Proof.
  intros soup key css Hin. rewrite extract_map.
  apply (get_map_in _ _ fst (fun item => field_value soup (snd item))
           elements (key, css)).
  - change (NoDup field_names). exact field_names_distinct.
  - exact Hin.
Qed.

(* ------------------------------------------------------------------ *)
(** ** The coroutines, run alone *)

Lemma scrape_data_sequential : forall self i url,
  sequential i (scrape_data self url) =
  (EvAcquire :: window (delay self) i url ++ [EvRelease], scraped i url).
Proof.
  intros self i url.
  unfold scrape_data, get_html_content, async_with_semaphore, window, scraped, fetched,
    parsed.
  simpl. destruct (session_get i url) as [e|response]; simpl.
  - destruct e; reflexivity.
  - destruct (response_text response) as [e|body]; simpl.
    + destruct e; reflexivity.
    + destruct (BeautifulSoup body); reflexivity.
Qed.

Lemma scrape_data_follows : forall self url, follows Before (scrape_data self url).
Proof.
  intros self url.
  unfold scrape_data, get_html_content, async_with_semaphore. simpl.
  apply follows_acquire, follows_get. intros [e|response]; simpl.
  - destruct e; simpl; repeat constructor.
  - apply follows_sleep, follows_text. intros [e|body]; simpl.
    + destruct e; simpl; repeat constructor.
    + destruct (BeautifulSoup body); repeat constructor.
Qed.

Lemma window_no_release : forall d i url, ~ In EvRelease (window d i url).
Proof.
  intros d i url. unfold window.
  destruct (session_get i url) as [e|response].
  - destruct e; simpl; intuition discriminate.
  - destruct (response_text response) as [e|body]; [destruct e|];
      simpl; intuition discriminate.
Qed.

(* ------------------------------------------------------------------ *)
(** ** Lists *)

Lemma replace_length : forall (A : Type) i (x : A) l,
  List.length (replace i x l) = List.length l.
Proof.
  intros A i x l. revert i. induction l as [|h t IH]; intros [|i]; simpl; auto.
Qed.

Lemma nth_error_replace_same : forall (A : Type) i (x y : A) l,
  nth_error l i = Some y -> nth_error (replace i x l) i = Some x.
Proof.
  intros A i x y l. revert i. induction l as [|h t IH]; intros [|i]; simpl; intro H;
    try discriminate; auto.
Qed.

Lemma nth_error_replace_other : forall (A : Type) i j (x : A) l,
  i <> j -> nth_error (replace i x l) j = nth_error l j.
Proof.
  intros A i j x l. revert i j.
  induction l as [|h t IH]; intros [|i] [|j] H; simpl; auto.
  - contradiction.
Qed.

Lemma filter_length_replace : forall (A : Type) (f : A -> bool) i (x y : A) l,
  nth_error l i = Some y ->
  List.length (filter f (replace i x l)) + b2n (f y)
  = List.length (filter f l) + b2n (f x).
Proof.
  intros A f i x y l. revert i. induction l as [|h t IH]; intros [|i]; simpl; intro H;
    try discriminate.
  - inversion H; subst. destruct (f x), (f y); simpl; lia.
  - specialize (IH i H). destruct (f h); simpl; lia.
Qed.

Lemma existsb_false_filter : forall (A : Type) (f : A -> bool) l,
  existsb f l = false -> filter f l = [].
Proof.
  intros A f. induction l as [|h t IH]; simpl; intro H.
  - reflexivity.
  - apply orb_false_iff in H. destruct H as [Hh Ht]. rewrite Hh. auto.
Qed.

Lemma map_nth_seq : forall (A : Type) (d : A) l,
  map (fun i => nth i l d) (seq 0 (List.length l)) = l.
Proof.
  intros A d l. induction l as [|h t IH]; simpl.
  - reflexivity.
  - f_equal. rewrite <- seq_shift, map_map. exact IH.
Qed.

Lemma app_tail_unique : forall (A : Type) (l rest m : list A) x,
  l ++ rest = m ++ [x] -> ~ In x m -> In x l -> rest = [].
Proof.
  intros A l rest m x H Hm Hl.
  destruct rest as [|y rest'] using rev_ind; [reflexivity|]. clear IHrest'.
  rewrite app_assoc in H. apply app_inj_tail in H. destruct H as [H _].
  exfalso. apply Hm. rewrite <- H. apply in_or_app. left. exact Hl.
Qed.

Lemma events_of_snoc : forall i j ev l,
  events_of i (l ++ [(j, ev)]) = events_of i l ++ (if Nat.eqb j i then [ev] else []).
Proof.
  intros i j ev l. unfold events_of. rewrite filter_app, map_app. simpl.
  destruct (Nat.eqb j i); reflexivity.
Qed.

Lemma printed_snoc : forall l p,
  printed (l ++ [p]) = printed l ++ match snd p with EvPrint line => [line] | _ => [] end.
Proof.
  intros l p. unfold printed. rewrite flat_map_app. simpl. rewrite app_nil_r. reflexivity.
Qed.

Lemma scalars_cells : forall l, scalars (map cell_of_scalar l) = l.
Proof.
  induction l as [|x l IH]; simpl; [reflexivity|].
  destruct x; simpl; f_equal; exact IH.
Qed.

Lemma Forall_replace : forall (A : Type) (P : A -> Prop) i x l,
  Forall P l -> P x -> Forall P (replace i x l).
Proof.
  intros A P i x l H Hx. revert i.
  induction H as [|h t Hh Ht IH]; intros [|i]; simpl; constructor; auto.
Qed.

(* ------------------------------------------------------------------ *)
(** ** The invariant of the event loop *)

Lemma invariant_advance :
  forall m d urls st i t c' h' sem' out ev,
    invariant m d urls st ->
    nth_error (tasks st) i = Some t ->
    sequential i (code t) = (ev :: fst (sequential i c'), snd (sequential i c')) ->
    (forall p, follows p (code t) -> holding t = inside p ->
       (exists p', follows p' c' /\ h' = inside p') /\
       (sem' + Z.of_nat (b2n h')
        = semaphore (scraper st) + Z.of_nat (b2n (holding t)))%Z /\
       (0 <= sem')%Z) ->
    out = match ev with EvPrint line => [line] | _ => [] end ->
    invariant m d urls (advance st i c' h' sem' out ev).
Proof.
  intros m d urls st i t c' h' sem' out ev Hinv Hn Hseq Hph Hout.
  destruct Hinv as [Hd Hlen Hnn Hperm Hphase Htasks Hstd].
  assert (Ht : exists p, follows p (code t) /\ holding t = inside p).
  { rewrite Forall_forall in Hphase. apply Hphase. eapply nth_error_In. exact Hn. }
  destruct Ht as [p [Hf Hh]].
  destruct (Hph p Hf Hh) as [[p' [Hf' Hh']] [Hsem Hpos]].
  constructor; simpl.
  - exact Hd.
  - rewrite replace_length. exact Hlen.
  - exact Hpos.
  - unfold in_flight in *. simpl.
    pose proof (filter_length_replace _ holding i
                  {| code := c'; holding := h' |} t (tasks st) Hn) as Hc.
    simpl in Hc. lia.
  - apply Forall_replace; [exact Hphase|]. exists p'. simpl. auto.
  - intros j tj url Hj Hu. rewrite events_of_snoc.
    destruct (Nat.eq_dec i j) as [E|E].
    + subst j. rewrite (nth_error_replace_same _ _ _ _ _ Hn) in Hj.
      inversion Hj; subst tj. simpl. rewrite Nat.eqb_refl.
      destruct (Htasks i t url Hn Hu) as [H1 H2].
      rewrite Hseq in H1, H2. simpl in H1, H2.
      rewrite <- app_assoc. simpl. auto.
    + rewrite nth_error_replace_other in Hj by exact E.
      apply Nat.eqb_neq in E. rewrite E, app_nil_r. apply Htasks; assumption.
  - rewrite printed_snoc. simpl. rewrite Hstd, Hout. reflexivity.
Qed.

Lemma invariant_step : forall m d urls st i,
  invariant m d urls st -> invariant m d urls (step st i).
Proof.
  intros m d urls st i Hinv. unfold step.
  destruct (raised (tasks st)); [exact Hinv|].
  destruct (nth_error (tasks st) i) as [t|] eqn:Hn; [|exact Hinv].
  destruct (code t) as [r|e|k|k|url k|sec k|resp k|line k] eqn:Hc; try exact Hinv.
  - destruct (0 <? semaphore (scraper st))%Z eqn:Hs; [|exact Hinv].
    apply Z.ltb_lt in Hs.
    apply (invariant_advance m d urls st i t); auto.
    + rewrite Hc. reflexivity.
    + intros p Hf Hh. rewrite Hc in Hf. inversion Hf; subst.
      split; [exists Inside; auto|]. rewrite Hh. simpl. lia.
  - apply (invariant_advance m d urls st i t); auto.
    + rewrite Hc. reflexivity.
    + intros p Hf Hh. rewrite Hc in Hf. inversion Hf; subst.
      split; [exists After; auto|]. rewrite Hh. simpl.
      pose proof (inv_nonneg _ _ _ _ Hinv). lia.
  - apply (invariant_advance m d urls st i t); auto.
    + rewrite Hc. reflexivity.
    + intros p Hf Hh. rewrite Hc in Hf. inversion Hf; subst.
      split; [exists Inside; auto|]. split; [reflexivity|].
      exact (inv_nonneg _ _ _ _ Hinv).
  - apply (invariant_advance m d urls st i t); auto.
    + rewrite Hc. reflexivity.
    + intros p Hf Hh. rewrite Hc in Hf. inversion Hf; subst.
      split; [exists Inside; auto|]. split; [reflexivity|].
      exact (inv_nonneg _ _ _ _ Hinv).
  - apply (invariant_advance m d urls st i t); auto.
    + rewrite Hc. reflexivity.
    + intros p Hf Hh. rewrite Hc in Hf. inversion Hf; subst.
      split; [exists Inside; auto|]. split; [reflexivity|].
      exact (inv_nonneg _ _ _ _ Hinv).
  - apply (invariant_advance m d urls st i t); auto.
    + rewrite Hc. reflexivity.
    + intros p Hf Hh. rewrite Hc in Hf. inversion Hf; subst.
      split; [exists p; auto|]. split; [reflexivity|].
      exact (inv_nonneg _ _ _ _ Hinv).
Qed.

Lemma invariant_run : forall m d urls schedule st,
  invariant m d urls st -> invariant m d urls (run schedule st).
Proof.
  intros m d urls schedule. unfold run.
  induction schedule as [|i rest IH]; simpl; intros st H.
  - exact H.
  - apply IH. apply invariant_step. exact H.
Qed.

Lemma invariant_start : forall file d m,
  (0 <= m)%Z -> invariant m d (url_cells file) (start file d m).
Proof.
  intros file d m Hm. constructor; simpl.
  - reflexivity.
  - apply length_map.
  - exact Hm.
  - unfold in_flight. simpl.
    replace (filter holding _) with (@nil task); [simpl; lia|].
    symmetry. apply existsb_false_filter.
    induction (url_cells file); simpl; auto.
  - apply Forall_forall. intros t Ht. apply in_map_iff in Ht.
    destruct Ht as [url [E _]]. subst t. exists Before. simpl.
    split; [apply scrape_data_follows | reflexivity].
  - intros i t url Ht Hu. rewrite nth_error_map, Hu in Ht. simpl in Ht.
    inversion Ht; subst t. cbn [code]. rewrite scrape_data_sequential.
    split; reflexivity.
  - reflexivity.
Qed.

(* ------------------------------------------------------------------ *)
(** ** [main], step by step *)

Lemma main_negative : forall file d m schedule,
  (m < 0)%Z -> main file d m schedule = Fatal ValueError [].
Proof.
  intros file d m schedule H. unfold main, Scraper_init.
  apply Z.ltb_lt in H. rewrite H. reflexivity.
Qed.

Lemma read_url_column_ok : forall file,
  has_url file = true -> read_url_column file = inr (url_frame file).
Proof.
  intros [e|names lines] H; unfold has_url in H; cbn [header_names] in H.
  - discriminate.
  - unfold read_url_column. rewrite H. reflexivity.
Qed.

Lemma read_url_column_error : forall file,
  has_url file = false ->
  read_url_column file = inl match read_error file with
                             | Some e => e
                             | None => KeyError
                             end.
Proof.
  intros [e|names lines] H; unfold has_url in H; cbn [header_names] in H.
  - reflexivity.
  - unfold read_url_column. rewrite H. reflexivity.
Qed.

Lemma main_no_url : forall file d m schedule,
  (0 <= m)%Z -> has_url file = false ->
  main file d m schedule = Fatal match read_error file with
                                 | Some e => e
                                 | None => KeyError
                                 end [].
Proof.
  intros file d m schedule Hm H. unfold main, Scraper_init.
  apply Z.ltb_ge in Hm. rewrite Hm.
  unfold load_data. rewrite (read_url_column_error _ H). reflexivity.
Qed.

Lemma spawn_loaded : forall file d m,
  spawn (loaded file d m) = inr (start file d m).
Proof.
  intros file d m. unfold spawn, start, loaded, url_frame, getitem.
  cbn [df columns find fst snd].
  replace (label_eqb (LStr (py "url")) (LStr (py "url"))) with true by reflexivity.
  cbn [snd]. rewrite scalars_cells. reflexivity.
Qed.

Lemma main_start : forall file d m schedule,
  (0 <= m)%Z -> has_url file = true ->
  main file d m schedule =
  match gather (run schedule (start file d m)) with
  | Pending => Running (run schedule (start file d m))
  | Failed e => Fatal e (log (run schedule (start file d m)))
  | Done results =>
      match assemble (scraper (run schedule (start file d m))) results with
      | inl e => Fatal e (log (run schedule (start file d m)))
      | inr scraper2 =>
          match save_results scraper2 with
          | inl e => Fatal e (log (run schedule (start file d m)))
          | inr file' => Saved file' (run schedule (start file d m))
          end
      end
  end.
Proof.
  intros file d m schedule Hm H. unfold main, Scraper_init.
  apply Z.ltb_ge in Hm. rewrite Hm.
  unfold load_data. rewrite (read_url_column_ok _ H).
  cbn [delay semaphore].
  change {| df := Some (url_frame file); delay := d; semaphore := m |}
    with (loaded file d m).
  rewrite spawn_loaded. reflexivity.
Qed.

Lemma reachable_start : forall file d m st,
  reachable file d m st ->
  (0 <= m)%Z /\ has_url file = true /\ exists schedule, st = run schedule (start file d m).
Proof.
  intros file d m st [s0 [s1 [st0 [schedule [H0 [H1 [H2 H3]]]]]]].
  unfold Scraper_init in H0. destruct (m <? 0)%Z eqn:Hm; [discriminate|].
  apply Z.ltb_ge in Hm. inversion H0; subst s0. clear H0.
  unfold load_data in H1. cbn [delay semaphore] in H1.
  destruct (has_url file) eqn:Hu.
  2:{ rewrite (read_url_column_error _ Hu) in H1. discriminate. }
  rewrite (read_url_column_ok _ Hu) in H1.
  inversion H1; subst s1. clear H1.
  change {| df := Some (url_frame file); delay := d; semaphore := m |}
    with (loaded file d m) in H2.
  rewrite spawn_loaded in H2. inversion H2; subst st0.
  split; [exact Hm|]. split; [reflexivity|]. exists schedule. exact H3.
Qed.

Lemma start_reachable : forall file d m schedule,
  (0 <= m)%Z -> has_url file = true ->
  reachable file d m (run schedule (start file d m)).
Proof.
  intros file d m schedule Hm Hu.
  exists {| df := None; delay := d; semaphore := m |}, (loaded file d m),
         (start file d m), schedule.
  split; [|split; [|split]].
  - unfold Scraper_init. apply Z.ltb_ge in Hm. rewrite Hm. reflexivity.
  - unfold load_data. rewrite (read_url_column_ok _ Hu). reflexivity.
  - apply spawn_loaded.
  - reflexivity.
Qed.

Lemma reachable_invariant : forall file d m st,
  reachable file d m st -> invariant m d (url_cells file) st.
Proof.
  intros file d m st H. apply reachable_start in H.
  destruct H as [Hm [_ [schedule E]]]. subst st.
  apply invariant_run. apply invariant_start. exact Hm.
Qed.

Lemma step_df : forall st i, df (scraper (step st i)) = df (scraper st).
Proof.
  intros st i. unfold step.
  destruct (raised (tasks st)); [reflexivity|].
  destruct (nth_error (tasks st) i) as [t|]; [|reflexivity].
  destruct (code t); try reflexivity.
  destruct (0 <? semaphore (scraper st))%Z; reflexivity.
Qed.

Lemma run_df : forall schedule st, df (scraper (run schedule st)) = df (scraper st).
Proof.
  unfold run. induction schedule as [|i rest IH]; simpl; intro st.
  - reflexivity.
  - rewrite IH. apply step_df.
Qed.

Lemma run_app : forall a b st, run (a ++ b) st = run b (run a st).
Proof. intros a b st. unfold run. apply fold_left_app. Qed.

(* ------------------------------------------------------------------ *)
(** ** Progress: the loop never stalls while a permit exists *)

Lemma remaining_from_replace : forall l b i t t',
  nth_error l i = Some t ->
  remaining_from b (replace i t' l) + todo (b + i) t
  = remaining_from b l + todo (b + i) t'.
Proof.
  induction l as [|h l IH]; intros b [|i] t t' H; simpl in *; try discriminate.
  - inversion H; subst. rewrite Nat.add_0_r. lia.
  - specialize (IH (S b) i t t' H). rewrite Nat.add_succ_comm in IH. lia.
Qed.

Lemma step_progress : forall st i t,
  raised (tasks st) = None ->
  nth_error (tasks st) i = Some t ->
  finished t = false ->
  (forall k, code t = SemAcquire k -> (0 < semaphore (scraper st))%Z) ->
  S (remaining (step st i)) = remaining st.
Proof.
  intros st i t Hr Hn Hf Hs. unfold step. rewrite Hr, Hn.
  unfold finished in Hf.
  destruct (code t) as [r|e|k|k|url k|sec k|resp k|line k] eqn:Hc; try discriminate.
  - specialize (Hs k eq_refl). apply Z.ltb_lt in Hs. rewrite Hs.
    unfold remaining, advance. cbn [tasks].
    pose proof (remaining_from_replace (tasks st) 0 i t
                  {| code := k; holding := true |} Hn) as H.
    unfold todo in *. rewrite Hc in H. simpl in H. simpl. lia.
  - unfold remaining, advance. cbn [tasks].
    pose proof (remaining_from_replace (tasks st) 0 i t
                  {| code := k; holding := false |} Hn) as H.
    unfold todo in *. rewrite Hc in H. simpl in H. simpl. lia.
  - unfold remaining, advance. cbn [tasks].
    pose proof (remaining_from_replace (tasks st) 0 i t
                  {| code := k (session_get i url); holding := holding t |} Hn) as H.
    unfold todo in *. rewrite Hc in H. simpl in H. simpl. lia.
  - unfold remaining, advance. cbn [tasks].
    pose proof (remaining_from_replace (tasks st) 0 i t
                  {| code := k; holding := holding t |} Hn) as H.
    unfold todo in *. rewrite Hc in H. simpl in H. simpl. lia.
  - unfold remaining, advance. cbn [tasks].
    pose proof (remaining_from_replace (tasks st) 0 i t
                  {| code := k (response_text resp); holding := holding t |} Hn) as H.
    unfold todo in *. rewrite Hc in H. simpl in H. simpl. lia.
  - unfold remaining, advance. cbn [tasks].
    pose proof (remaining_from_replace (tasks st) 0 i t
                  {| code := k; holding := holding t |} Hn) as H.
    unfold todo in *. rewrite Hc in H. simpl in H. simpl. lia.
Qed.

Lemma pending_unfinished : forall ts,
  raised ts = None -> collect ts = None ->
  exists i t, nth_error ts i = Some t /\ finished t = false.
Proof.
  induction ts as [|t ts IH]; simpl; intros Hr Hc.
  - discriminate.
  - destruct (code t) eqn:E; try discriminate;
      try (exists 0, t; split; [reflexivity | unfold finished; rewrite E; reflexivity]).
    destruct (collect ts) eqn:Hc'; [discriminate|].
    destruct (IH Hr eq_refl) as [i [t' [H1 H2]]].
    exists (S i), t'. split; assumption.
Qed.

Lemma raised_some : forall ts e,
  raised ts = Some e -> exists i t, nth_error ts i = Some t /\ code t = Raise e.
Proof.
  induction ts as [|t ts IH]; simpl; intros e H.
  - discriminate.
  - destruct (code t) eqn:E;
      try (destruct (IH e H) as [i [t' [H1 H2]]]; exists (S i), t'; split; assumption).
    inversion H; subst. exists 0, t. split; [reflexivity | exact E].
Qed.

Lemma progress : forall m d urls st,
  invariant m d urls st -> (0 < m)%Z -> gather st = Pending ->
  exists i, S (remaining (step st i)) = remaining st.
Proof.
  intros m d urls st Hinv Hm Hg. unfold gather in Hg.
  destruct (raised (tasks st)) eqn:Hr; [discriminate|].
  destruct (collect (tasks st)) eqn:Hc; [discriminate|].
  destruct (existsb holding (tasks st)) eqn:Hex.
  - apply existsb_exists in Hex. destruct Hex as [t [Hin Hh]].
    apply In_nth_error in Hin. destruct Hin as [i Hn].
    assert (Hp : exists p, follows p (code t) /\ holding t = inside p).
    { pose proof (inv_phase _ _ _ _ Hinv) as Hph. rewrite Forall_forall in Hph.
      apply Hph. eapply nth_error_In. exact Hn. }
    destruct Hp as [p [Hf Hi]]. rewrite Hh in Hi.
    destruct p; try discriminate.
    exists i. apply (step_progress st i t Hr Hn).
    + unfold finished. inversion Hf; reflexivity.
    + intros k E. rewrite E in Hf. inversion Hf.
  - destruct (pending_unfinished _ Hr Hc) as [i [t [Hn Hf]]].
    exists i. apply (step_progress st i t Hr Hn Hf).
    intros _ _. pose proof (inv_permits _ _ _ _ Hinv) as Hp.
    unfold in_flight in Hp. rewrite (existsb_false_filter _ _ _ Hex) in Hp.
    simpl in Hp. lia.
Qed.

Lemma completes : forall m d urls n st,
  remaining st <= n -> invariant m d urls st -> (0 < m)%Z ->
  exists more, gather (run more st) <> Pending.
Proof.
  intros m d urls. induction n as [|n IH]; intros st Hn Hinv Hm.
  - destruct (gather st) eqn:Hg.
    + destruct (progress _ _ _ _ Hinv Hm Hg) as [i Hi]. lia.
    + exists []. simpl. rewrite Hg. discriminate.
    + exists []. simpl. rewrite Hg. discriminate.
  - destruct (gather st) eqn:Hg.
    + destruct (progress _ _ _ _ Hinv Hm Hg) as [i Hi].
      destruct (IH (step st i)) as [more Hmore].
      * lia.
      * apply invariant_step. exact Hinv.
      * exact Hm.
      * exists (i :: more). exact Hmore.
    + exists []. simpl. rewrite Hg. discriminate.
    + exists []. simpl. rewrite Hg. discriminate.
Qed.

(* ------------------------------------------------------------------ *)
(** ** What [gather] returns *)

Lemma collect_length : forall ts rs, collect ts = Some rs -> List.length rs = List.length ts.
Proof.
  induction ts as [|t ts IH]; simpl; intros rs H.
  - inversion H. reflexivity.
  - destruct (code t); try discriminate.
    destruct (collect ts) as [rs'|]; [|discriminate].
    inversion H; subst. simpl. f_equal. apply IH. reflexivity.
Qed.

Lemma collect_results : forall ts us k rs,
  (forall i t url, nth_error ts i = Some t -> nth_error us i = Some url ->
                   snd (sequential (k + i) (code t)) = scraped (k + i) url) ->
  List.length ts = List.length us ->
  collect ts = Some rs -> rs = results_from k us.
Proof.
  induction ts as [|t ts IH]; intros [|u us] k rs H Hlen Hc; simpl in *; try discriminate.
  - inversion Hc. reflexivity.
  - destruct (code t) as [r| | | | | | |] eqn:E; try discriminate.
    destruct (collect ts) as [rs'|] eqn:Hc'; [|discriminate].
    inversion Hc; subst rs. clear Hc.
    pose proof (H 0 t u eq_refl eq_refl) as H0. rewrite Nat.add_0_r, E in H0.
    simpl in H0. rewrite <- H0. f_equal.
    apply IH.
    + intros i t' url Ht Hu. specialize (H (S i) t' url Ht Hu).
      rewrite Nat.add_succ_comm. exact H.
    + lia.
    + reflexivity.
Qed.

Lemma nth_error_same_length : forall (A B : Type) (l : list A) (m : list B) i x,
  List.length l = List.length m -> nth_error l i = Some x ->
  exists y, nth_error m i = Some y.
Proof.
  intros A B l m i x Hlen H.
  destruct (nth_error m i) as [y|] eqn:E; [exists y; reflexivity|].
  apply nth_error_None in E.
  assert (nth_error l i <> None) by congruence.
  apply nth_error_Some in H0. lia.
Qed.

Lemma gather_done : forall m d urls st rs,
  invariant m d urls st -> gather st = Done rs ->
  rs = results_from 0 urls /\ List.length rs = List.length urls.
Proof.
  intros m d urls st rs Hinv Hg. unfold gather in Hg.
  destruct (raised (tasks st)); [discriminate|].
  destruct (collect (tasks st)) as [rs'|] eqn:Hc; [|discriminate].
  inversion Hg; subst rs'. split.
  - apply (collect_results (tasks st) urls 0 rs).
    + intros i t url Ht Hu. simpl. apply (inv_tasks _ _ _ _ Hinv i t url Ht Hu).
    + exact (inv_length _ _ _ _ Hinv).
    + exact Hc.
  - rewrite (collect_length _ _ Hc). exact (inv_length _ _ _ _ Hinv).
Qed.

Lemma gather_failed : forall m d urls st e,
  invariant m d urls st -> gather st = Failed e ->
  exists i url, nth_error urls i = Some url /\ scraped i url = inl e.
Proof.
  intros m d urls st e Hinv Hg. unfold gather in Hg.
  destruct (raised (tasks st)) as [e'|] eqn:Hr.
  - inversion Hg; subst e'. apply raised_some in Hr.
    destruct Hr as [i [t [Hn Hc]]].
    destruct (nth_error_same_length _ _ (tasks st) urls i t
                (inv_length _ _ _ _ Hinv) Hn) as [url Hu].
    exists i, url. split; [exact Hu|].
    destruct (inv_tasks _ _ _ _ Hinv i t url Hn Hu) as [_ H].
    rewrite Hc in H. simpl in H. symmetry. exact H.
  - destruct (collect (tasks st)); discriminate.
Qed.

Lemma collect_nth : forall ts rs i t,
  collect ts = Some rs -> nth_error ts i = Some t -> exists r, code t = Ret r.
Proof.
  induction ts as [|h ts IH]; intros rs [|i] t Hc Ht; simpl in *; try discriminate.
  - inversion Ht; subst h. destruct (code t); try discriminate. eexists. reflexivity.
  - destruct (code h); try discriminate.
    destruct (collect ts) as [rs'|] eqn:E; [|discriminate].
    apply (IH rs' i t eq_refl Ht).
Qed.

Lemma done_no_failure : forall m d urls st rs i url,
  invariant m d urls st -> gather st = Done rs ->
  nth_error urls i = Some url -> exists r, scraped i url = inr r.
Proof.
  intros m d urls st rs i url Hinv Hg Hu. unfold gather in Hg.
  destruct (raised (tasks st)); [discriminate|].
  destruct (collect (tasks st)) as [rs'|] eqn:Hc; [|discriminate].
  destruct (nth_error_same_length _ _ urls (tasks st) i url
              (eq_sym (inv_length _ _ _ _ Hinv)) Hu) as [t Ht].
  destruct (collect_nth _ _ _ _ Hc Ht) as [r Hr].
  destruct (inv_tasks _ _ _ _ Hinv i t url Ht Hu) as [_ H].
  rewrite Hr in H. simpl in H. exists r. symmetry. exact H.
Qed.

Lemma fetched_scraped : forall i url e, fetched i url = inl e -> scraped i url = inl e.
Proof.
  intros i url e H. unfold scraped. rewrite H. reflexivity.
Qed.

(** A unit raises what escaped its fetch, or what the parser raised on the
    document the fetch returned. *)
Lemma scraped_error : forall i url e,
  scraped i url = inl e ->
  fetched i url = inl e \/
  exists body, fetched i url = inr (Some body) /\ BeautifulSoup body = inl e.
Proof.
  intros i url e H. unfold scraped in H.
  destruct (fetched i url) as [e'|[body|]].
  - left. inversion H. reflexivity.
  - right. exists body. split; [reflexivity|]. unfold parsed in H.
    destruct (BeautifulSoup body); [inversion H; reflexivity | discriminate].
  - discriminate.
Qed.

Lemma scraped_document : forall i url body soup,
  fetched i url = inr (Some body) -> BeautifulSoup body = inr soup ->
  scraped i url = inr (Some (extract soup)).
Proof.
  intros i url body soup Hf Hp. unfold scraped, parsed. rewrite Hf, Hp. reflexivity.
Qed.

Lemma scraped_timeout : forall i url,
  fetched i url = inr None -> scraped i url = inr None.
Proof.
  intros i url H. unfold scraped. rewrite H. reflexivity.
Qed.

(** A unit returns [None] after a timeout only, and a dict after a document
    the parser accepted only. *)
Lemma scraped_none : forall i url,
  scraped i url = inr None -> fetched i url = inr None.
Proof.
  intros i url H. unfold scraped, parsed in H.
  destruct (fetched i url) as [e|[body|]]; try discriminate; [|reflexivity].
  destruct (BeautifulSoup body); discriminate.
Qed.

Lemma scraped_some : forall i url dct,
  scraped i url = inr (Some dct) ->
  exists body soup, fetched i url = inr (Some body) /\
                    BeautifulSoup body = inr soup /\ dct = extract soup.
Proof.
  intros i url dct H. unfold scraped, parsed in H.
  destruct (fetched i url) as [e|[body|]]; try discriminate.
  destruct (BeautifulSoup body) as [e|soup] eqn:E; [discriminate|].
  inversion H. exists body, soup. split; [reflexivity|]. split; [exact E | reflexivity].
Qed.

Lemma fetched_not_timeout : forall i url e, fetched i url = inl e -> e <> TimeoutError.
Proof.
  intros i url e. unfold fetched, absorb.
  destruct (session_get i url) as [e1|response].
  - destruct e1; intro H; inversion H; discriminate.
  - destruct (response_text response) as [e2|body].
    + destruct e2; intro H; inversion H; discriminate.
    + discriminate.
Qed.

Lemma results_from_shape : forall us k r,
  In r (results_from k us) -> r = None \/ exists soup, r = Some (extract soup).
Proof.
  induction us as [|u us IH]; simpl; intros k r H.
  - contradiction.
  - destruct (scraped k u) as [e|[dct|]] eqn:E; destruct H as [H|H];
      try (apply (IH _ _ H)); subst; auto.
    destruct (scraped_some _ _ _ E) as [body [soup [_ [_ Hd]]]].
    right. exists soup. rewrite Hd. reflexivity.
Qed.

Lemma results_from_none : forall us k,
  (forall i url, nth_error us i = Some url -> fetched (k + i) url = inr None) ->
  results_from k us = map (fun _ => None) us.
Proof.
  induction us as [|u us IH]; simpl; intros k H.
  - reflexivity.
  - pose proof (H 0 u eq_refl) as H0. rewrite Nat.add_0_r in H0.
    rewrite (scraped_timeout _ _ H0). f_equal. apply IH.
    intros i url Hu. specialize (H (S i) url Hu).
    rewrite Nat.add_succ_comm. exact H.
Qed.

(* ------------------------------------------------------------------ *)
(** ** Frames *)

Lemma all_dicts_map : forall rs ds, all_dicts rs = Some ds -> rs = map Some ds.
Proof.
  induction rs as [|[d|] rs IH]; simpl; intros ds H.
  - inversion H. reflexivity.
  - destruct (all_dicts rs) as [ds'|]; [|discriminate].
    inversion H; subst. simpl. f_equal. apply IH. reflexivity.
  - discriminate.
Qed.

Lemma all_dicts_forallb : forall rs,
  forallb is_dict rs = true -> exists ds, all_dicts rs = Some ds.
Proof.
  induction rs as [|[d|] rs IH]; simpl; intro H.
  - exists []. reflexivity.
  - destruct (IH H) as [ds E]. rewrite E. exists (d :: ds). reflexivity.
  - discriminate.
Qed.

Lemma RangeIndex_length : forall n, List.length (RangeIndex n) = n.
Proof. intro n. unfold RangeIndex. rewrite length_map, length_seq. reflexivity. Qed.

(** The frame [pd.DataFrame] builds from a list carries the default index. *)
Lemma DataFrame_index : forall rs f,
  DataFrame rs = inr f -> index f = RangeIndex (List.length rs).
Proof.
  intros [|[d|] rs] f H; unfold DataFrame in H.
  - inversion H. reflexivity.
  - destruct (all_dicts (Some d :: rs)); [|discriminate]. inversion H. reflexivity.
  - inversion H. reflexivity.
Qed.

Lemma DataFrame_nrows : forall rs f, DataFrame rs = inr f -> nrows f = List.length rs.
Proof.
  intros rs f H. unfold nrows. rewrite (DataFrame_index _ _ H). apply RangeIndex_length.
Qed.

Lemma DataFrame_accepted : forall rs,
  accepted rs = true -> exists f, DataFrame rs = inr f.
Proof.
  intros [|[d|] rs] H; unfold DataFrame.
  - eexists. reflexivity.
  - simpl in H. destruct (all_dicts_forallb rs H) as [ds E].
    simpl. rewrite E. eexists. reflexivity.
  - eexists. reflexivity.
Qed.

Lemma add_key_known : forall acc k, In k acc -> add_key acc k = acc.
Proof.
  intros acc k H. unfold add_key.
  replace (existsb (PyStr.eqb k) acc) with true; [reflexivity|].
  symmetry. apply existsb_exists. exists k. split; [exact H | apply eqb_refl].
Qed.

Lemma add_key_fresh : forall acc k, ~ In k acc -> add_key acc k = acc ++ [k].
Proof.
  intros acc k H. unfold add_key.
  destruct (existsb (PyStr.eqb k) acc) eqn:E; [|reflexivity].
  apply existsb_exists in E. destruct E as [x [Hx E]].
  apply eqb_eq in E. subst x. contradiction.
Qed.

Lemma fold_add_key_known : forall ks acc,
  (forall k, In k ks -> In k acc) -> fold_left add_key ks acc = acc.
Proof.
  induction ks as [|k ks IH]; simpl; intros acc H.
  - reflexivity.
  - rewrite add_key_known by (apply H; left; reflexivity).
    apply IH. intros x Hx. apply H. right. exact Hx.
Qed.

Lemma fold_add_key_fresh : forall ks acc,
  NoDup (acc ++ ks) -> fold_left add_key ks acc = acc ++ ks.
Proof.
  induction ks as [|k ks IH]; simpl; intros acc H.
  - rewrite app_nil_r. reflexivity.
  - rewrite add_key_fresh.
    + rewrite IH; rewrite <- app_assoc; [reflexivity | exact H].
    + apply NoDup_remove_2 in H. intro Hin. apply H. apply in_or_app. left. exact Hin.
Qed.

Lemma unique_keys_same : forall ds d ks,
  NoDup ks -> (forall x, In x (d :: ds) -> PyDict.keys x = ks) ->
  unique_keys (d :: ds) = ks.
Proof.
  intros ds d ks Hnd H. unfold unique_keys. simpl.
  rewrite (H d (or_introl eq_refl)).
  rewrite (fold_add_key_fresh ks []) by exact Hnd. simpl.
  assert (Hds : forall x, In x ds -> PyDict.keys x = ks)
    by (intros x Hx; apply H; right; exact Hx).
  clear H. induction ds as [|x ds IH]; simpl.
  - reflexivity.
  - rewrite (Hds x (or_introl eq_refl)).
    rewrite fold_add_key_known by auto.
    apply IH. intros y Hy. apply Hds. right. exact Hy.
Qed.

Lemma extract_keys : forall soup, PyDict.keys (extract soup) = field_names.
Proof.
  intro html. rewrite extract_map. unfold PyDict.keys. rewrite map_map. reflexivity.
Qed.

Lemma nth_map_some : forall (A B : Type) (g : A -> B) l k x d,
  nth_error l k = Some x -> nth k (map g l) d = g x.
Proof.
  intros A B g l. induction l as [|h t IH]; intros [|k] x d H; simpl in *;
    try discriminate.
  - inversion H. reflexivity.
  - apply IH. exact H.
Qed.

Lemma row_at_length : forall cols i, List.length (row_at cols i) = List.length cols.
Proof. intros cols i. unfold row_at. apply length_map. Qed.

Lemma to_csv_rows_length : forall f,
  List.length (rows (to_csv f false)) = nrows f.
Proof. intro f. unfold to_csv. simpl. rewrite length_map, length_seq. reflexivity. Qed.

Lemma column_to_csv : forall f k l c,
  nth_error (columns f) k = Some (l, c) -> List.length c = nrows f ->
  column (to_csv f false) k = c.
Proof.
  intros f k l c Hk Hc. unfold column, to_csv. simpl. rewrite map_map.
  rewrite <- Hc. rewrite <- (map_nth_seq _ CNaN c) at 2.
  apply map_ext. intro i. unfold row_at.
  rewrite (nth_map_some _ _ _ _ _ _ CNaN Hk). reflexivity.
Qed.

(** *** Index objects *)

Lemma label_eqb_eq : forall a b, label_eqb a b = true <-> a = b.
Proof.
  intros [x|x] [y|y]; simpl; split; intro H; try discriminate.
  - apply eqb_eq in H. subst. reflexivity.
  - inversion H. apply eqb_refl.
  - apply Z.eqb_eq in H. subst. reflexivity.
  - inversion H. apply Z.eqb_refl.
Qed.

Lemma label_eqb_refl : forall a, label_eqb a a = true.
Proof. intro a. apply label_eqb_eq. reflexivity. Qed.

Lemma equals_eq : forall a b, equals a b = true <-> a = b.
Proof.
  induction a as [|x a IH]; intros [|y b]; simpl; split; intro H;
    try discriminate; try reflexivity.
  - apply andb_true_iff in H. destruct H as [H1 H2].
    apply label_eqb_eq in H1. apply IH in H2. subst. reflexivity.
  - inversion H; subst. rewrite label_eqb_refl. simpl. apply IH. reflexivity.
Qed.

Lemma equals_refl : forall a, equals a a = true.
Proof. intro a. apply equals_eq. reflexivity. Qed.

(** Frames that carry the same index are pasted side by side. *)
Lemma concat_aligned : forall a b,
  index a = index b ->
  concat_axis1 a b = inr {| index := index a; columns := columns a ++ columns b |}.
Proof.
  intros a b H. unfold concat_axis1, union, reindex.
  rewrite <- H. rewrite !equals_refl. reflexivity.
Qed.

Lemma reindex_labels : forall df new_index cols,
  reindex df new_index = inr cols -> map fst cols = labels df.
Proof.
  intros df ni cols H. unfold reindex in H.
  destruct (equals ni (index df)).
  - inversion H. reflexivity.
  - destruct (is_unique (index df)); [|discriminate].
    inversion H. unfold labels. rewrite map_map. reflexivity.
Qed.

(** Whatever the indexes, the columns of the join are those of the first
    frame followed by those of the second. *)
Lemma concat_labels : forall a b joined,
  concat_axis1 a b = inr joined -> labels joined = labels a ++ labels b.
Proof.
  intros a b joined H. unfold concat_axis1 in H.
  destruct (reindex a (union (index a) (index b))) as [e|ca] eqn:Ha; [discriminate|].
  destruct (reindex b (union (index a) (index b))) as [e|cb] eqn:Hb; [discriminate|].
  inversion H. unfold labels at 1. cbn [columns]. rewrite map_app.
  rewrite (reindex_labels _ _ _ Ha), (reindex_labels _ _ _ Hb). reflexivity.
Qed.

Lemma row_labels_length : forall file,
  List.length (row_labels file) = List.length (url_cells file).
Proof.
  intros [e|names lines]; simpl; [reflexivity|]. rewrite !length_map. reflexivity.
Qed.

Lemma default_index_labels : forall file,
  default_index file = true ->
  row_labels file = RangeIndex (List.length (url_cells file)).
Proof.
  intros file H. unfold default_index in H. apply equals_eq in H.
  rewrite row_labels_length in H. exact H.
Qed.

Lemma no_urls_default_index : forall file,
  url_cells file = [] -> default_index file = true.
Proof.
  intros file H. unfold default_index.
  pose proof (row_labels_length file) as Hl. rewrite H in Hl.
  destruct (row_labels file); [reflexivity | discriminate].
Qed.

Lemma cell_at_column : forall f i k, i < List.length (rows f) ->
  cell_at f i k = nth i (column f k) CNaN.
Proof.
  intros f i k Hi. unfold cell_at, column.
  rewrite (nth_indep (map (fun row => nth k row CNaN) (rows f)) CNaN
             ((fun row => nth k row CNaN) []))
    by (rewrite length_map; exact Hi).
  rewrite (map_nth (fun row => nth k row CNaN)). reflexivity.
Qed.

(** What a run that reaches [save_results] has written. *)
Lemma saved_spec : forall file d m schedule f st,
  main file d m schedule = Saved f st ->
  (0 <= m)%Z /\ has_url file = true /\ st = run schedule (start file d m) /\
  gather st = Done (results_from 0 (url_cells file)) /\
  exists scraped_df joined,
    DataFrame (results_from 0 (url_cells file)) = inr scraped_df /\
    concat_axis1 (url_frame file) scraped_df = inr joined /\
    f = to_csv joined false.
Proof.
  intros file d m schedule f st H.
  destruct (Z.ltb_spec m 0) as [Hm|Hm].
  { rewrite main_negative in H by exact Hm. discriminate. }
  destruct (has_url file) eqn:Hu.
  2:{ rewrite main_no_url in H by assumption. discriminate. }
  rewrite main_start in H by assumption.
  pose proof (invariant_run m d (url_cells file) schedule _
                (invariant_start file d m Hm)) as Hinv.
  destruct (gather (run schedule (start file d m))) as [|e|rs] eqn:Hg; try discriminate.
  destruct (gather_done _ _ _ _ _ Hinv Hg) as [Hrs _]. subst rs.
  unfold assemble in H.
  destruct (DataFrame (results_from 0 (url_cells file))) as [e|scraped_df] eqn:HD;
    [discriminate|].
  rewrite run_df in H. cbn [start scraper loaded df delay semaphore] in H.
  destruct (concat_axis1 (url_frame file) scraped_df) as [e|joined] eqn:HC;
    [discriminate|].
  unfold save_results in H. cbn [df] in H.
  inversion H; subst.
  split; [exact Hm|]. split; [reflexivity|]. split; [reflexivity|].
  split; [exact Hg|]. exists scraped_df, joined. repeat split; assumption.
Qed.

(** The columns of a saved table: [url], then those of the frame of the
    results. *)
Lemma saved_header : forall file d m schedule f st,
  main file d m schedule = Saved f st ->
  exists scraped_df,
    DataFrame (results_from 0 (url_cells file)) = inr scraped_df /\
    header f = LStr (py "url") :: labels scraped_df /\
    Forall (fun row => List.length row = S (List.length (columns scraped_df))) (rows f).
Proof.
  intros file d m schedule f st H.
  destruct (saved_spec _ _ _ _ _ _ H) as [_ [_ [_ [_ [sdf [joined [HD [HC Hf]]]]]]]].
  exists sdf. split; [exact HD|]. subst f.
  pose proof (concat_labels _ _ _ HC) as Hl.
  split.
  - unfold to_csv. cbn [header]. fold (labels joined). rewrite Hl. reflexivity.
  - apply Forall_forall. intros row Hrow. unfold to_csv in Hrow. cbn [rows] in Hrow.
    apply in_map_iff in Hrow. destruct Hrow as [i [E _]]. subst row.
    rewrite row_at_length. rewrite <- (length_map fst (columns joined)).
    fold (labels joined). rewrite Hl. unfold labels. simpl.
    rewrite length_map. reflexivity.
Qed.

(** In a run that saved its output every unit returned. *)
Lemma saved_unit : forall file d m schedule f st i url,
  main file d m schedule = Saved f st ->
  nth_error (url_cells file) i = Some url ->
  exists r, scraped i url = inr r.
Proof.
  intros file d m schedule f st i url H Hu.
  destruct (saved_spec _ _ _ _ _ _ H) as [Hm [_ [Hst [Hg _]]]].
  pose proof (invariant_run m d (url_cells file) schedule _
                (invariant_start file d m Hm)) as Hinv.
  rewrite <- Hst in Hinv.
  exact (done_no_failure _ _ _ _ _ i url Hinv Hg Hu).
Qed.

Lemma saved_document : forall file d m schedule f st i url body,
  main file d m schedule = Saved f st ->
  nth_error (url_cells file) i = Some url ->
  fetched i url = inr (Some body) ->
  exists soup, BeautifulSoup body = inr soup /\
               scraped i url = inr (Some (extract soup)).
Proof.
  intros file d m schedule f st i url body H Hu Hf.
  destruct (saved_unit _ _ _ _ _ _ _ _ H Hu) as [r Hr].
  unfold scraped, parsed in *. rewrite Hf in *.
  destruct (BeautifulSoup body) as [e|soup]; [discriminate|].
  exists soup. split; reflexivity.
Qed.

(** When the rows of the file carry the default index, the frame of the
    results is pasted to the right of the [url] column, row by row. *)
Lemma saved_joined : forall file d m schedule f st,
  main file d m schedule = Saved f st ->
  default_index file = true ->
  exists scraped_df,
    DataFrame (results_from 0 (url_cells file)) = inr scraped_df /\
    nrows scraped_df = List.length (url_cells file) /\
    f = to_csv {| index := RangeIndex (List.length (url_cells file));
                  columns := (LStr (py "url"), map cell_of_scalar (url_cells file))
                             :: columns scraped_df |} false.
Proof.
  intros file d m schedule f st H Hdef.
  destruct (saved_spec _ _ _ _ _ _ H) as [Hm [_ [Hst [Hg [sdf [joined [HD [HC Hf]]]]]]]].
  exists sdf. split; [exact HD|].
  assert (Hlen : List.length (results_from 0 (url_cells file))
                 = List.length (url_cells file)).
  { pose proof (invariant_run m d (url_cells file) schedule _
                  (invariant_start file d m Hm)) as Hinv.
    rewrite <- Hst in Hinv. exact (proj2 (gather_done _ _ _ _ _ Hinv Hg)). }
  split; [rewrite (DataFrame_nrows _ _ HD); exact Hlen|].
  rewrite concat_aligned in HC.
  - inversion HC; subst joined. subst f. cbn [index url_frame columns app].
    rewrite (default_index_labels _ Hdef). reflexivity.
  - cbn [index url_frame]. rewrite (default_index_labels _ Hdef).
    rewrite (DataFrame_index _ _ HD). f_equal. symmetry. exact Hlen.
Qed.

Lemma saved_table : forall file d m schedule f st,
  main file d m schedule = Saved f st ->
  default_index file = true ->
  exists scraped_df,
    DataFrame (results_from 0 (url_cells file)) = inr scraped_df /\
    nrows scraped_df = List.length (url_cells file) /\
    header f = LStr (py "url") :: labels scraped_df /\
    List.length (rows f) = List.length (url_cells file) /\
    Forall (fun row => List.length row = S (List.length (columns scraped_df))) (rows f) /\
    column f 0 = map cell_of_scalar (url_cells file) /\
    (forall k l c, nth_error (columns scraped_df) k = Some (l, c) ->
                   List.length c = List.length (url_cells file) ->
                   column f (S k) = c).
Proof.
  intros file d m schedule f st H Hdef.
  destruct (saved_joined _ _ _ _ _ _ H Hdef) as [sdf [HD [Hn Hf]]].
  exists sdf. split; [exact HD|]. split; [exact Hn|].
  assert (Hrows : forall cols,
            nrows {| index := RangeIndex (List.length (url_cells file));
                     columns := cols |} = List.length (url_cells file)).
  { intro cols. unfold nrows. cbn [index]. apply RangeIndex_length. }
  subst f. split; [|split; [|split; [|split]]].
  - reflexivity.
  - rewrite to_csv_rows_length. apply Hrows.
  - apply Forall_forall. intros row Hrow. unfold to_csv in Hrow. cbn [rows] in Hrow.
    apply in_map_iff in Hrow. destruct Hrow as [i [E _]]. subst row.
    rewrite row_at_length. reflexivity.
  - apply (column_to_csv _ 0 (LStr (py "url"))).
    + reflexivity.
    + rewrite Hrows. apply length_map.
  - intros k l c Hk Hc.
    apply (column_to_csv _ (S k) l).
    + exact Hk.
    + rewrite Hrows. exact Hc.
Qed.

(** With a permit to give, a batch in which no task raises and whose results
    the frame constructor accepts is saved, however the run started. *)
Lemma run_completes : forall file d m,
  (0 < m)%Z -> has_url file = true -> default_index file = true ->
  (forall i url, nth_error (url_cells file) i = Some url ->
                 exists r, scraped i url = inr r) ->
  accepted (results_from 0 (url_cells file)) = true ->
  forall schedule, exists more f st, main file d m (schedule ++ more) = Saved f st.
Proof.
  intros file d m Hm Hu Hdef Hok Hacc schedule.
  assert (Hm0 : (0 <= m)%Z) by lia.
  pose proof (invariant_run m d (url_cells file) schedule _
                (invariant_start file d m Hm0)) as Hinv1.
  destruct (completes m d (url_cells file) _ _ (le_n _) Hinv1 Hm) as [more Hmore].
  exists more. rewrite main_start by assumption. rewrite run_app.
  pose proof (invariant_run m d (url_cells file) more _ Hinv1) as Hinv2.
  destruct (gather (run more (run schedule (start file d m)))) as [|e|rs] eqn:Hg.
  - contradiction.
  - destruct (gather_failed _ _ _ _ _ Hinv2 Hg) as [i [url [Hi He]]].
    destruct (Hok i url Hi) as [r Hr]. congruence.
  - destruct (gather_done _ _ _ _ _ Hinv2 Hg) as [Hrs Hlen]. subst rs.
    unfold assemble. destruct (DataFrame_accepted _ Hacc) as [f0 Hf0]. rewrite Hf0.
    rewrite !run_df. cbn [start scraper loaded df].
    rewrite concat_aligned.
    + unfold save_results. cbn [df]. eexists. eexists. reflexivity.
    + cbn [index url_frame]. rewrite (default_index_labels _ Hdef).
      rewrite (DataFrame_index _ _ Hf0). f_equal. symmetry. exact Hlen.
Qed.

(* ------------------------------------------------------------------ *)
(** ** The claims *)

(** C1 (as amended).  Order preservation.  Take an input file with a [url]
    column whose rows carry the default index (no data line has more fields
    than the header has names), at least one permit, a batch in which no
    per-URL unit raises and whose collected results the frame constructor
    accepts.  Then every schedule can be continued into one that saves the
    output, and every schedule that saves the output, whatever the
    interleaving of the fetches, writes exactly one row per input URL, the
    URL of row [i] being the input URL at index [i]. *)
Theorem rows_follow_urls : forall file d m,
  (0 < m)%Z -> has_url file = true -> default_index file = true ->
  (forall i url, nth_error (url_cells file) i = Some url ->
                 exists r, scraped i url = inr r) ->
  accepted (results_from 0 (url_cells file)) = true ->
  (forall schedule, exists more f st,
      main file d m (schedule ++ more) = Saved f st) /\
  (forall schedule f st,
      main file d m schedule = Saved f st ->
      List.length (rows f) = List.length (url_cells file) /\
      nth_error (header f) 0 = Some (LStr (py "url")) /\
      column f 0 = map cell_of_scalar (url_cells file) /\
      forall i url, nth_error (url_cells file) i = Some url ->
                    cell_at f i 0 = cell_of_scalar url).
Proof.
  intros file d m Hm Hu Hdef Hok Hacc. split.
  - apply run_completes; assumption.
  - intros schedule f st H.
    destruct (saved_table _ _ _ _ _ _ H Hdef) as [sdf [_ [_ [Hh [Hrows [_ [Hcol _]]]]]]].
    split; [exact Hrows|]. split; [rewrite Hh; reflexivity|]. split; [exact Hcol|].
    intros i url Hi. rewrite cell_at_column.
    + rewrite Hcol. apply (nth_map_some _ _ cell_of_scalar _ _ _ CNaN Hi).
    + rewrite Hrows. apply nth_error_Some. congruence.
Qed.

(** A coroutine that has not taken its permit still has to take it, and
    one that gave it back does not give it back again. *)
Lemma follows_before_acquires : forall (R : Type) p (c : coro R),
  follows p c -> p = Before -> forall i, In EvAcquire (fst (sequential i c)).
Proof.
  intros R p c H. induction H; intros E i; try discriminate; simpl.
  - left. reflexivity.
  - right. apply IHfollows. exact E.
Qed.

Lemma follows_after_released : forall (R : Type) p (c : coro R),
  follows p c -> p = After -> forall i, ~ In EvRelease (fst (sequential i c)).
Proof.
  intros R p c H. induction H; intros E i; try discriminate; simpl.
  - intros [].
  - intros [].
  - intros [F|F]; [discriminate|]. exact (IHfollows E i F).
Qed.

Lemma window_no_acquire : forall d i url, ~ In EvAcquire (window d i url).
Proof.
  intros d i url. unfold window.
  destruct (session_get i url) as [e|response].
  - destruct e; simpl; intuition discriminate.
  - destruct (response_text response) as [e|body]; [destruct e|];
      simpl; intuition discriminate.
Qed.

Lemma window_answer_read : forall d i url ev,
  In ev (window d i url) -> is_answer ev = true ->
  exists ok, In (EvRead ok) (window d i url).
Proof.
  intros d i url ev. unfold window.
  destruct (session_get i url) as [e|response].
  - intros [E|H] Ha.
    + subst ev. discriminate.
    + destruct e; simpl in H; try contradiction.
      destruct H as [E|[]]. subst ev. discriminate.
  - intros _ _. destruct (response_text response) as [e|body].
    + exists false. simpl. auto.
    + exists true. simpl. auto.
Qed.

(** A task that took its permit and did not give it back is between the
    acquisition and the release. *)
Lemma acquired_not_released : forall m d urls st i t url,
  invariant m d urls st ->
  nth_error (tasks st) i = Some t -> nth_error urls i = Some url ->
  events_of i (log st) <> [] ->
  ~ In EvRelease (events_of i (log st)) ->
  holding t = true.
Proof.
  intros m d urls st i t url Hinv Ht Hu Hne Hrel.
  destruct (inv_tasks _ _ _ _ Hinv i t url Ht Hu) as [Hev _].
  assert (Hp : exists p, follows p (code t) /\ holding t = inside p).
  { pose proof (inv_phase _ _ _ _ Hinv) as Hph. rewrite Forall_forall in Hph.
    apply Hph. eapply nth_error_In. exact Ht. }
  destruct Hp as [p [Hf Hh]]. rewrite Hh.
  destruct (events_of i (log st)) as [|e evs]; [contradiction|].
  simpl in Hev. injection Hev as He Hrest.
  destruct p; [exfalso | reflexivity | exfalso].
  - pose proof (follows_before_acquires _ _ _ Hf eq_refl i) as Hin.
    assert (Hin' : In EvAcquire (window d i url ++ [EvRelease])).
    { rewrite <- Hrest. apply in_or_app. right. exact Hin. }
    apply in_app_or in Hin'. destruct Hin' as [Hin'|[E|[]]]; [|discriminate].
    exact (window_no_acquire _ _ _ Hin').
  - pose proof (follows_after_released _ _ _ Hf eq_refl i) as Hno.
    assert (Hin : In EvRelease (evs ++ fst (sequential i (code t)))).
    { rewrite Hrest. apply in_or_app. right. left. reflexivity. }
    apply in_app_or in Hin. destruct Hin as [Hin|Hin].
    + apply Hrel. right. exact Hin.
    + exact (Hno Hin).
Qed.

(** A task whose next operation touches the network holds a permit. *)
Lemma fetching_holds : forall m d urls st t,
  invariant m d urls st -> In t (tasks st) -> fetching t = true -> holding t = true.
Proof.
  intros m d urls st t Hinv Hin Hf.
  pose proof (inv_phase _ _ _ _ Hinv) as Hph. rewrite Forall_forall in Hph.
  destruct (Hph t Hin) as [p [Hfo Hh]]. rewrite Hh.
  unfold fetching in Hf. destruct (code t); try discriminate; inversion Hfo; reflexivity.
Qed.

(** A task whose response is open holds a permit. *)
Lemma open_response_holds : forall m d urls st i t url,
  invariant m d urls st ->
  nth_error (tasks st) i = Some t -> nth_error urls i = Some url ->
  response_open (log st) i = true -> holding t = true.
Proof.
  intros m d urls st i t url Hinv Ht Hu Hopen.
  unfold response_open in Hopen. fold (events_of i (log st)) in Hopen.
  apply andb_true_iff in Hopen. destruct Hopen as [Ha Hr].
  apply negb_true_iff in Hr.
  apply existsb_exists in Ha. destruct Ha as [ev [Hev Hans]].
  apply (acquired_not_released m d urls st i t url Hinv Ht Hu).
  - intro E. rewrite E in Hev. contradiction.
  - intro Hrel.
    destruct (inv_tasks _ _ _ _ Hinv i t url Ht Hu) as [Heq _].
    assert (Hrest : fst (sequential i (code t)) = []).
    { apply (app_tail_unique _ (events_of i (log st)) _
               (EvAcquire :: window d i url) EvRelease).
      - exact Heq.
      - simpl. intros [E|E]; [discriminate | exact (window_no_release _ _ _ E)].
      - exact Hrel. }
    rewrite Hrest, app_nil_r in Heq.
    assert (Hw : In ev (window d i url)).
    { rewrite Heq in Hev. destruct Hev as [E|Hev]; [subst ev; discriminate|].
      apply in_app_or in Hev. destruct Hev as [Hev|[E|[]]]; [exact Hev|].
      subst ev. discriminate. }
    destruct (window_answer_read _ _ _ _ Hw Hans) as [ok Hok].
    assert (Hread : existsb is_read (events_of i (log st)) = true).
    { apply existsb_exists. exists (EvRead ok). split; [|reflexivity].
      rewrite Heq. right. apply in_or_app. left. exact Hok. }
    rewrite Hread in Hr. discriminate.
Qed.

Lemma filter_implies_le : forall (A : Type) (p q : A -> bool) l,
  (forall x, In x l -> p x = true -> q x = true) ->
  List.length (filter p l) <= List.length (filter q l).
Proof.
  intros A p q. induction l as [|x l IH]; simpl; intro H.
  - apply le_n.
  - assert (IH' : List.length (filter p l) <= List.length (filter q l))
      by (apply IH; intros y Hy; apply H; right; exact Hy).
    destruct (p x) eqn:Hp.
    + rewrite (H x (or_introl eq_refl) Hp). simpl. lia.
    + destruct (q x); simpl; lia.
Qed.

Lemma filter_positions_le : forall (A : Type) (p : nat -> bool) (q : A -> bool) l s,
  (forall i x, nth_error l i = Some x -> p (s + i) = true -> q x = true) ->
  List.length (filter p (seq s (List.length l))) <= List.length (filter q l).
Proof.
  intros A p q. induction l as [|x l IH]; simpl; intros s H.
  - apply le_n.
  - assert (IH' : List.length (filter p (seq (S s) (List.length l)))
                  <= List.length (filter q l)).
    { apply IH. intros i y Hy Hp. apply (H (S i) y Hy).
      rewrite Nat.add_succ_r. exact Hp. }
    destruct (p s) eqn:Hp.
    + assert (Hq : q x = true).
      { apply (H 0 x eq_refl). rewrite Nat.add_0_r. exact Hp. }
      rewrite Hq. simpl. lia.
    + destruct (q x); simpl; lia.
Qed.

(** C2.  Concurrency bound.  In every state a run can reach, the number of
    tasks between the acquisition and the release of a permit is at most
    [max_requests], and the permits left and the permits held add up to
    [max_requests].  The fetches are among them: a task whose next
    operation is the request, the sleep or the read of the body holds a
    permit, and so does a task whose request was answered and whose body is
    not read yet; hence at most [max_requests] tasks are fetching, and at
    most [max_requests] responses are open. *)
Theorem in_flight_bounded : forall file d m st,
  reachable file d m st ->
  (0 <= in_flight st <= m)%Z /\
  (semaphore (scraper st) + in_flight st = m)%Z /\
  (forall i t, nth_error (tasks st) i = Some t ->
     (fetching t = true -> holding t = true) /\
     (response_open (log st) i = true -> holding t = true)) /\
  (fetches st <= in_flight st <= m)%Z /\
  (open_responses st <= in_flight st <= m)%Z.
Proof.
  intros file d m st H. apply reachable_invariant in H.
  pose proof (inv_nonneg _ _ _ _ H) as Hn.
  pose proof (inv_permits _ _ _ _ H) as Hp.
  assert (Hopen : forall i t, nth_error (tasks st) i = Some t ->
                              response_open (log st) i = true -> holding t = true).
  { intros i t Ht Ho.
    destruct (nth_error_same_length _ _ (tasks st) (url_cells file) i t
                (inv_length _ _ _ _ H) Ht) as [url Hu].
    exact (open_response_holds _ _ _ _ _ _ _ H Ht Hu Ho). }
  assert (Hm : (in_flight st <= m)%Z) by (unfold in_flight in *; lia).
  split; [unfold in_flight in *; lia|]. split; [exact Hp|]. split; [|split].
  - intros i t Ht. split.
    + apply (fetching_holds _ _ _ _ _ H). eapply nth_error_In. exact Ht.
    + apply Hopen. exact Ht.
  - split; [|exact Hm].
    unfold fetches, in_flight. apply inj_le. apply filter_implies_le.
    intros t Hin. exact (fetching_holds _ _ _ _ _ H Hin).
  - split; [|exact Hm].
    unfold open_responses, in_flight. apply inj_le.
    apply (filter_positions_le _ (response_open (log st)) holding (tasks st) 0).
    intros i t Ht Ho. exact (Hopen i t Ht Ho).
Qed.

(** C5.  The permit-holding window.  In every state a run can reach, what
    task [i] has done so far is a prefix of: take the permit, then the
    request, the sleep of [delay] seconds (when the request was answered),
    the read and the diagnostic, then give the permit back.  Nothing is left
    to do once the task has finished, by returning or by raising, and nothing
    is left to do once the permit is given back: the request and the delay
    lie inside the window. *)
Theorem permit_window : forall file d m st i t url,
  reachable file d m st ->
  nth_error (tasks st) i = Some t ->
  nth_error (url_cells file) i = Some url ->
  exists rest,
    events_of i (log st) ++ rest = EvAcquire :: window d i url ++ [EvRelease] /\
    (finished t = true -> rest = []) /\
    (In EvRelease (events_of i (log st)) -> rest = []) /\
    (is_ok (session_get i url) = true -> In (EvSleep d) (window d i url)).
Proof.
  intros file d m st i t url H Ht Hu. apply reachable_invariant in H.
  destruct (inv_tasks _ _ _ _ H i t url Ht Hu) as [Hev _].
  exists (fst (sequential i (code t))). split; [exact Hev|]. split; [|split].
  - unfold finished. destruct (code t); try discriminate; reflexivity.
  - intro Hin.
    apply (app_tail_unique _ (events_of i (log st)) _
             (EvAcquire :: window d i url) EvRelease).
    + exact Hev.
    + simpl. intros [E|E]; [discriminate | exact (window_no_release _ _ _ E)].
    + exact Hin.
  - unfold window. destruct (session_get i url); simpl; [discriminate|].
    intros _. right. left. reflexivity.
Qed.

Lemma failure_never_saved : forall file d m i url e,
  nth_error (url_cells file) i = Some url ->
  scraped i url = inl e ->
  forall schedule, output_file (main file d m schedule) = None.
Proof.
  intros file d m i url e Hu He schedule.
  destruct (main file d m schedule) as [e' net|st|f st] eqn:Hmain; try reflexivity.
  exfalso. destruct (saved_spec _ _ _ _ _ _ Hmain) as [Hm [_ [Hst [Hg _]]]].
  pose proof (invariant_run m d (url_cells file) schedule _
                (invariant_start file d m Hm)) as Hinv.
  rewrite <- Hst in Hinv.
  destruct (done_no_failure _ _ _ _ _ i url Hinv Hg Hu) as [r Hr].
  congruence.
Qed.

(** With a permit to give, a batch in which a unit raises dies of an
    exception that escaped a unit. *)
Lemma failure_fatal : forall file d m i url e,
  nth_error (url_cells file) i = Some url ->
  scraped i url = inl e ->
  (0 < m)%Z -> has_url file = true ->
  forall schedule, exists more e' net,
    main file d m (schedule ++ more) = Fatal e' net /\
    exists j u, nth_error (url_cells file) j = Some u /\ scraped j u = inl e'.
Proof.
  intros file d m i url e Hu He Hm Hurl schedule.
  assert (Hm0 : (0 <= m)%Z) by lia.
  pose proof (invariant_run m d (url_cells file) schedule _
                (invariant_start file d m Hm0)) as Hinv1.
  destruct (completes m d (url_cells file) _ _ (le_n _) Hinv1 Hm) as [more Hmore].
  pose proof (invariant_run m d (url_cells file) more _ Hinv1) as Hinv2.
  exists more. rewrite main_start by assumption. rewrite run_app.
  destruct (gather (run more (run schedule (start file d m)))) as [|e'|rs] eqn:Hg.
  - contradiction.
  - exists e', (log (run more (run schedule (start file d m)))).
    split; [reflexivity|].
    destruct (gather_failed _ _ _ _ _ Hinv2 Hg) as [j [u [Hj Hs]]].
    exists j, u. split; [exact Hj | exact Hs].
  - exfalso. destruct (done_no_failure _ _ _ _ _ i url Hinv2 Hg Hu) as [r Hr].
    congruence.
Qed.

(** C7.  A transport failure that is not a timeout.  When the fetch of some
    URL of the batch raises such a failure, the failure is not a timeout, it
    escapes the per-URL unit, no schedule writes an output file, and (with a
    [url] column and a permit to give) every schedule can be continued into
    one where [main] dies of an exception that escaped a unit (its fetch,
    or the parser on the document it fetched); the results of the other
    units die with it. *)
Theorem transport_failure_aborts : forall file d m i url e,
  nth_error (url_cells file) i = Some url ->
  fetched i url = inl e ->
  e <> TimeoutError /\
  (forall self, snd (sequential i (scrape_data self url)) = inl e) /\
  (forall schedule, output_file (main file d m schedule) = None) /\
  ((0 < m)%Z -> has_url file = true ->
   forall schedule, exists more e' net,
     main file d m (schedule ++ more) = Fatal e' net /\
     exists j u, nth_error (url_cells file) j = Some u /\
       (fetched j u = inl e' \/
        exists body, fetched j u = inr (Some body) /\ BeautifulSoup body = inl e')).
Proof.
  intros file d m i url e Hu He.
  pose proof (fetched_scraped _ _ _ He) as Hs.
  split; [exact (fetched_not_timeout _ _ _ He)|]. split; [|split].
  - intro self. rewrite scrape_data_sequential. simpl. exact Hs.
  - exact (failure_never_saved file d m i url e Hu Hs).
  - intros Hm Hurl schedule.
    destruct (failure_fatal file d m i url e Hu Hs Hm Hurl schedule)
      as [more [e' [net [Hmain [j [u [Hj Hsj]]]]]]].
    exists more, e', net. split; [exact Hmain|].
    exists j, u. split; [exact Hj | exact (scraped_error _ _ _ Hsj)].
Qed.

(** C9.  A file without a [url] column: [pd.read_csv] gave a frame that
    has none, or gave no frame at all.  [main] dies while loading, before
    any task exists: nothing has touched the network and nothing is
    written.  Whenever the constructor accepted [max_requests], the
    exception is the [KeyError] of [load_data] when the file was read, and
    that of [pd.read_csv] when it was not. *)
Theorem missing_url_column : forall file d m schedule,
  has_url file = false ->
  exists e,
    main file d m schedule = Fatal e [] /\
    output_file (main file d m schedule) = None /\
    network (main file d m schedule) = [] /\
    ((0 <= m)%Z -> read_error file = None -> e = KeyError) /\
    ((0 <= m)%Z -> forall e', read_error file = Some e' -> e = e').
Proof.
  intros file d m schedule H.
  destruct (Z.ltb_spec m 0) as [Hm|Hm].
  - exists ValueError. rewrite main_negative by exact Hm.
    repeat split; intros; lia.
  - eexists. rewrite main_no_url by assumption.
    split; [reflexivity|]. split; [reflexivity|]. split; [reflexivity|]. split.
    + intros _ E. rewrite E. reflexivity.
    + intros _ e' E. rewrite E. reflexivity.
Qed.




(** C6 (as amended).  Extraction.  For every document text: when the
    parser accepts it, the field loop returns a dict whose keys are exactly
    the twelve field names, in the order of [elements]; the value of a key
    depends on the matches of its own selector only; when no selector
    matches, the twelve values are [pd.NA]; and a unit whose fetch returned
    the document returns that dict.  When the parser rejects it, the unit
    whose fetch returned the document raises the exception of the parser,
    and no run of a batch that holds its URL writes an output. *)
Theorem extract_total : forall html,
  (forall soup, BeautifulSoup html = inr soup ->
     PyDict.keys (extract soup) = field_names /\
     List.length (extract soup) = 12 /\
     (forall key css, In (key, css) elements ->
        PyDict.get (extract soup) key = Some (field_value soup css)) /\
     ((forall css, In css (map snd elements) -> select soup css = []) ->
      forall key, In key field_names -> PyDict.get (extract soup) key = Some NA) /\
     (forall self i url,
        fetched i url = inr (Some html) ->
        snd (sequential i (scrape_data self url)) = inr (Some (extract soup)))) /\
  (forall e, BeautifulSoup html = inl e ->
     forall i url,
       fetched i url = inr (Some html) ->
       (forall self, snd (sequential i (scrape_data self url)) = inl e) /\
       (forall file d m schedule,
          nth_error (url_cells file) i = Some url ->
          output_file (main file d m schedule) = None)).
Proof.
  intro html. split.
  - intros soup Hsoup. split; [apply extract_keys|]. split; [|split; [|split]].
    + rewrite extract_map, length_map. reflexivity.
    + intros key css Hin. apply extract_get. exact Hin.
    + intros Hnone key Hkey.
      rewrite <- elements_keys in Hkey. unfold PyDict.keys in Hkey.
      apply in_map_iff in Hkey. destruct Hkey as [[k css] [E Hin]]. simpl in E. subst k.
      rewrite (extract_get soup key css Hin). unfold field_value.
      rewrite (Hnone css); [reflexivity|].
      apply in_map_iff. exists (key, css). split; [reflexivity | exact Hin].
    + intros self i url H. rewrite scrape_data_sequential. cbn [snd].
      exact (scraped_document _ _ _ _ H Hsoup).
  - intros e He i url Hf.
    assert (Hs : scraped i url = inl e).
    { unfold scraped, parsed. rewrite Hf, He. reflexivity. }
    split.
    + intro self. rewrite scrape_data_sequential. exact Hs.
    + intros file d m schedule Hu.
      exact (failure_never_saved file d m i url e Hu Hs schedule).
Qed.

Lemma url_not_a_field : ~ In (py "url") field_names.
Proof. unfold field_names, py. simpl. intuition discriminate. Qed.

Lemma records_columns : forall d rs sdf,
  DataFrame (Some d :: rs) = inr sdf ->
  (forall r, In r (Some d :: rs) -> r = None \/ exists soup, r = Some (extract soup)) ->
  labels sdf = map LStr field_names /\
  List.length (columns sdf) = 12.
Proof.
  intros d rs sdf HD Hshape. unfold DataFrame in HD.
  destruct (all_dicts (Some d :: rs)) as [ds|] eqn:Hall; [|discriminate].
  inversion HD; subst sdf. clear HD.
  pose proof (all_dicts_map _ _ Hall) as Hmap.
  destruct ds as [|d0 ds]; [discriminate|].
  assert (Hk : unique_keys (d0 :: ds) = field_names).
  { apply unique_keys_same; [exact field_names_distinct|].
    intros x Hx.
    destruct (Hshape (Some x)) as [E|[soup E]].
    - rewrite Hmap. apply in_map. exact Hx.
    - discriminate.
    - inversion E. apply extract_keys. }
  unfold labels. cbn [columns]. rewrite Hk, map_map, length_map. split; reflexivity.
Qed.

(** The results of a batch whose first unit returned a dict. *)
Lemma results_from_head : forall url rest dct,
  scraped 0 url = inr (Some dct) ->
  results_from 0 (url :: rest) = Some dct :: results_from 1 rest.
Proof.
  intros url rest dct H. cbn [results_from]. rewrite H. reflexivity.
Qed.

(** C8 (as amended).  The columns of the output.  For every run that saved
    its output and in which the fetch of the first URL returned a document:
    the columns are exactly [url] and the twelve field names, in this order,
    and every row has these thirteen cells and no index cell; when the rows
    of the input file carry the default index, there is one row per input
    URL, the first cell of which is that URL. *)
Theorem output_columns : forall file d m schedule f st url rest body,
  main file d m schedule = Saved f st ->
  url_cells file = url :: rest ->
  fetched 0 url = inr (Some body) ->
  header f = LStr (py "url") :: map LStr field_names /\
  Forall (fun row => List.length row = 13) (rows f) /\
  (default_index file = true ->
   List.length (rows f) = List.length (url_cells file) /\
   column f 0 = map cell_of_scalar (url_cells file)).
Proof.
  intros file d m schedule f st url rest body H Hurls Hfetch.
  destruct (saved_header _ _ _ _ _ _ H) as [sdf [HD [Hh Hw]]].
  assert (Hc : labels sdf = map LStr field_names /\ List.length (columns sdf) = 12).
  { assert (Hu : nth_error (url_cells file) 0 = Some url) by (rewrite Hurls; reflexivity).
    destruct (saved_document _ _ _ _ _ _ _ _ _ H Hu Hfetch) as [soup [_ Hs]].
    pose proof (results_from_shape (url_cells file) 0) as Hshape.
    rewrite Hurls in HD, Hshape. rewrite (results_from_head _ _ _ Hs) in HD, Hshape.
    exact (records_columns _ _ _ HD Hshape). }
  destruct Hc as [Hl Hn]. rewrite Hl in Hh. rewrite Hn in Hw.
  split; [exact Hh|]. split; [exact Hw|].
  intro Hdef.
  destruct (saved_table _ _ _ _ _ _ H Hdef) as [sdf' [_ [_ [_ [Hrows [_ [Hcol _]]]]]]].
  split; [exact Hrows | exact Hcol].
Qed.

(** C10 (as amended).  Batches without any document.  For every run that
    saved its output and in which every fetch timed out (an empty batch
    included): an empty batch gives a table with the single column [url] and
    no row; a batch that is not empty gives the column [url] and one more
    column, labelled with the integer 0, which (when the rows of the input
    file carry the default index) holds [None] in every row, one row per
    URL; in both cases none of the twelve field names is a column of the
    output. *)
Theorem no_field_columns : forall file d m schedule f st,
  main file d m schedule = Saved f st ->
  (forall i url, nth_error (url_cells file) i = Some url -> fetched i url = inr None) ->
  (url_cells file = [] -> header f = [LStr (py "url")] /\ rows f = []) /\
  (url_cells file <> [] ->
   header f = [LStr (py "url"); LInt 0] /\
   (default_index file = true ->
    List.length (rows f) = List.length (url_cells file) /\
    column f 0 = map cell_of_scalar (url_cells file) /\
    column f 1 = map (fun _ => CNone) (url_cells file))) /\
  (forall key, In key field_names -> ~ In (LStr key) (header f)).
Proof.
  intros file d m schedule f st H Hnone.
  destruct (saved_header _ _ _ _ _ _ H) as [sdf [HD [Hh _]]].
  rewrite (results_from_none (url_cells file) 0) in HD by exact Hnone.
  destruct (url_cells file) as [|u us] eqn:Hurls.
  - simpl in HD. inversion HD; subst sdf. simpl in Hh.
    split; [|split].
    + intros _. split; [exact Hh|].
      destruct (saved_table _ _ _ _ _ _ H (no_urls_default_index _ Hurls))
        as [sdf' [_ [_ [_ [Hrows _]]]]].
      rewrite Hurls in Hrows. destruct (rows f); [reflexivity | discriminate].
    + intro Hne. contradiction.
    + intros key Hkey Hin. rewrite Hh in Hin. simpl in Hin.
      destruct Hin as [E|[]]. inversion E; subst key. exact (url_not_a_field Hkey).
  - simpl in HD. inversion HD; subst sdf. clear HD.
    unfold labels in Hh. cbn [columns map fst] in Hh.
    split; [|split].
    + intro E. discriminate.
    + intros _. split; [exact Hh|]. intro Hdef.
      destruct (saved_table _ _ _ _ _ _ H Hdef) as [sdf [HD [_ [_ [Hrows [_ [Hcol Hcols]]]]]]].
      rewrite Hurls in *.
      rewrite (results_from_none (u :: us) 0) in HD by exact Hnone.
      simpl in HD. inversion HD; subst sdf. clear HD.
      split; [exact Hrows|]. split; [exact Hcol|].
      rewrite (Hcols 0 (LInt 0) (map cell_of_object (map (fun _ => None) (u :: us)))).
      * rewrite map_map. reflexivity.
      * reflexivity.
      * rewrite !length_map. reflexivity.
    + intros key Hkey Hin. rewrite Hh in Hin. simpl in Hin.
      destruct Hin as [E|[E|[]]]; [|discriminate].
      inversion E; subst key. exact (url_not_a_field Hkey).
Qed.

Lemma events_of_in : forall i ev l, In ev (events_of i l) -> In (i, ev) l.
Proof.
  intros i ev l H. unfold events_of in H. apply in_map_iff in H.
  destruct H as [[j ev'] [E Hin]]. simpl in E. subst ev'.
  apply filter_In in Hin. destruct Hin as [Hin Hj]. simpl in Hj.
  apply Nat.eqb_eq in Hj. subst j. exact Hin.
Qed.

Lemma printed_in : forall i line l, In (i, EvPrint line) l -> In line (printed l).
Proof.
  intros i line l H. unfold printed. apply in_flat_map.
  exists (i, EvPrint line). split; [exact H | simpl; left; reflexivity].
Qed.

Lemma window_timeout : forall d i url,
  fetched i url = inr None -> In (EvPrint (diagnostic url)) (window d i url).
Proof.
  intros d i url. unfold fetched, window, absorb.
  destruct (session_get i url) as [e|response].
  - destruct e; intro H; try discriminate. simpl. right. left. reflexivity.
  - destruct (response_text response) as [e|body].
    + destruct e; intro H; try discriminate. simpl. do 3 right. left. reflexivity.
    + discriminate.
Qed.

(** X1.  A timeout is absorbed.  When the fetch of a URL
    ends in a timeout (on the request or on the read), [get_html_content]
    returns [None] and does not raise; in a run, once the task of that URL
    has finished it has returned [None], and the line naming the URL is on
    the standard output. *)
Theorem timeout_absorbed : forall file d m st i t url,
  reachable file d m st ->
  nth_error (tasks st) i = Some t ->
  nth_error (url_cells file) i = Some url ->
  fetched i url = inr None ->
  finished t = true ->
  (forall self, snd (sequential i (get_html_content self url)) = inr None) /\
  code t = Ret None /\
  In (py "TimeoutError occurred while fetching " ++ format url) (stdout st).
Proof.
  intros file d m st i t url H Ht Hu Hf Hfin.
  apply reachable_invariant in H.
  destruct (inv_tasks _ _ _ _ H i t url Ht Hu) as [Hev Hres].
  split; [|split].
  - intro self. unfold get_html_content, async_with_semaphore.
    unfold fetched, absorb in Hf. simpl.
    destruct (session_get i url) as [e|response]; simpl.
    + destruct e; try discriminate; reflexivity.
    + destruct (response_text response) as [e|body]; simpl.
      * destruct e; try discriminate; reflexivity.
      * discriminate.
  - unfold scraped in Hres. rewrite Hf in Hres. unfold finished in Hfin.
    destruct (code t); try discriminate; simpl in Hres; inversion Hres; reflexivity.
  - rewrite (inv_stdout _ _ _ _ H). apply (printed_in i).
    apply events_of_in.
    assert (E : fst (sequential i (code t)) = []).
    { unfold finished in Hfin. destruct (code t); try discriminate; reflexivity. }
    rewrite E, app_nil_r in Hev. rewrite Hev.
    right. apply in_or_app. left. apply window_timeout. exact Hf.
Qed.

Lemma results_from_nth_none : forall us k j u,
  nth_error us j = Some u -> fetched (k + j) u = inr None ->
  nth_error (results_from k us) j = Some None.
Proof.
  induction us as [|x us IH]; intros k [|j] u Hu Hf; simpl in *; try discriminate.
  - inversion Hu; subst x. rewrite Nat.add_0_r in Hf.
    rewrite (scraped_timeout _ _ Hf). reflexivity.
  - rewrite <- Nat.add_succ_comm in Hf.
    destruct (scraped k x); apply (IH (S k) j u Hu Hf).
Qed.

Lemma all_dicts_none : forall rs, In None rs -> all_dicts rs = None.
Proof.
  induction rs as [|[d|] rs IH]; simpl; intro H.
  - contradiction.
  - destruct H as [H|H]; [discriminate|]. rewrite (IH H). reflexivity.
  - reflexivity.
Qed.

(** [pd.DataFrame] refuses a [None] after a leading dict. *)
Lemma mixed_results_refused : forall url rest dct j u,
  scraped 0 url = inr (Some dct) ->
  nth_error (url :: rest) j = Some u ->
  fetched j u = inr None ->
  DataFrame (results_from 0 (url :: rest)) = inl AttributeError.
Proof.
  intros url rest dct j u H0 Hj Hf.
  pose proof (results_from_nth_none (url :: rest) 0 j u Hj Hf) as Hn.
  apply nth_error_In in Hn. rewrite (results_from_head _ _ _ H0) in Hn |- *.
  unfold DataFrame. rewrite (all_dicts_none _ Hn). reflexivity.
Qed.

(** X2.  A timeout after a leading document.
    When the fetch of the first URL returns a document and the fetch of
    another URL times out, no schedule writes an output file; and with a
    [url] column and a permit to give, every schedule can be continued into
    one where [main] dies of an exception: one that escaped a unit, or that
    of [pd.DataFrame], which is handed a [None] among dicts. *)
Theorem timeout_after_document_never_saved : forall file d m url rest body j u,
  url_cells file = url :: rest ->
  fetched 0 url = inr (Some body) ->
  nth_error (url_cells file) j = Some u ->
  fetched j u = inr None ->
  (forall schedule, output_file (main file d m schedule) = None) /\
  ((0 < m)%Z -> has_url file = true ->
   forall schedule, exists more e net,
     main file d m (schedule ++ more) = Fatal e net /\
     ((exists k v, nth_error (url_cells file) k = Some v /\ scraped k v = inl e) \/
      DataFrame (results_from 0 (url_cells file)) = inl e)).
Proof.
  intros file d m url rest body j u Hurls H0 Hj Hf.
  assert (Hu0 : nth_error (url_cells file) 0 = Some url) by (rewrite Hurls; reflexivity).
  split.
  - intro schedule.
    destruct (main file d m schedule) as [e' net|st|f st] eqn:Hmain; try reflexivity.
    exfalso.
    destruct (saved_document _ _ _ _ _ _ _ _ _ Hmain Hu0 H0) as [soup [_ Hs]].
    destruct (saved_spec _ _ _ _ _ _ Hmain) as [_ [_ [_ [_ [sdf [joined [HD _]]]]]]].
    rewrite Hurls in HD, Hj.
    rewrite (mixed_results_refused _ _ _ _ _ Hs Hj Hf) in HD. discriminate.
  - intros Hm Hurl schedule.
    assert (Hm0 : (0 <= m)%Z) by lia.
    pose proof (invariant_run m d (url_cells file) schedule _
                  (invariant_start file d m Hm0)) as Hinv1.
    destruct (completes m d (url_cells file) _ _ (le_n _) Hinv1 Hm) as [more Hmore].
    pose proof (invariant_run m d (url_cells file) more _ Hinv1) as Hinv2.
    exists more. rewrite main_start by assumption. rewrite run_app.
    destruct (gather (run more (run schedule (start file d m)))) as [|e'|rs] eqn:Hg.
    + contradiction.
    + exists e', (log (run more (run schedule (start file d m)))).
      split; [reflexivity|]. left.
      exact (gather_failed _ _ _ _ _ Hinv2 Hg).
    + destruct (gather_done _ _ _ _ _ Hinv2 Hg) as [Hrs _]. subst rs.
      destruct (done_no_failure _ _ _ _ _ 0 url Hinv2 Hg Hu0) as [r Hr].
      assert (Hs : exists dct, scraped 0 url = inr (Some dct)).
      { unfold scraped, parsed in *. rewrite H0 in *.
        destruct (BeautifulSoup body); [discriminate|]. eexists. reflexivity. }
      destruct Hs as [dct Hs].
      assert (HD : DataFrame (results_from 0 (url_cells file)) = inl AttributeError).
      { rewrite Hurls in Hj |- *. exact (mixed_results_refused _ _ _ _ _ Hs Hj Hf). }
      unfold assemble. rewrite HD.
      exists AttributeError, (log (run more (run schedule (start file d m)))).
      split; [reflexivity|]. right. reflexivity.
Qed.

(** X3.  No deadlock.  With at least one permit, in every state a run can reach
    in which [gather] is still pending, some task can be resumed with
    effect, and doing so leaves one operation less to perform. *)
Theorem loop_never_stalls : forall file d m st,
  reachable file d m st -> (0 < m)%Z -> gather st = Pending ->
  exists i, S (remaining (step st i)) = remaining st.
Proof.
  intros file d m st H Hm Hg.
  apply (progress m d (url_cells file)); [apply reachable_invariant| |]; assumption.
Qed.

Lemma start_stuck : forall file d i,
  step (start file d 0) i = start file d 0.
Proof.
  intros file d i. unfold step.
  destruct (raised (tasks (start file d 0))); [reflexivity|].
  destruct (nth_error (tasks (start file d 0)) i) as [t|] eqn:Ht; [|reflexivity].
  cbn [start tasks] in Ht. rewrite nth_error_map in Ht.
  destruct (nth_error (url_cells file) i) as [url|]; [|discriminate].
  simpl in Ht. inversion Ht; subst t. reflexivity.
Qed.

Lemma start_raised : forall file d m, raised (tasks (start file d m)) = None.
Proof.
  intros file d m. unfold start. cbn [tasks].
  induction (url_cells file) as [|u us IH]; simpl; [reflexivity | exact IH].
Qed.

(** X4.  Without a permit nothing happens.  With [max_requests = 0] every task
    waits for a permit for ever: whatever the schedule the loop stays in
    its first state, and over a batch that is not empty [main] never gets
    past [gather]. *)
Theorem zero_permits_never_finish : forall file d schedule,
  has_url file = true ->
  url_cells file <> [] ->
  run schedule (start file d 0) = start file d 0 /\
  main file d 0 schedule = Running (start file d 0).
Proof.
  intros file d schedule Hu Hne.
  assert (Hrun : run schedule (start file d 0) = start file d 0).
  { unfold run. induction schedule as [|i rest IH]; simpl.
    - reflexivity.
    - rewrite start_stuck. exact IH. }
  split; [exact Hrun|].
  rewrite main_start by (try lia; exact Hu). rewrite Hrun.
  unfold gather. rewrite start_raised. unfold start. cbn [tasks].
  destruct (url_cells file) as [|u us]; [contradiction | reflexivity].
Qed.

(* ------------------------------------------------------------------ *)
(** ** Further properties of the run *)

(** X5.  The output does not depend on the schedule.  When one schedule
    saves an output file, every other schedule either is still waiting for
    [gather] or has saved that very file: no interleaving of the fetches
    makes [main] die, and none changes a cell. *)
Theorem output_independent_of_schedule : forall file d m s1 f1 st1,
  main file d m s1 = Saved f1 st1 ->
  forall s2,
    main file d m s2 = Running (run s2 (start file d m)) \/
    exists st2, main file d m s2 = Saved f1 st2.
Proof.
  intros file d m s1 f1 st1 H s2.
  destruct (saved_spec _ _ _ _ _ _ H) as [Hm [Hu [Hst [Hg [sdf [joined [HD [HC Hf]]]]]]]].
  pose proof (invariant_run m d (url_cells file) s1 _
                (invariant_start file d m Hm)) as Hinv1.
  rewrite <- Hst in Hinv1.
  pose proof (invariant_run m d (url_cells file) s2 _
                (invariant_start file d m Hm)) as Hinv2.
  rewrite main_start by assumption.
  destruct (gather (run s2 (start file d m))) as [|e|rs] eqn:Hg2.
  - left. reflexivity.
  - exfalso. destruct (gather_failed _ _ _ _ _ Hinv2 Hg2) as [i [url [Hi He]]].
    destruct (done_no_failure _ _ _ _ _ i url Hinv1 Hg Hi) as [r Hr]. congruence.
  - right. destruct (gather_done _ _ _ _ _ Hinv2 Hg2) as [Hrs _]. subst rs.
    unfold assemble. rewrite HD. rewrite run_df.
    cbn [start scraper loaded df]. rewrite HC. unfold save_results. cbn [df].
    exists (run s2 (start file d m)). rewrite Hf. reflexivity.
Qed.

Lemma collect_all_returned : forall ts rs t,
  collect ts = Some rs -> In t ts -> exists r, code t = Ret r.
Proof.
  intros ts rs t Hc Hin. apply In_nth_error in Hin. destruct Hin as [i Hi].
  exact (collect_nth _ _ _ _ Hc Hi).
Qed.

Lemma finished_not_holding : forall m d urls st t,
  invariant m d urls st -> In t (tasks st) -> finished t = true -> holding t = false.
Proof.
  intros m d urls st t Hinv Hin Hfin.
  pose proof (inv_phase _ _ _ _ Hinv) as Hph. rewrite Forall_forall in Hph.
  destruct (Hph t Hin) as [p [Hf Hh]]. rewrite Hh.
  unfold finished in Hfin.
  destruct (code t); try discriminate; inversion Hf; reflexivity.
Qed.

(** X7.  No permit is lost.  In every state a run can reach, a task that
    has finished, by returning or by raising, holds no permit; and when
    [gather] has returned, the semaphore is back at [max_requests]. *)
Theorem permits_returned : forall file d m st,
  reachable file d m st ->
  (forall t, In t (tasks st) -> finished t = true -> holding t = false) /\
  (forall rs, gather st = Done rs ->
              semaphore (scraper st) = m /\ in_flight st = 0%Z).
Proof.
  intros file d m st H. apply reachable_invariant in H. split.
  - intros t Hin Hfin. exact (finished_not_holding _ _ _ _ _ H Hin Hfin).
  - intros rs Hg. unfold gather in Hg.
    destruct (raised (tasks st)); [discriminate|].
    destruct (collect (tasks st)) as [rs'|] eqn:Hc; [|discriminate].
    assert (Hz : filter holding (tasks st) = []).
    { apply existsb_false_filter.
      destruct (existsb holding (tasks st)) eqn:E; [|reflexivity].
      apply existsb_exists in E. destruct E as [t [Hin Hh]].
      destruct (collect_all_returned _ _ _ Hc Hin) as [r Hr].
      rewrite (finished_not_holding _ _ _ _ _ H Hin) in Hh; [discriminate|].
      unfold finished. rewrite Hr. reflexivity. }
    pose proof (inv_permits _ _ _ _ H) as Hp.
    unfold in_flight in *. rewrite Hz in *. simpl in *. split; lia.
Qed.

Lemma advance_log_indices : forall st i t c h sem out ev,
  nth_error (tasks st) i = Some t ->
  (forall p, In p (log st) -> fst p < List.length (tasks st)) ->
  forall p, In p (log (advance st i c h sem out ev)) ->
            fst p < List.length (tasks (advance st i c h sem out ev)).
Proof.
  intros st i t c h sem out ev Hn H p Hp. unfold advance in *. cbn [log tasks] in *.
  rewrite replace_length. apply in_app_or in Hp. destruct Hp as [Hp|[Hp|[]]].
  - apply H. exact Hp.
  - subst p. simpl. apply nth_error_Some. congruence.
Qed.

Lemma step_log_indices : forall st i,
  (forall p, In p (log st) -> fst p < List.length (tasks st)) ->
  forall p, In p (log (step st i)) -> fst p < List.length (tasks (step st i)).
Proof.
  intros st i H. unfold step.
  destruct (raised (tasks st)); [exact H|].
  destruct (nth_error (tasks st) i) as [t|] eqn:Hn; [|exact H].
  destruct (code t); try exact H;
    try (apply (advance_log_indices st i t); assumption).
  destruct (0 <? semaphore (scraper st))%Z; [|exact H].
  apply (advance_log_indices st i t); assumption.
Qed.

Lemma run_log_indices : forall schedule st,
  (forall p, In p (log st) -> fst p < List.length (tasks st)) ->
  forall p, In p (log (run schedule st)) ->
            fst p < List.length (tasks (run schedule st)).
Proof.
  unfold run. induction schedule as [|i rest IH]; simpl; intros st H.
  - exact H.
  - apply IH. apply step_log_indices. exact H.
Qed.

Lemma reachable_log_indices : forall file d m st p,
  reachable file d m st -> In p (log st) -> fst p < List.length (url_cells file).
Proof.
  intros file d m st p H Hp.
  pose proof (reachable_invariant _ _ _ _ H) as Hinv.
  rewrite <- (inv_length _ _ _ _ Hinv).
  apply reachable_start in H. destruct H as [_ [_ [schedule E]]]. subst st.
  apply run_log_indices; [|exact Hp]. simpl. intros q [].
Qed.

Lemma events_of_intro : forall i ev l, In (i, ev) l -> In ev (events_of i l).
Proof.
  intros i ev l H. unfold events_of. apply in_map_iff. exists (i, ev).
  split; [reflexivity|]. apply filter_In. split; [exact H|]. simpl. apply Nat.eqb_refl.
Qed.

Lemma events_of_cons : forall i p l,
  events_of i (p :: l) = (if Nat.eqb (fst p) i then [snd p] else []) ++ events_of i l.
Proof.
  intros i p l. unfold events_of. simpl. destruct (Nat.eqb (fst p) i); reflexivity.
Qed.

Lemma window_requests : forall d i url,
  filter is_request (EvAcquire :: window d i url ++ [EvRelease])
  = [EvRequest url (is_ok (session_get i url))].
Proof.
  intros d i url. unfold window.
  destruct (session_get i url) as [e|response]; simpl.
  - destruct e; reflexivity.
  - destruct (response_text response) as [e|body]; [destruct e|]; reflexivity.
Qed.

Lemma task_requests : forall m d urls st i t url,
  invariant m d urls st ->
  nth_error (tasks st) i = Some t -> nth_error urls i = Some url ->
  filter is_request (events_of i (log st)) = [] \/
  filter is_request (events_of i (log st)) = [EvRequest url (is_ok (session_get i url))].
Proof.
  intros m d urls st i t url Hinv Ht Hu.
  destruct (inv_tasks _ _ _ _ Hinv i t url Ht Hu) as [Hev _].
  apply (f_equal (filter is_request)) in Hev.
  rewrite filter_app, window_requests in Hev.
  destruct (filter is_request (events_of i (log st))) as [|x l]; [left; reflexivity|].
  right. simpl in Hev. injection Hev as Hx Hl.
  apply app_eq_nil in Hl. destruct Hl as [Hl _]. subst x l. reflexivity.
Qed.

Lemma nodup_request_tasks : forall l,
  (forall i, List.length (filter is_request (events_of i l)) <= 1) ->
  NoDup (map fst (filter (fun p => is_request (snd p)) l)).
Proof.
  induction l as [|p l IH]; intro H; simpl.
  - constructor.
  - assert (Hl : forall i, List.length (filter is_request (events_of i l)) <= 1).
    { intro i. specialize (H i). rewrite events_of_cons, filter_app, length_app in H. lia. }
    destruct (is_request (snd p)) eqn:Hp; [|apply IH; exact Hl].
    simpl. constructor; [|apply IH; exact Hl].
    intro Hin. apply in_map_iff in Hin. destruct Hin as [q [Hq Hin]].
    apply filter_In in Hin. destruct Hin as [Hin Hreq].
    specialize (H (fst p)). rewrite events_of_cons, Nat.eqb_refl in H.
    simpl in H. rewrite Hp in H. simpl in H.
    assert (Hq' : In (snd q) (filter is_request (events_of (fst p) l))).
    { apply filter_In. split; [|exact Hreq]. apply events_of_intro.
      rewrite <- Hq. destruct q; exact Hin. }
    destruct (filter is_request (events_of (fst p) l)); [contradiction|].
    simpl in H. lia.
Qed.

(** X8.  One request per URL, and no other.  In every state a run can
    reach, the task at position [i] has issued no request yet or exactly
    one, for the URL at position [i] of the input; every request of the log
    is for the input URL of its task; and the log holds at most as many
    requests as there are input URLs: nothing is fetched twice, nothing is
    retried. *)
Theorem one_request_per_url : forall file d m st,
  reachable file d m st ->
  (forall i url, nth_error (url_cells file) i = Some url ->
     filter is_request (events_of i (log st)) = [] \/
     filter is_request (events_of i (log st))
     = [EvRequest url (is_ok (session_get i url))]) /\
  (forall i u ok, In (i, EvRequest u ok) (log st) ->
                  nth_error (url_cells file) i = Some u) /\
  requests (log st) <= List.length (url_cells file).
Proof.
  intros file d m st H.
  pose proof (reachable_invariant _ _ _ _ H) as Hinv.
  assert (P1 : forall i url, nth_error (url_cells file) i = Some url ->
     filter is_request (events_of i (log st)) = [] \/
     filter is_request (events_of i (log st))
     = [EvRequest url (is_ok (session_get i url))]).
  { intros i url Hu.
    destruct (nth_error_same_length _ _ (url_cells file) (tasks st) i url
                (eq_sym (inv_length _ _ _ _ Hinv)) Hu) as [t Ht].
    exact (task_requests _ _ _ _ _ _ _ Hinv Ht Hu). }
  split; [exact P1|]. split.
  - intros i u ok Hin.
    pose proof (reachable_log_indices _ _ _ _ _ H Hin) as Hlt. simpl in Hlt.
    destruct (nth_error (url_cells file) i) as [url|] eqn:Hu.
    2:{ apply nth_error_None in Hu. lia. }
    assert (Hf : In (EvRequest u ok) (filter is_request (events_of i (log st)))).
    { apply filter_In. split; [apply events_of_intro; exact Hin | reflexivity]. }
    destruct (P1 i url Hu) as [E|E]; rewrite E in Hf.
    + contradiction.
    + destruct Hf as [Hf|[]]. inversion Hf. reflexivity.
  - unfold requests. rewrite <- (length_map fst).
    rewrite <- (length_seq (List.length (url_cells file)) 0).
    apply NoDup_incl_length.
    + apply nodup_request_tasks. intro i.
      destruct (nth_error (url_cells file) i) as [url|] eqn:Hu.
      * destruct (P1 i url Hu) as [E|E]; rewrite E; simpl; lia.
      * assert (E : events_of i (log st) = []).
        { destruct (events_of i (log st)) as [|ev l] eqn:El; [reflexivity|].
          assert (Hin : In (i, ev) (log st))
            by (apply events_of_in; rewrite El; left; reflexivity).
          pose proof (reachable_log_indices _ _ _ _ _ H Hin) as Hlt. simpl in Hlt.
          apply nth_error_None in Hu. lia. }
        rewrite E. simpl. lia.
    + intros j Hj. apply in_map_iff in Hj. destruct Hj as [q [Hq Hin]].
      apply filter_In in Hin. destruct Hin as [Hin _].
      pose proof (reachable_log_indices _ _ _ _ _ H Hin) as Hlt.
      apply in_seq. subst j. lia.
Qed.

Lemma printed_inv : forall line l,
  In line (printed l) -> exists i, In (i, EvPrint line) l.
Proof.
  intros line l H. unfold printed in H. apply in_flat_map in H.
  destruct H as [[i ev] [Hin Hl]]. simpl in Hl.
  destruct ev; try contradiction. destruct Hl as [E|[]]. subst. exists i. exact Hin.
Qed.

Lemma window_print : forall d i url line,
  In (EvPrint line) (window d i url) ->
  line = diagnostic url /\ fetched i url = inr None.
Proof.
  intros d i url line. unfold window, fetched, absorb.
  destruct (session_get i url) as [e|response].
  - destruct e; simpl; intros [H|H]; try discriminate; try contradiction.
    destruct H as [H|[]]. inversion H. split; reflexivity.
  - destruct (response_text response) as [e|body].
    + destruct e; simpl; intros [H|[H|[H|H]]]; try discriminate; try contradiction.
      destruct H as [H|[]]. inversion H. split; reflexivity.
    + simpl. intros [H|[H|[H|[]]]]; discriminate.
Qed.

Lemma stdout_diagnostics : forall file d m st line,
  reachable file d m st -> In line (stdout st) ->
  exists i url, nth_error (url_cells file) i = Some url /\
                fetched i url = inr None /\ line = diagnostic url.
Proof.
  intros file d m st line H Hin.
  pose proof (reachable_invariant _ _ _ _ H) as Hinv.
  rewrite (inv_stdout _ _ _ _ Hinv) in Hin.
  apply printed_inv in Hin. destruct Hin as [i Hin].
  pose proof (reachable_log_indices _ _ _ _ _ H Hin) as Hlt. simpl in Hlt.
  destruct (nth_error (url_cells file) i) as [url|] eqn:Hu.
  2:{ apply nth_error_None in Hu. lia. }
  destruct (nth_error_same_length _ _ (url_cells file) (tasks st) i url
              (eq_sym (inv_length _ _ _ _ Hinv)) Hu) as [t Ht].
  destruct (inv_tasks _ _ _ _ Hinv i t url Ht Hu) as [Hev _].
  assert (Hw : In (EvPrint line) (EvAcquire :: window d i url ++ [EvRelease])).
  { rewrite <- Hev. apply in_or_app. left. apply events_of_intro. exact Hin. }
  destruct Hw as [Hw|Hw]; [discriminate|].
  apply in_app_or in Hw. destruct Hw as [Hw|[Hw|[]]]; [|discriminate].
  destruct (window_print _ _ _ _ Hw) as [E Hf].
  exists i, url. auto.
Qed.

(** X9.  The standard output of the tasks.  In every state a run can
    reach, every line the tasks have printed is the diagnostic of an input
    URL whose fetch timed out; a batch without any timeout prints nothing,
    whatever else fails. *)
Theorem stdout_only_timeouts : forall file d m st,
  reachable file d m st ->
  (forall line, In line (stdout st) ->
     exists i url, nth_error (url_cells file) i = Some url /\
                   fetched i url = inr None /\
                   line = py "TimeoutError occurred while fetching " ++ format url) /\
  ((forall i url, nth_error (url_cells file) i = Some url ->
                  fetched i url <> inr None) ->
   stdout st = []).
Proof.
  intros file d m st H. split.
  - intros line Hin. exact (stdout_diagnostics _ _ _ _ _ H Hin).
  - intro Hno. destruct (stdout st) as [|line l] eqn:E; [reflexivity|].
    destruct (stdout_diagnostics file d m st line H) as [i [url [Hu [Hf _]]]].
    + rewrite E. left. reflexivity.
    + exfalso. exact (Hno i url Hu Hf).
Qed.

Lemma advance_accounts : forall st i t c h sem out ev,
  nth_error (tasks st) i = Some t ->
  todo i t = S (todo i {| code := c; holding := h |}) ->
  List.length (log (advance st i c h sem out ev)) + remaining (advance st i c h sem out ev)
  = S (List.length (log st) + remaining (advance st i c h sem out ev))
  /\ S (remaining (advance st i c h sem out ev)) = remaining st.
Proof.
  intros st i t c h sem out ev Hn Ht. unfold advance, remaining. cbn [log tasks].
  pose proof (remaining_from_replace (tasks st) 0 i t {| code := c; holding := h |} Hn) as H.
  change (0 + i) with i in H. rewrite length_app. cbn [List.length].
  split; [lia|]. rewrite Ht in H. lia.
Qed.

Lemma step_accounts : forall st i,
  List.length (log (step st i)) + remaining (step st i)
  = List.length (log st) + remaining st.
Proof.
  intros st i. unfold step.
  destruct (raised (tasks st)); [reflexivity|].
  destruct (nth_error (tasks st) i) as [t|] eqn:Hn; [|reflexivity].
  destruct (code t) as [r|e|k|k|url k|sec k|resp k|line k] eqn:Hc; try reflexivity.
  - destruct (0 <? semaphore (scraper st))%Z; [|reflexivity].
    destruct (advance_accounts st i t k true (semaphore (scraper st) - 1)%Z [] EvAcquire Hn);
      [unfold todo; rewrite Hc; reflexivity | lia].
  - destruct (advance_accounts st i t k false (semaphore (scraper st) + 1)%Z [] EvRelease Hn);
      [unfold todo; rewrite Hc; reflexivity | lia].
  - destruct (advance_accounts st i t (k (session_get i url)) (holding t)
                (semaphore (scraper st)) []
                (EvRequest url (is_ok (session_get i url))) Hn);
      [unfold todo; rewrite Hc; reflexivity | lia].
  - destruct (advance_accounts st i t k (holding t) (semaphore (scraper st)) []
                (EvSleep sec) Hn);
      [unfold todo; rewrite Hc; reflexivity | lia].
  - destruct (advance_accounts st i t (k (response_text resp)) (holding t)
                (semaphore (scraper st)) []
                (EvRead (is_ok (response_text resp))) Hn);
      [unfold todo; rewrite Hc; reflexivity | lia].
  - destruct (advance_accounts st i t k (holding t) (semaphore (scraper st)) [line]
                (EvPrint line) Hn);
      [unfold todo; rewrite Hc; reflexivity | lia].
Qed.

Lemma run_accounts : forall schedule st,
  List.length (log (run schedule st)) + remaining (run schedule st)
  = List.length (log st) + remaining st.
Proof.
  unfold run. induction schedule as [|i rest IH]; simpl; intro st.
  - reflexivity.
  - rewrite IH. apply step_accounts.
Qed.

Lemma window_length : forall d i url, List.length (window d i url) <= 4.
Proof.
  intros d i url. unfold window.
  destruct (session_get i url) as [e|response].
  - destruct e; simpl; lia.
  - destruct (response_text response) as [e|body]; [destruct e|]; simpl; lia.
Qed.

Lemma start_remaining : forall file d m,
  remaining (start file d m) <= 6 * List.length (url_cells file).
Proof.
  intros file d m. unfold remaining, start. cbn [tasks].
  assert (H : forall us b,
             remaining_from b
               (map (fun url => {| code := scrape_data (loaded file d m) url;
                                   holding := false |}) us)
             <= 6 * List.length us).
  { induction us as [|u us IH]; intro b.
    - simpl. lia.
    - cbn [map remaining_from]. specialize (IH (S b)).
      unfold todo at 1. cbn [code]. rewrite scrape_data_sequential. cbn [fst].
      pose proof (window_length (delay (loaded file d m)) b u) as Hw.
      cbn [List.length]. rewrite length_app. cbn [List.length]. lia. }
  apply H.
Qed.

(** X17.  A run is short.  Every operation a task performs is logged once
    and leaves one operation less to perform; a task performs at most six
    (acquire, request, sleep, read, print, release), so the log of a run
    over N URLs never holds more than 6 N events. *)
Theorem operations_bounded : forall file d m st,
  reachable file d m st ->
  List.length (log st) + remaining st = remaining (start file d m) /\
  List.length (log st) <= 6 * List.length (url_cells file).
Proof.
  intros file d m st H. apply reachable_start in H.
  destruct H as [_ [_ [schedule E]]]. subst st.
  pose proof (run_accounts schedule (start file d m)) as Ha.
  pose proof (start_remaining file d m) as Hs.
  cbn [start log List.length] in Ha. simpl in Ha. split; [exact Ha | lia].
Qed.

Lemma raised_replace : forall ts i t,
  raised ts = None -> (forall e, code t <> Raise e) -> raised (replace i t ts) = None.
Proof.
  induction ts as [|h ts IH]; intros [|i] t Hr Ht; simpl in *; try reflexivity.
  - destruct (code h) eqn:Eh; try discriminate;
      destruct (code t) eqn:Et; try exact Hr; exfalso; exact (Ht _ eq_refl).
  - destruct (code h) eqn:Eh; try discriminate; apply IH; assumption.
Qed.

Lemma step_acquires : forall st i self url,
  raised (tasks st) = None ->
  nth_error (tasks st) i = Some {| code := scrape_data self url; holding := false |} ->
  (0 < semaphore (scraper st))%Z ->
  in_flight (step st i) = (in_flight st + 1)%Z /\
  semaphore (scraper (step st i)) = (semaphore (scraper st) - 1)%Z /\
  raised (tasks (step st i)) = None /\
  (forall j, i <> j -> nth_error (tasks (step st i)) j = nth_error (tasks st) j).
Proof.
  intros st i self url Hr Hn Hs. unfold step. rewrite Hr, Hn. cbn [code].
  unfold scrape_data, get_html_content, async_with_semaphore. cbn [bind].
  apply Z.ltb_lt in Hs. rewrite Hs. unfold advance, in_flight. cbn [tasks scraper semaphore with_semaphore].
  split; [|split; [reflexivity|split]].
  - match goal with
    | |- context [replace i ?t' (tasks st)] =>
        pose proof (filter_length_replace _ holding i t' _ (tasks st) Hn) as H
    end.
    cbn [b2n holding] in H. lia.
  - apply raised_replace; [exact Hr|]. intro e. simpl. discriminate.
  - intros j Hj. apply nth_error_replace_other. exact Hj.
Qed.

Lemma start_in_flight : forall file d m, in_flight (start file d m) = 0%Z.
Proof.
  intros file d m. unfold in_flight, start. cbn [tasks].
  replace (filter holding _) with (@nil task); [reflexivity|].
  symmetry. apply existsb_false_filter.
  induction (url_cells file) as [|u us IH]; [reflexivity | exact IH].
Qed.

(** X16.  The bound is reached.  The tasks are started together: when the
    first [k] tasks are resumed once each, with [k] at most the number of
    URLs and at most [max_requests], all [k] of them are in flight.  The
    semaphore lets as many fetches run at once as it has permits. *)
Theorem bound_is_reached : forall file d m k,
  has_url file = true ->
  k <= List.length (url_cells file) ->
  (Z.of_nat k <= m)%Z ->
  reachable file d m (run (seq 0 k) (start file d m)) /\
  in_flight (run (seq 0 k) (start file d m)) = Z.of_nat k.
Proof.
  intros file d m k Hu Hk Hm. split.
  { apply start_reachable; [lia | exact Hu]. }
  assert (Q : in_flight (run (seq 0 k) (start file d m)) = Z.of_nat k /\
              semaphore (scraper (run (seq 0 k) (start file d m))) = (m - Z.of_nat k)%Z /\
              raised (tasks (run (seq 0 k) (start file d m))) = None /\
              forall j, k <= j ->
                nth_error (tasks (run (seq 0 k) (start file d m))) j
                = nth_error (tasks (start file d m)) j).
  { induction k as [|k IH].
    - change (run (seq 0 0) (start file d m)) with (start file d m).
      split; [|split; [|split]].
      + apply start_in_flight.
      + cbn [start scraper loaded semaphore]. lia.
      + apply start_raised.
      + reflexivity.
    - destruct IH as [Hin [Hsem [Hr Hrest]]]; [lia | lia |].
      rewrite seq_S, run_app. cbn [Nat.add].
      change (run [k] (run (seq 0 k) (start file d m)))
        with (step (run (seq 0 k) (start file d m)) k).
      assert (Hn : exists url,
                 nth_error (tasks (run (seq 0 k) (start file d m))) k
                 = Some {| code := scrape_data (loaded file d m) url; holding := false |}).
      { rewrite (Hrest k (le_n k)). cbn [start tasks]. rewrite nth_error_map.
        destruct (nth_error (url_cells file) k) as [url|] eqn:E.
        - exists url. reflexivity.
        - apply nth_error_None in E. lia. }
      destruct Hn as [url Hn].
      destruct (step_acquires _ k _ url Hr Hn) as [H1 [H2 [H3 H4]]]; [lia|].
      split; [|split; [|split]].
      + rewrite H1, Hin. lia.
      + rewrite H2, Hsem. lia.
      + exact H3.
      + intros j Hj. rewrite H4 by lia. apply Hrest. lia. }
  exact (proj1 Q).
Qed.

Lemma nth_error_from_seq : forall n s i, i < n -> nth_error (seq s n) i = Some (s + i).
Proof.
  induction n as [|n IH]; intros s [|i] H; simpl; try lia.
  - rewrite Nat.add_0_r. reflexivity.
  - rewrite IH by lia. f_equal. lia.
Qed.

Lemma results_from_length : forall us k,
  List.length (results_from k us) = List.length us.
Proof.
  induction us as [|u us IH]; intro k; simpl.
  - reflexivity.
  - destruct (scraped k u); simpl; rewrite IH; reflexivity.
Qed.

Lemma results_from_nth : forall us k j u,
  nth_error us j = Some u ->
  nth_error (results_from k us) j
  = Some (match scraped (k + j) u with inr r => r | inl _ => None end).
Proof.
  induction us as [|x us IH]; intros k [|j] u Hu; simpl in *; try discriminate.
  - inversion Hu; subst x. rewrite Nat.add_0_r. destruct (scraped k u); reflexivity.
  - rewrite <- Nat.add_succ_comm. destruct (scraped k x); apply (IH (S k) j u Hu).
Qed.

(** Row [i] of a saved output, read off the two frames [scrape_all] joins
    when the rows of the file carry the default index. *)
Lemma saved_row : forall file d m schedule f st i,
  main file d m schedule = Saved f st ->
  default_index file = true ->
  i < List.length (url_cells file) ->
  exists scraped_df,
    DataFrame (results_from 0 (url_cells file)) = inr scraped_df /\
    nth_error (rows f) i
    = Some (nth i (map cell_of_scalar (url_cells file)) CNaN
            :: map (fun c => nth i (snd c) CNaN) (columns scraped_df)).
Proof.
  intros file d m schedule f st i H Hdef Hi.
  destruct (saved_joined _ _ _ _ _ _ H Hdef) as [sdf [HD [_ Hf]]].
  exists sdf. split; [exact HD|].
  subst f. unfold to_csv, nrows. cbn [rows index columns].
  rewrite RangeIndex_length.
  rewrite nth_error_map, (nth_error_from_seq _ 0 i Hi).
  cbn [option_map Nat.add]. unfold row_at. cbn [map snd]. reflexivity.
Qed.

Lemma get_own_keys : forall (V : Type) (dct : PyDict.dict V),
  NoDup (PyDict.keys dct) ->
  map (fun k => PyDict.get dct k) (PyDict.keys dct) = map (fun kv => Some (snd kv)) dct.
Proof.
  intros V. induction dct as [|[k v] dct IH]; simpl; intro H.
  - reflexivity.
  - inversion H as [|? ? Hk Hnd]; subst. rewrite eqb_refl. f_equal.
    rewrite <- IH by exact Hnd. apply map_ext_in. intros k' Hk'.
    destruct (PyStr.eqb k k') eqn:E; [|reflexivity].
    apply eqb_eq in E. subst k'. contradiction.
Qed.

Lemma records_frame : forall dct rs sdf,
  DataFrame (Some dct :: rs) = inr sdf ->
  (forall r, In r (Some dct :: rs) -> r = None \/ exists soup, r = Some (extract soup)) ->
  exists ds,
    Some dct :: rs = map Some ds /\
    columns sdf
    = map (fun k => (LStr k,
                     map (fun x => match PyDict.get x k with
                                   | Some v => cell_of_value v
                                   | None => CNaN
                                   end) ds))
          field_names.
Proof.
  intros dct rs sdf HD Hshape. unfold DataFrame in HD.
  destruct (all_dicts (Some dct :: rs)) as [ds|] eqn:Hall; [|discriminate].
  inversion HD; subst sdf. clear HD.
  pose proof (all_dicts_map _ _ Hall) as Hmap.
  exists ds. split; [exact Hmap|].
  destruct ds as [|d0 ds]; [discriminate|].
  cbn [columns]. f_equal.
  apply unique_keys_same; [exact field_names_distinct|].
  intros x Hx. destruct (Hshape (Some x)) as [E|[soup E]].
  - rewrite Hmap. apply in_map. exact Hx.
  - discriminate.
  - inversion E. apply extract_keys.
Qed.

(** The cells of a dict of fields, in the order of the fields. *)
Lemma extract_cells : forall soup,
  map (fun k => match PyDict.get (extract soup) k with
                | Some v => cell_of_value v
                | None => CNaN
                end) field_names
  = map (fun kv => cell_of_value (snd kv)) (extract soup).
Proof.
  intro soup. rewrite <- (extract_keys soup) at 1.
  rewrite <- (map_map (fun k => PyDict.get (extract soup) k)
                      (fun o => match o with
                                | Some v => cell_of_value v
                                | None => CNaN
                                end)).
  rewrite get_own_keys by (rewrite extract_keys; exact field_names_distinct).
  rewrite map_map. reflexivity.
Qed.

(** X6.  Every row holds the fields of its own document.  For every run
    that saved its output, over a file whose rows carry the default index,
    and in which the fetch of the first URL returned a document: when the
    fetch of the URL at position [i] returned a document, the parser
    accepted it and row [i] of the output is that URL followed by the twelve
    values [extract] gives for that document, in the order of the fields. *)
Theorem rows_hold_own_fields : forall file d m schedule f st url0 body0 i url body,
  main file d m schedule = Saved f st ->
  default_index file = true ->
  nth_error (url_cells file) 0 = Some url0 ->
  fetched 0 url0 = inr (Some body0) ->
  nth_error (url_cells file) i = Some url ->
  fetched i url = inr (Some body) ->
  exists soup,
    BeautifulSoup body = inr soup /\
    nth_error (rows f) i
    = Some (cell_of_scalar url :: map (fun kv => cell_of_value (snd kv)) (extract soup)).
Proof.
  intros file d m schedule f st url0 body0 i url body H Hdef H0 Hf0 Hi Hfi.
  assert (Hlt : i < List.length (url_cells file))
    by (apply nth_error_Some; congruence).
  destruct (saved_document _ _ _ _ _ _ _ _ _ H H0 Hf0) as [soup0 [_ Hs0]].
  destruct (saved_document _ _ _ _ _ _ _ _ _ H Hi Hfi) as [soup [Hsoup Hsi]].
  exists soup. split; [exact Hsoup|].
  destruct (saved_row _ _ _ _ _ _ i H Hdef Hlt) as [sdf [HD Hrow]].
  rewrite Hrow. rewrite (nth_map_some _ _ cell_of_scalar _ _ _ CNaN Hi). do 2 f_equal.
  pose proof (results_from_nth (url_cells file) 0 i url Hi) as Hri.
  cbn [Nat.add] in Hri. rewrite Hsi in Hri.
  assert (Hshape : forall r, In r (results_from 0 (url_cells file)) ->
                             r = None \/ exists b, r = Some (extract b))
    by (intros r Hr; exact (results_from_shape _ _ _ Hr)).
  assert (Hhead : exists tl,
             results_from 0 (url_cells file) = Some (extract soup0) :: tl).
  { destruct (url_cells file) as [|u us]; [discriminate|].
    simpl in H0. inversion H0; subst u.
    rewrite (results_from_head _ _ _ Hs0). eexists. reflexivity. }
  destruct Hhead as [tl Hrs]. unfold result in *. rewrite Hrs in HD, Hri, Hshape.
  destruct (records_frame _ _ _ HD Hshape) as [ds [Hmap Hcols]].
  rewrite Hmap in Hri.
  rewrite nth_error_map in Hri.
  destruct (nth_error ds i) as [x|] eqn:Hx; [|discriminate].
  simpl in Hri. inversion Hri; subst x.
  rewrite Hcols, map_map. cbn [snd].
  rewrite <- extract_cells.
  apply map_ext. intro k.
  exact (nth_map_some _ _ (fun x => match PyDict.get x k with
                                    | Some v => cell_of_value v
                                    | None => CNaN
                                    end) _ _ _ CNaN Hx).
Qed.

(** X11.  A timeout at the head of the batch.  For every run that saved
    its output and in which the fetch of the first URL timed out, the
    output has the two columns [url] and [0]; when the rows of the file
    carry the default index, the row of a URL whose fetch timed out holds
    [None] in the second, and the row of a URL whose fetch returned a
    document holds the whole dict of its fields in that one cell. *)
Theorem timeout_first_keeps_dicts_whole : forall file d m schedule f st url0 i url,
  main file d m schedule = Saved f st ->
  nth_error (url_cells file) 0 = Some url0 ->
  fetched 0 url0 = inr None ->
  nth_error (url_cells file) i = Some url ->
  header f = [LStr (py "url"); LInt 0] /\
  (default_index file = true ->
   (fetched i url = inr None ->
    nth_error (rows f) i = Some [cell_of_scalar url; CNone]) /\
   (forall body, fetched i url = inr (Some body) ->
    exists soup,
      BeautifulSoup body = inr soup /\
      nth_error (rows f) i = Some [cell_of_scalar url; CDict (extract soup)])).
Proof.
  intros file d m schedule f st url0 i url H H0 Hf0 Hi.
  assert (Hlt : i < List.length (url_cells file))
    by (apply nth_error_Some; congruence).
  assert (Hhead : exists tl, results_from 0 (url_cells file) = None :: tl).
  { destruct (url_cells file) as [|u us]; [discriminate|].
    simpl in H0. inversion H0; subst u. cbn [results_from].
    rewrite (scraped_timeout _ _ Hf0). eexists. reflexivity. }
  destruct Hhead as [tl Hrs].
  assert (Hsdf : forall sdf,
            DataFrame (results_from 0 (url_cells file)) = inr sdf ->
            columns sdf = [(LInt 0, map cell_of_object
                                        (results_from 0 (url_cells file)))]).
  { intros sdf HD. unfold result in *. rewrite Hrs in HD |- *.
    simpl in HD. inversion HD. reflexivity. }
  split.
  - destruct (saved_header _ _ _ _ _ _ H) as [sdf [HD [Hh _]]].
    rewrite Hh. unfold labels. rewrite (Hsdf _ HD). reflexivity.
  - intro Hdef.
    destruct (saved_row _ _ _ _ _ _ i H Hdef Hlt) as [sdf [HD Hrow]].
    rewrite (Hsdf _ HD) in Hrow. cbn [map snd] in Hrow.
    rewrite (nth_map_some _ _ cell_of_scalar _ _ _ CNaN Hi) in Hrow.
    pose proof (results_from_nth (url_cells file) 0 i url Hi) as Hri.
    cbn [Nat.add] in Hri.
    rewrite (nth_map_some _ _ cell_of_object _ _ _ CNaN Hri) in Hrow.
    split.
    + intro Hf. rewrite (scraped_timeout _ _ Hf) in Hrow. exact Hrow.
    + intros body Hf.
      destruct (saved_document _ _ _ _ _ _ _ _ _ H Hi Hf) as [soup [Hsoup Hs]].
      exists soup. split; [exact Hsoup|]. rewrite Hs in Hrow. exact Hrow.
Qed.

Lemma strip_blank : forall s, forallb isspace s = true -> strip s = [].
Proof.
  intros s H. apply trimmed_strip. exists s, []. split; [|split; [|split]].
  - rewrite app_nil_r. reflexivity.
  - exact H.
  - reflexivity.
  - split; intros c Hc; discriminate.
Qed.

(** X14.  A single match.  When the selector of a field matches exactly
    one element of the parsed document, the field is the text of that
    element with no whitespace left at either end; when the element holds
    nothing but whitespace the field is the empty string, which is a text
    and not [pd.NA]. *)
Theorem single_match_is_trimmed : forall soup key css e,
  In (key, css) elements ->
  select soup css = [e] ->
  PyDict.get (extract soup) key = Some (Text (strip (text e))) /\
  no_space_at_ends (strip (text e)) /\
  (forallb isspace (text e) = true ->
   PyDict.get (extract soup) key = Some (Text [])).
Proof.
  intros soup key css e Hin Hsel.
  assert (Hget : PyDict.get (extract soup) key = Some (Text (strip (text e)))).
  { rewrite (extract_get soup key css Hin). unfold field_value. rewrite Hsel. reflexivity. }
  split; [exact Hget|]. split.
  - destruct (strip_trimmed (text e)) as [l [r [_ [_ [_ Hends]]]]]. exact Hends.
  - intro Hb. rewrite Hget, (strip_blank _ Hb). reflexivity.
Qed.

(** X15.  The joined text is not trimmed again.  When the selector of a
    field matches several elements of the parsed document and the first of
    them holds nothing but whitespace, the field starts with the separating
    space, followed by the joined texts of the other elements. *)
Theorem blank_first_match_leaves_space : forall soup key css e1 e2 es,
  In (key, css) elements ->
  select soup css = e1 :: e2 :: es ->
  forallb isspace (text e1) = true ->
  PyDict.get (extract soup) key
  = Some (Text (32%N :: join (py " ") (map (fun e => strip (text e)) (e2 :: es)))).
Proof.
  intros soup key css e1 e2 es Hin Hsel Hb.
  rewrite (extract_get soup key css Hin). unfold field_value. rewrite Hsel.
  cbn [map join]. rewrite (strip_blank _ Hb). reflexivity.
Qed.

(* ------------------------------------------------------------------ *)
(** ** The standard output of [main] *)

Lemma digits_inj : forall a b, digits a = digits b -> a = b.
Proof.
  induction a as [|a IH|a IH|a IH|a IH|a IH|a IH|a IH|a IH|a IH|a IH];
    intros [|b|b|b|b|b|b|b|b|b|b] H; simpl in H;
    try reflexivity; try discriminate;
    injection H as H; f_equal; apply IH; exact H.
Qed.

Lemma str_of_nat_inj : forall a b, str_of_nat a = str_of_nat b -> a = b.
Proof.
  intros a b H. apply DecimalNat.Unsigned.to_uint_inj. apply digits_inj. exact H.
Qed.

Lemma firstn_from_seq : forall n s len, firstn n (seq s len) = seq s (Nat.min n len).
Proof.
  induction n as [|n IH]; intros s [|len]; simpl; try reflexivity.
  f_equal. apply IH.
Qed.

(** The first [n] rows of a frame are written as the first [n] rows of its
    table. *)
Lemma to_csv_head : forall n df,
  to_csv (head n df) false
  = {| header := header (to_csv df false);
       rows := firstn n (rows (to_csv df false)) |}.
Proof.
  intros n df. unfold to_csv, head, nrows. cbn [header rows index columns]. f_equal.
  - rewrite map_map. reflexivity.
  - rewrite length_firstn, firstn_map, firstn_from_seq. apply map_ext_in. intros i Hi.
    apply in_seq in Hi. unfold row_at. rewrite map_map. apply map_ext. intro c.
    cbn [snd]. rewrite nth_firstn.
    replace (i <? n) with true; [reflexivity|].
    symmetry. apply Nat.ltb_lt. lia.
Qed.

Lemma main_stdout_start : forall file d m schedule path formatted_time,
  (0 <= m)%Z -> has_url file = true ->
  main_stdout file d m schedule path formatted_time =
  map Line (stdout (run schedule (start file d m))) ++
  match gather (run schedule (start file d m)) with
  | Pending => []
  | Failed _ => []
  | Done results =>
      match assemble (scraper (run schedule (start file d m))) results with
      | inl _ => []
      | inr scraper2 =>
          match save_results scraper2 with
          | inl _ => []
          | inr _ =>
              Line (saved_line path) ::
              match print_results scraper2 formatted_time with
              | inl _ => []
              | inr (out, _) => out
              end
          end
      end
  end.
Proof.
  intros file d m schedule path formatted_time Hm H. unfold main_stdout, Scraper_init.
  apply Z.ltb_ge in Hm. rewrite Hm.
  unfold load_data. rewrite (read_url_column_ok _ H).
  cbn [delay semaphore].
  change {| df := Some (url_frame file); delay := d; semaphore := m |}
    with (loaded file d m).
  rewrite spawn_loaded. reflexivity.
Qed.

(** X12.  What [main] reports.  When a run has saved its output, the
    standard output of [main] is the diagnostics of the tasks, then the line
    of [save_results] naming the file, then the report of [print_results]:
    the number of articles it gives is the number of rows of the saved
    table, written in decimal, which is the number of input URLs (whether
    or not their fetches brought a document) when the rows of the input file
    carry the default index; and the preview is the first five rows of the
    saved table under the same header. *)
Theorem report_counts_every_url : forall file d m schedule f st path formatted_time,
  main file d m schedule = Saved f st ->
  exists preview,
    main_stdout file d m schedule path formatted_time
    = map Line (stdout st) ++
      [ Line (py "Results saved to " ++ path);
        Line (py "It took " ++ formatted_time ++ py " to find "
              ++ str_of_nat (List.length (rows f)) ++ py " articles");
        Framed (py "Preview of scraped data:" ++ [10%N]) preview ] /\
    to_csv preview false = {| header := header f; rows := firstn 5 (rows f) |} /\
    (default_index file = true ->
     List.length (rows f) = List.length (url_cells file)) /\
    (forall n, str_of_nat n = str_of_nat (List.length (rows f)) ->
               n = List.length (rows f)).
Proof.
  intros file d m schedule f st path formatted_time H.
  destruct (saved_spec _ _ _ _ _ _ H) as [Hm [Hu [Hst [Hg [sdf [joined [HD [HC Hf]]]]]]]].
  exists (head 5 joined).
  split; [|split; [|split]].
  - rewrite main_stdout_start by assumption. rewrite <- Hst, Hg.
    unfold assemble. rewrite HD. rewrite Hst, run_df.
    cbn [start scraper loaded df]. rewrite HC.
    unfold save_results, print_results. cbn [df].
    rewrite Hf, to_csv_rows_length. reflexivity.
  - rewrite to_csv_head, <- Hf. reflexivity.
  - intro Hdef.
    destruct (saved_table _ _ _ _ _ _ H Hdef) as [sdf' [_ [_ [_ [Hrows _]]]]].
    exact Hrows.
  - intros n E. exact (str_of_nat_inj _ _ E).
Qed.

(** X13.  No report without a file.  When a run has not saved an output
    (it is still waiting, or [main] died), the standard output of [main]
    holds nothing but diagnostics of timeouts: the line "Results saved to
    ..." is printed only after the file is written. *)
Theorem no_report_without_file : forall file d m schedule path formatted_time,
  output_file (main file d m schedule) = None ->
  (forall it, In it (main_stdout file d m schedule path formatted_time) ->
     exists url, it = Line (py "TimeoutError occurred while fetching " ++ url)) /\
  ~ In (Line (py "Results saved to " ++ path))
       (main_stdout file d m schedule path formatted_time).
Proof.
  intros file d m schedule path formatted_time H.
  assert (P : forall it, In it (main_stdout file d m schedule path formatted_time) ->
     exists url, it = Line (py "TimeoutError occurred while fetching " ++ url)).
  { destruct (Z.ltb_spec m 0) as [Hm|Hm].
    { unfold main_stdout, Scraper_init. apply Z.ltb_lt in Hm. rewrite Hm.
      intros it []. }
    destruct (has_url file) eqn:Hu.
    2:{ unfold main_stdout, Scraper_init. apply Z.ltb_ge in Hm. rewrite Hm.
        unfold load_data. rewrite (read_url_column_error _ Hu).
        intros it []. }
    rewrite main_stdout_start by assumption. rewrite main_start in H by assumption.
    assert (Q : forall it, In it (map Line (stdout (run schedule (start file d m)))) ->
       exists url, it = Line (py "TimeoutError occurred while fetching " ++ url)).
    { intros it Hit. apply in_map_iff in Hit. destruct Hit as [line [E Hin]]. subst it.
      destruct (stdout_diagnostics file d m _ line
                  (start_reachable file d m schedule Hm Hu) Hin)
        as [i [url [_ [_ E]]]].
      exists (format url). rewrite E. reflexivity. }
    destruct (gather (run schedule (start file d m))) as [|e|rs].
    - rewrite app_nil_r. exact Q.
    - rewrite app_nil_r. exact Q.
    - destruct (assemble (scraper (run schedule (start file d m))) rs) as [e|s2].
      + rewrite app_nil_r. exact Q.
      + destruct (save_results s2) as [e|f'].
        * rewrite app_nil_r. exact Q.
        * simpl in H. discriminate. }
  split; [exact P|].
  intro Hin. destruct (P _ Hin) as [url E]. inversion E.
Qed.

(* ------------------------------------------------------------------ *)
(** ** Input files with row names *)

Lemma mem_In : forall x l, mem x l = true <-> In x l.
Proof.
  intros x l. unfold mem. rewrite existsb_exists. split.
  - intros [y [Hy E]]. apply label_eqb_eq in E. subst y. exact Hy.
  - intro H. exists x. split; [exact H | apply label_eqb_refl].
Qed.

Lemma mem_absent : forall x l, mem x l = false <-> ~ In x l.
Proof.
  intros x l. rewrite <- mem_In. destruct (mem x l); split; intro H.
  - discriminate.
  - exfalso. apply H. reflexivity.
  - intro E. discriminate.
  - reflexivity.
Qed.

Lemma is_unique_NoDup : forall l, is_unique l = true <-> NoDup l.
Proof.
  induction l as [|x l IH]; simpl; split; intro H.
  - constructor.
  - reflexivity.
  - apply andb_true_iff in H. destruct H as [H1 H2]. apply negb_true_iff in H1.
    constructor; [apply mem_absent; exact H1 | apply IH; exact H2].
  - inversion H as [|? ? Hx Hl]; subst. apply andb_true_iff. split.
    + apply negb_true_iff. apply mem_absent. exact Hx.
    + apply IH. exact Hl.
Qed.

Lemma position_absent : forall x l, mem x l = false -> position x l = None.
Proof.
  intros x. induction l as [|y l IH]; simpl; intro H.
  - reflexivity.
  - apply orb_false_iff in H. destruct H as [H1 H2].
    assert (E : label_eqb y x = false).
    { destruct (label_eqb y x) eqn:E; [|reflexivity].
      apply label_eqb_eq in E. subst y. rewrite label_eqb_refl in H1. discriminate. }
    rewrite E, (IH H2). reflexivity.
Qed.

Lemma position_unique : forall l i x,
  is_unique l = true -> nth_error l i = Some x -> position x l = Some i.
Proof.
  induction l as [|y l IH]; intros [|i] x Hu Hn; simpl in *; try discriminate.
  - inversion Hn; subst y. rewrite label_eqb_refl. reflexivity.
  - apply andb_true_iff in Hu. destruct Hu as [H1 H2]. apply negb_true_iff in H1.
    destruct (label_eqb y x) eqn:E.
    + apply label_eqb_eq in E. subst y.
      apply mem_absent in H1. exfalso. apply H1. eapply nth_error_In. exact Hn.
    + rewrite (IH i x H2 Hn). reflexivity.
Qed.

Lemma RangeIndex_NoDup : forall n, NoDup (RangeIndex n).
Proof.
  intro n. unfold RangeIndex. generalize 0 as s.
  induction n as [|n IH]; intro s; simpl; constructor.
  - intro H. apply in_map_iff in H. destruct H as [y [E Hy]].
    inversion E. apply in_seq in Hy. lia.
  - apply IH.
Qed.

Lemma RangeIndex_nth : forall n i, i < n -> nth_error (RangeIndex n) i = Some (LInt (Z.of_nat i)).
Proof.
  intros n i H. unfold RangeIndex. rewrite nth_error_map, (nth_error_from_seq _ 0 i H).
  reflexivity.
Qed.

Lemma text_not_in_range : forall x n, text_label x = true -> mem x (RangeIndex n) = false.
Proof.
  intros x n H. apply mem_absent. intro Hin. unfold RangeIndex in Hin.
  apply in_map_iff in Hin. destruct Hin as [i [E _]]. subst x. discriminate.
Qed.

Lemma int_not_in_texts : forall n l, forallb text_label l = true -> mem (LInt n) l = false.
Proof.
  intros n l H. apply mem_absent. intro Hin.
  rewrite forallb_forall in H. specialize (H _ Hin). discriminate.
Qed.

(** The union of row names and of a default index: the names, then the
    numbers. *)
Lemma union_names_range : forall names n,
  names <> [] -> List.length names = n -> forallb text_label names = true ->
  union names (RangeIndex n) = names ++ RangeIndex n.
Proof.
  intros names n Hne Hlen Htext.
  destruct names as [|x names]; [contradiction|].
  destruct n as [|n]; [discriminate|].
  unfold union.
  assert (E : equals (x :: names) (RangeIndex (S n)) = false).
  { simpl in Htext. apply andb_true_iff in Htext. destruct Htext as [Hx _].
    destruct x; [reflexivity | discriminate]. }
  rewrite E.
  assert (Hu : is_unique (RangeIndex (S n)) = true)
    by (apply is_unique_NoDup; apply RangeIndex_NoDup).
  assert (Hf : filter (fun y => negb (mem y (x :: names))) (RangeIndex (S n))
               = RangeIndex (S n)).
  { apply forallb_filter_id.
    apply forallb_forall. intros y Hy. apply negb_true_iff.
    unfold RangeIndex in Hy. apply in_map_iff in Hy. destruct Hy as [i [Ei _]]. subst y.
    apply int_not_in_texts. exact Htext. }
  destruct (RangeIndex (S n)) as [|y r] eqn:Hr.
  - apply (f_equal (@List.length label)) in Hr.
    rewrite RangeIndex_length in Hr. discriminate.
  - rewrite Hu, Hf. reflexivity.
Qed.

Lemma app_not_equal : forall a b, b <> [] -> equals (a ++ b) a = false.
Proof.
  intros a b Hb. destruct (equals (a ++ b) a) eqn:E; [|reflexivity].
  apply equals_eq in E. rewrite <- (app_nil_r a) in E at 2.
  apply app_inv_head in E. contradiction.
Qed.

Lemma app_not_equal_right : forall a b, a <> [] -> equals (a ++ b) b = false.
Proof.
  intros a b Ha. destruct (equals (a ++ b) b) eqn:E; [|reflexivity].
  apply equals_eq in E. apply (f_equal (@List.length label)) in E.
  rewrite length_app in E. destruct a; [contradiction | simpl in E; lia].
Qed.

(** X10.  Row names misalign the output.  Take an input file whose data
    lines start with a row name (a text) before the URL, as R writes them:
    [pd.read_csv] takes the names as the row index.  A run that saves its
    output over such a file has met distinct names, and writes two rows per
    URL: first one row per URL with nan in every field, then one row per
    result with nan under [url]. *)
Theorem row_names_double_the_rows : forall file d m schedule f st,
  main file d m schedule = Saved f st ->
  url_cells file <> [] ->
  forallb text_label (row_labels file) = true ->
  is_unique (row_labels file) = true /\
  List.length (rows f) = 2 * List.length (url_cells file) /\
  exists scraped_df,
    DataFrame (results_from 0 (url_cells file)) = inr scraped_df /\
    forall i url, nth_error (url_cells file) i = Some url ->
      nth_error (rows f) i
      = Some (cell_of_scalar url :: map (fun _ => CNaN) (columns scraped_df)) /\
      nth_error (rows f) (List.length (url_cells file) + i)
      = Some (CNaN :: map (fun c => nth i (snd c) CNaN) (columns scraped_df)).
Proof.
  intros file d m schedule f st H Hne Htext.
  destruct (saved_spec _ _ _ _ _ _ H) as [Hm [_ [Hst [Hg [sdf [joined [HD [HC Hf]]]]]]]].
  pose proof (results_from_length (url_cells file) 0) as Hlen.
  pose proof (row_labels_length file) as Hlab.
  pose proof (DataFrame_index _ _ HD) as Hidx. unfold result in *. rewrite Hlen in Hidx.
  set (n := List.length (url_cells file)) in *.
  assert (Hn : n <> 0).
  { unfold n. destruct (url_cells file); [contradiction | discriminate]. }
  assert (Hnames : row_labels file <> []).
  { intro E. rewrite E in Hlab. simpl in Hlab. lia. }
  assert (Hrange : RangeIndex n <> []).
  { intro E. apply (f_equal (@List.length label)) in E.
    rewrite RangeIndex_length in E. simpl in E. lia. }
  unfold concat_axis1 in HC. cbn [index url_frame] in HC. rewrite Hidx in HC.
  rewrite (union_names_range _ n Hnames Hlab Htext) in HC.
  unfold reindex in HC. cbn [index url_frame columns] in HC. rewrite Hidx in HC.
  rewrite (app_not_equal _ _ Hrange), (app_not_equal_right _ _ Hnames) in HC.
  destruct (is_unique (row_labels file)) eqn:Hu; [|discriminate].
  replace (is_unique (RangeIndex n)) with true in HC
    by (symmetry; apply is_unique_NoDup; apply RangeIndex_NoDup).
  inversion HC; subst joined. clear HC.
  split; [reflexivity|].
  assert (Hrows : forall i, i < 2 * n ->
            nth_error (rows f) i
            = Some (row_at
                      (map (fun c =>
                              (fst c,
                               map (fun x => match position x (row_labels file) with
                                             | Some p => nth p (snd c) CNaN
                                             | None => CNaN
                                             end) (row_labels file ++ RangeIndex n)))
                           [(LStr (py "url"), map cell_of_scalar (url_cells file))]
                       ++ map (fun c =>
                                 (fst c,
                                  map (fun x => match position x (RangeIndex n) with
                                                | Some p => nth p (snd c) CNaN
                                                | None => CNaN
                                                end) (row_labels file ++ RangeIndex n)))
                              (columns sdf)) i)).
  { intros i Hi. subst f. unfold to_csv, nrows. cbn [rows index columns].
    rewrite length_app, RangeIndex_length, Hlab. fold n.
    rewrite nth_error_map, (nth_error_from_seq _ 0 i) by lia. reflexivity. }
  split.
  { subst f. unfold to_csv, nrows. cbn [rows index].
    rewrite length_map, length_seq, length_app, RangeIndex_length, Hlab. fold n. lia. }
  exists sdf. split; [exact HD|].
  intros i url Hi.
  assert (Hlt : i < n) by (apply nth_error_Some; congruence).
  destruct (nth_error (row_labels file) i) as [name|] eqn:Hname.
  2:{ apply nth_error_None in Hname. lia. }
  assert (Hnt : text_label name = true).
  { rewrite forallb_forall in Htext. apply Htext. eapply nth_error_In. exact Hname. }
  split.
  - rewrite Hrows by lia. unfold row_at. cbn [map app fst snd]. rewrite map_map. cbn [snd].
    assert (Hx : nth_error (row_labels file ++ RangeIndex n) i = Some name).
    { rewrite nth_error_app1 by lia. exact Hname. }
    do 2 f_equal.
    + rewrite (nth_map_some _ _ _ _ _ _ CNaN Hx).
      rewrite (position_unique _ _ _ Hu Hname).
      apply (nth_map_some _ _ cell_of_scalar _ _ _ CNaN Hi).
    + apply map_ext. intro c.
      rewrite (nth_map_some _ _ _ _ _ _ CNaN Hx).
      rewrite (position_absent _ _ (text_not_in_range _ n Hnt)). reflexivity.
  - rewrite Hrows by lia. unfold row_at. cbn [map app fst snd]. rewrite map_map. cbn [snd].
    assert (Hx : nth_error (row_labels file ++ RangeIndex n) (n + i)
                 = Some (LInt (Z.of_nat i))).
    { rewrite nth_error_app2 by lia. rewrite Hlab. fold n.
      replace (n + i - n) with i by lia. apply RangeIndex_nth. exact Hlt. }
    do 2 f_equal.
    + rewrite (nth_map_some _ _ _ _ _ _ CNaN Hx).
      rewrite (position_absent _ _ (int_not_in_texts _ _ Htext)). reflexivity.
    + apply map_ext. intro c.
      rewrite (nth_map_some _ _ _ _ _ _ CNaN Hx).
      rewrite (position_unique _ i _ (proj2 (is_unique_NoDup _) (RangeIndex_NoDup n))
                 (RangeIndex_nth n i Hlt)).
      reflexivity.
Qed.

(** X18.  Repeated row labels.  When the rows of the input file carry a
    label twice (a row name met twice, or a number), [pd.concat] cannot
    align them on the results: no schedule writes an output file. *)
Theorem repeated_labels_never_saved : forall file d m,
  is_unique (row_labels file) = false ->
  forall schedule, output_file (main file d m schedule) = None.
Proof.
  intros file d m Hdup schedule.
  destruct (main file d m schedule) as [e' net|st|f st] eqn:Hmain; try reflexivity.
  exfalso.
  destruct (saved_spec _ _ _ _ _ _ Hmain) as [_ [_ [_ [_ [sdf [joined [HD [HC _]]]]]]]].
  pose proof (results_from_length (url_cells file) 0) as Hlen.
  pose proof (row_labels_length file) as Hlab.
  pose proof (DataFrame_index _ _ HD) as Hidx. unfold result in *. rewrite Hlen in Hidx.
  set (n := List.length (url_cells file)) in *.
  assert (Hnot : ~ NoDup (row_labels file)).
  { intro Hnd. apply is_unique_NoDup in Hnd. congruence. }
  unfold concat_axis1 in HC. cbn [index url_frame] in HC. rewrite Hidx in HC.
  unfold reindex at 1 in HC. cbn [index url_frame] in HC. rewrite Hdup in HC.
  destruct (equals (union (row_labels file) (RangeIndex n)) (row_labels file)) eqn:E;
    [|discriminate].
  apply equals_eq in E. apply Hnot. unfold union in E.
  destruct (equals (row_labels file) (RangeIndex n)) eqn:E0.
  { apply equals_eq in E0. rewrite E0. apply RangeIndex_NoDup. }
  destruct (row_labels file) as [|x names] eqn:Hnames; [constructor|].
  destruct (RangeIndex n) as [|y range] eqn:Hrange.
  { apply (f_equal (@List.length label)) in Hrange.
    rewrite RangeIndex_length in Hrange. simpl in Hrange, Hlab. lia. }
  replace (is_unique (y :: range)) with true in E
    by (symmetry; apply is_unique_NoDup; rewrite <- Hrange; apply RangeIndex_NoDup).
  assert (E' : (x :: names) ++ filter (fun z => negb (mem z (x :: names))) (y :: range)
               = (x :: names) ++ []) by (rewrite app_nil_r; exact E).
  apply app_inv_head in E'. clear E.
  apply NoDup_incl_NoDup with (l := y :: range).
  - rewrite <- Hrange. apply RangeIndex_NoDup.
  - apply (f_equal (@List.length label)) in Hrange.
    rewrite RangeIndex_length in Hrange. rewrite <- Hrange, Hlab. apply le_n.
  - intros z Hz. apply mem_In.
    destruct (mem z (x :: names)) eqn:Hzm; [reflexivity|].
    assert (Hin : In z (filter (fun z => negb (mem z (x :: names))) (y :: range))).
    { apply filter_In. split; [exact Hz|]. rewrite Hzm. reflexivity. }
    rewrite E' in Hin. contradiction.
Qed.

End Scraper.

(* ------------------------------------------------------------------ *)
(** ** The claims on concrete batches

    The definitions above, run on the test double. *)

Abbreviation fx_main :=
  (main Fixture.Soup Fixture.Tag Fixture.BeautifulSoup Fixture.select Fixture.text
        Fixture.Response Fixture.session_get Fixture.response_text).
Abbreviation fx_start :=
  (start Fixture.Soup Fixture.Tag Fixture.BeautifulSoup Fixture.select Fixture.text
         Fixture.Response).
Abbreviation fx_run := (run Fixture.Response Fixture.session_get Fixture.response_text).
Abbreviation fx_extract := (extract Fixture.Soup Fixture.Tag Fixture.select Fixture.text).
Abbreviation fx_fetched := (fetched Fixture.Response Fixture.session_get Fixture.response_text).
Abbreviation fx_window := (window Fixture.Response Fixture.session_get Fixture.response_text).
Abbreviation fx_saved := (Saved Fixture.Response).
Abbreviation fx_fatal := (Fatal Fixture.Response).
Abbreviation fx_sequential :=
  (sequential Fixture.Response Fixture.session_get Fixture.response_text).
Abbreviation fx_scrape_data :=
  (scrape_data Fixture.Soup Fixture.Tag Fixture.BeautifulSoup Fixture.select Fixture.text
               Fixture.Response).
Abbreviation fx_failure := (failure Fixture.Response).
Abbreviation fx_output := (output_file Fixture.Response).

Lemma rows_follow_urls_witness :
  (forall schedule, exists more f st,
      fx_main Fixture.two_pages 0 1 (schedule ++ more) = fx_saved f st) /\
  (forall schedule f st,
      fx_main Fixture.two_pages 0 1 schedule = fx_saved f st ->
      List.length (rows f) = 2 /\
      nth_error (header f) 0 = Some (LStr (py "url")) /\
      column f 0 = [cell_of_scalar Fixture.url_a; cell_of_scalar Fixture.url_b] /\
      forall i url, nth_error [Fixture.url_a; Fixture.url_b] i = Some url ->
                    cell_at f i 0 = cell_of_scalar url).
Proof.
  apply (rows_follow_urls Fixture.Soup Fixture.Tag Fixture.BeautifulSoup
           Fixture.select Fixture.text Fixture.Response Fixture.session_get
           Fixture.response_text Fixture.two_pages 0 1).
  - lia.
  - reflexivity.
  - reflexivity.
  - intros [|[|i]] url H; simpl in H; inversion H; subst;
      [eexists; vm_compute; reflexivity | eexists; vm_compute; reflexivity
       | destruct i; discriminate].
  - vm_compute. reflexivity.
Defined.

(** Against C1 as stated: a batch of two URLs, the second on a host that
    resets the connection.  One task after the other, [main] dies of the
    failure with nothing written, and no schedule writes a row. *)
Lemma reset_leaves_no_row :
  fx_failure (fx_main Fixture.page_then_reset 1 5 Fixture.one_by_one)
  = Some ClientError /\
  (forall schedule, fx_output (fx_main Fixture.page_then_reset 1 5 schedule) = None).
Proof.
  split.
  - vm_compute. reflexivity.
  - apply (failure_never_saved Fixture.Soup Fixture.Tag Fixture.BeautifulSoup
             Fixture.select Fixture.text Fixture.Response Fixture.session_get
             Fixture.response_text Fixture.page_then_reset 1 5 1 Fixture.url_down
             ClientError); vm_compute; reflexivity.
Qed.

(** Two URLs and one permit: task 0 has sent its request and holds the
    permit while task 1 waits for it. *)
Lemma in_flight_bounded_witness :
  fetches Fixture.Response (fx_run Fixture.head_start (fx_start Fixture.two_pages 1 1))
  = 1%Z /\
  open_responses Fixture.Response
    (fx_run Fixture.head_start (fx_start Fixture.two_pages 1 1)) = 1%Z /\
  (0 <= in_flight Fixture.Response
          (fx_run Fixture.head_start (fx_start Fixture.two_pages 1 1)) <= 1)%Z /\
  (semaphore (scraper Fixture.Response
                (fx_run Fixture.head_start (fx_start Fixture.two_pages 1 1)))
   + in_flight Fixture.Response
       (fx_run Fixture.head_start (fx_start Fixture.two_pages 1 1)) = 1)%Z /\
  (forall i t,
     nth_error (tasks Fixture.Response
                  (fx_run Fixture.head_start (fx_start Fixture.two_pages 1 1))) i
     = Some t ->
     (fetching Fixture.Response t = true -> holding Fixture.Response t = true) /\
     (response_open (log Fixture.Response
                       (fx_run Fixture.head_start (fx_start Fixture.two_pages 1 1))) i
      = true -> holding Fixture.Response t = true)) /\
  (fetches Fixture.Response (fx_run Fixture.head_start (fx_start Fixture.two_pages 1 1))
   <= in_flight Fixture.Response
        (fx_run Fixture.head_start (fx_start Fixture.two_pages 1 1)) <= 1)%Z /\
  (open_responses Fixture.Response
     (fx_run Fixture.head_start (fx_start Fixture.two_pages 1 1))
   <= in_flight Fixture.Response
        (fx_run Fixture.head_start (fx_start Fixture.two_pages 1 1)) <= 1)%Z.
Proof.
  split; [vm_compute; reflexivity|]. split; [vm_compute; reflexivity|].
  apply (in_flight_bounded Fixture.Soup Fixture.Tag Fixture.BeautifulSoup
           Fixture.select Fixture.text Fixture.Response Fixture.session_get
           Fixture.response_text Fixture.two_pages 1 1).
  apply start_reachable; [lia | reflexivity].
Defined.

Lemma permit_window_witness :
  exists rest,
    events_of 0 (log Fixture.Response
                   (fx_run Fixture.first_task (fx_start Fixture.two_pages 1 1))) ++ rest
    = EvAcquire :: fx_window 1 0 Fixture.url_a ++ [EvRelease] /\
    (finished Fixture.Response
       {| code := Ret Fixture.Response result (Some (fx_extract Fixture.page_a));
          holding := false |} = true -> rest = []) /\
    (In EvRelease
        (events_of 0 (log Fixture.Response
                        (fx_run Fixture.first_task (fx_start Fixture.two_pages 1 1)))) ->
     rest = []) /\
    (is_ok (Fixture.session_get 0 Fixture.url_a) = true ->
     In (EvSleep 1) (fx_window 1 0 Fixture.url_a)).
Proof.
  apply (permit_window Fixture.Soup Fixture.Tag Fixture.BeautifulSoup
           Fixture.select Fixture.text Fixture.Response Fixture.session_get
           Fixture.response_text Fixture.two_pages 1 1).
  - apply start_reachable; [lia | reflexivity].
  - vm_compute. reflexivity.
  - reflexivity.
Defined.

Lemma transport_failure_aborts_witness :
  ClientError <> TimeoutError /\
  (forall self, snd (fx_sequential 1 (fx_scrape_data self Fixture.url_down))
                = inl ClientError) /\
  (forall schedule, fx_output (fx_main Fixture.page_then_reset 1 5 schedule) = None) /\
  ((0 < 5)%Z -> has_url Fixture.page_then_reset = true ->
   forall schedule, exists more e' net,
     fx_main Fixture.page_then_reset 1 5 (schedule ++ more) = fx_fatal e' net /\
     exists j u, nth_error (url_cells Fixture.page_then_reset) j = Some u /\
       (fx_fetched j u = inl e' \/
        exists body, fx_fetched j u = inr (Some body) /\
                     Fixture.BeautifulSoup body = inl e')).
Proof.
  apply (transport_failure_aborts Fixture.Soup Fixture.Tag Fixture.BeautifulSoup
           Fixture.select Fixture.text Fixture.Response Fixture.session_get
           Fixture.response_text Fixture.page_then_reset 1 5 1 Fixture.url_down
           ClientError); vm_compute; reflexivity.
Defined.

Lemma missing_url_column_witness :
  exists e,
    fx_main Fixture.no_url_column 1 5 Fixture.one_by_one = fx_fatal e [] /\
    fx_output (fx_main Fixture.no_url_column 1 5 Fixture.one_by_one) = None /\
    network Fixture.Response (fx_main Fixture.no_url_column 1 5 Fixture.one_by_one) = [] /\
    ((0 <= 5)%Z -> read_error Fixture.no_url_column = None -> e = KeyError) /\
    ((0 <= 5)%Z -> forall e', read_error Fixture.no_url_column = Some e' -> e = e').
Proof.
  apply (missing_url_column Fixture.Soup Fixture.Tag Fixture.BeautifulSoup
           Fixture.select Fixture.text Fixture.Response Fixture.session_get
           Fixture.response_text Fixture.no_url_column 1 5 Fixture.one_by_one).
  reflexivity.
Defined.

(** A file of zero bytes has no [url] column either: [main] dies of the
    [EmptyDataError] of [pd.read_csv]. *)
Lemma zero_bytes_fatal :
  fx_main Fixture.zero_bytes 1 5 Fixture.one_by_one = fx_fatal EmptyDataError [].
Proof. vm_compute. reflexivity. Qed.

(** A blank cell under [url]: the task of that row hands [nan] to
    [session.get]. *)
Lemma blank_cell_is_requested :
  url_cells Fixture.blank_url = [Fixture.url_a; SNaN] /\
  events_of 1 (log Fixture.Response
                 (fx_run Fixture.last_first (fx_start Fixture.blank_url 1 5)))
  = [EvAcquire; EvRequest SNaN false; EvRelease].
Proof. vm_compute. split; reflexivity. Qed.


(** Against C6 as stated: a document the parser rejects.  The unit that
    fetched it raises, and the batch that holds its URL dies with nothing
    written. *)
Lemma rejected_document_raises :
  Fixture.BeautifulSoup Fixture.page_odd = inl ParserRejectedMarkup /\
  snd (fx_sequential 0 (fx_scrape_data {| df := None; delay := 1; semaphore := 5 |}
                          Fixture.url_odd))
  = inl ParserRejectedMarkup /\
  fx_main Fixture.page_then_odd 1 5 Fixture.one_by_one
  = fx_fatal ParserRejectedMarkup
      (log Fixture.Response
         (fx_run Fixture.one_by_one (fx_start Fixture.page_then_odd 1 5))) /\
  fx_output (fx_main Fixture.page_then_odd 1 5 Fixture.one_by_one) = None.
Proof. vm_compute. repeat split. Qed.

Lemma output_columns_witness :
  exists f st,
    fx_main Fixture.two_pages 0 2 Fixture.turn_by_turn = fx_saved f st /\
    default_index Fixture.two_pages = true /\
    header f = LStr (py "url") :: map LStr field_names /\
    Forall (fun row => List.length row = 13) (rows f) /\
    (default_index Fixture.two_pages = true ->
     List.length (rows f) = List.length (url_cells Fixture.two_pages) /\
     column f 0 = map cell_of_scalar (url_cells Fixture.two_pages)).
Proof.
  eexists. eexists. split; [lazy; reflexivity|]. split; [reflexivity|].
  eapply (output_columns Fixture.Soup Fixture.Tag Fixture.BeautifulSoup
            Fixture.select Fixture.text Fixture.Response Fixture.session_get
            Fixture.response_text Fixture.two_pages 0 2 Fixture.turn_by_turn
            _ _ Fixture.url_a [Fixture.url_b] Fixture.page_a);
    vm_compute; reflexivity.
Defined.

(** Against C8 as stated: the run over an empty batch completes, and its
    output has the single column [url]. *)
Lemma empty_batch_has_one_column :
  fx_output (fx_main Fixture.no_urls 1 5 [])
  = Some {| header := [LStr (py "url")]; rows := [] |}.
Proof. vm_compute. reflexivity. Qed.

Lemma no_field_columns_witness :
  exists f st,
    fx_main Fixture.only_timeout 1 5 Fixture.four_turns = fx_saved f st /\
    default_index Fixture.only_timeout = true /\
    (url_cells Fixture.only_timeout = [] ->
     header f = [LStr (py "url")] /\ rows f = []) /\
    (url_cells Fixture.only_timeout <> [] ->
     header f = [LStr (py "url"); LInt 0] /\
     (default_index Fixture.only_timeout = true ->
      List.length (rows f) = List.length (url_cells Fixture.only_timeout) /\
      column f 0 = map cell_of_scalar (url_cells Fixture.only_timeout) /\
      column f 1 = map (fun _ => CNone) (url_cells Fixture.only_timeout))) /\
    (forall key, In key field_names -> ~ In (LStr key) (header f)).
Proof.
  eexists. eexists. split; [lazy; reflexivity|]. split; [reflexivity|].
  eapply (no_field_columns Fixture.Soup Fixture.Tag Fixture.BeautifulSoup
            Fixture.select Fixture.text Fixture.Response Fixture.session_get
            Fixture.response_text Fixture.only_timeout 1 5 Fixture.four_turns).
  - vm_compute. reflexivity.
  - intros [|i] url H; simpl in H; [|destruct i; discriminate].
    inversion H; subst. vm_compute. reflexivity.
Defined.

(** Against C10 as stated: when the only fetch of the batch times out, the
    output has two columns, [url] and [0]. *)
Lemma timeouts_leave_a_column :
  fx_output (fx_main Fixture.only_timeout 1 5 Fixture.four_turns)
  = Some {| header := [LStr (py "url"); LInt 0];
            rows := [[cell_of_scalar Fixture.url_slow; CNone]] |}.
Proof. vm_compute. reflexivity. Qed.

(** C3, on the code.  A batch of two URLs in which exactly one fetch times
    out.  When the timeout is the second URL's, [pd.DataFrame] raises
    [AttributeError] and nothing is written; when it is the first URL's, the
    output has the columns [url] and [0], the cell of the other row holding
    its whole dict. *)
Lemma timeout_breaks_assembly :
  fx_failure (fx_main Fixture.page_then_timeout 1 5 Fixture.one_by_one)
  = Some AttributeError /\
  fx_output (fx_main Fixture.page_then_timeout 1 5 Fixture.one_by_one) = None /\
  fx_output (fx_main Fixture.timeout_then_page 1 5 Fixture.one_by_one)
  = Some {| header := [LStr (py "url"); LInt 0];
            rows := [[cell_of_scalar Fixture.url_slow; CNone];
                     [cell_of_scalar Fixture.url_a; CDict (fx_extract Fixture.page_a)]] |}.
Proof. vm_compute. repeat split. Qed.

Lemma timeout_absorbed_witness :
  (forall self,
      snd (fx_sequential 0 (get_html_content Fixture.Response self Fixture.url_slow))
      = inr None) /\
  code Fixture.Response {| code := Ret Fixture.Response result None; holding := false |}
  = Ret Fixture.Response result None /\
  In (py "TimeoutError occurred while fetching " ++ format Fixture.url_slow)
     (stdout Fixture.Response
        (fx_run Fixture.four_turns (fx_start Fixture.timeout_then_page 1 5))).
Proof.
  apply (timeout_absorbed Fixture.Soup Fixture.Tag Fixture.BeautifulSoup
           Fixture.select Fixture.text Fixture.Response Fixture.session_get
           Fixture.response_text Fixture.timeout_then_page 1 5).
  - apply start_reachable; [lia | reflexivity].
  - vm_compute. reflexivity.
  - reflexivity.
  - vm_compute. reflexivity.
  - reflexivity.
Defined.

Lemma timeout_after_document_never_saved_witness :
  (forall schedule, fx_output (fx_main Fixture.page_then_timeout 1 5 schedule) = None) /\
  ((0 < 5)%Z -> has_url Fixture.page_then_timeout = true ->
   forall schedule, exists more e net,
     fx_main Fixture.page_then_timeout 1 5 (schedule ++ more) = fx_fatal e net /\
     ((exists k v, nth_error (url_cells Fixture.page_then_timeout) k = Some v /\
                   scraped Fixture.Soup Fixture.Tag Fixture.BeautifulSoup
                     Fixture.select Fixture.text Fixture.Response Fixture.session_get
                     Fixture.response_text k v = inl e) \/
      DataFrame (results_from Fixture.Soup Fixture.Tag Fixture.BeautifulSoup
                   Fixture.select Fixture.text Fixture.Response Fixture.session_get
                   Fixture.response_text 0 (url_cells Fixture.page_then_timeout))
      = inl e)).
Proof.
  apply (timeout_after_document_never_saved Fixture.Soup Fixture.Tag
           Fixture.BeautifulSoup Fixture.select Fixture.text Fixture.Response
           Fixture.session_get Fixture.response_text Fixture.page_then_timeout 1 5
           Fixture.url_a [Fixture.url_slow] Fixture.page_a 1 Fixture.url_slow);
    vm_compute; reflexivity.
Defined.

Lemma loop_never_stalls_witness :
  exists i,
    S (remaining Fixture.Response Fixture.session_get Fixture.response_text
         (step Fixture.Response Fixture.session_get Fixture.response_text
            (fx_run Fixture.head_start (fx_start Fixture.two_pages 1 1)) i))
    = remaining Fixture.Response Fixture.session_get Fixture.response_text
        (fx_run Fixture.head_start (fx_start Fixture.two_pages 1 1)).
Proof.
  apply (loop_never_stalls Fixture.Soup Fixture.Tag Fixture.BeautifulSoup
           Fixture.select Fixture.text Fixture.Response Fixture.session_get
           Fixture.response_text Fixture.two_pages 1 1).
  - apply start_reachable; [lia | reflexivity].
  - lia.
  - vm_compute. reflexivity.
Defined.

Lemma zero_permits_never_finish_witness :
  fx_run Fixture.turn_by_turn (fx_start Fixture.two_pages 1 0)
  = fx_start Fixture.two_pages 1 0 /\
  fx_main Fixture.two_pages 1 0 Fixture.turn_by_turn
  = Running Fixture.Response (fx_start Fixture.two_pages 1 0).
Proof.
  apply (zero_permits_never_finish Fixture.Soup Fixture.Tag Fixture.BeautifulSoup
           Fixture.select Fixture.text Fixture.Response Fixture.session_get
           Fixture.response_text Fixture.two_pages 1 Fixture.turn_by_turn).
  - reflexivity.
  - discriminate.
Defined.

(** The two pages fetched in three different orders give the same file. *)
Lemma completion_order_does_not_matter :
  fx_output (fx_main Fixture.two_pages 0 2 Fixture.last_first)
  = fx_output (fx_main Fixture.two_pages 0 2 Fixture.one_by_one) /\
  fx_output (fx_main Fixture.two_pages 0 2 Fixture.turn_by_turn)
  = fx_output (fx_main Fixture.two_pages 0 2 Fixture.one_by_one) /\
  fx_output (fx_main Fixture.two_pages 0 2 Fixture.one_by_one)
  = Some {| header := LStr (py "url") :: map LStr field_names;
            rows := [ cell_of_scalar Fixture.url_a :: map Pandas.cell_of_value
                                              (map snd (fx_extract Fixture.page_a));
                      cell_of_scalar Fixture.url_b :: map Pandas.cell_of_value
                                              (map snd (fx_extract Fixture.page_b)) ] |}.
Proof. vm_compute. repeat split. Qed.

(** An empty page: twelve keys, twelve [pd.NA]. *)
Lemma empty_page_all_absent :
  PyDict.keys (fx_extract Fixture.page_empty) = field_names /\
  map snd (fx_extract Fixture.page_empty) = repeat NA 12.
Proof. vm_compute. split; reflexivity. Qed.

(** A host that answers and then stalls: the request, the sleep, the failed
    read and the diagnostic all lie between the acquisition and the release
    of the permit. *)
Lemma stalled_read_inside_window :
  fst (fx_sequential 0 (fx_scrape_data
                          {| df := None; delay := 3; semaphore := 1 |}
                          (SStr (py "https://stall"))))
  = [ EvAcquire;
      EvRequest (SStr (py "https://stall")) true;
      EvSleep 3;
      EvRead false;
      EvPrint (py "TimeoutError occurred while fetching https://stall");
      EvRelease ].
Proof. vm_compute. reflexivity. Qed.

(* ------------------------------------------------------------------ *)
(** ** The further properties on concrete batches *)

Abbreviation fx_main_stdout :=
  (main_stdout Fixture.Soup Fixture.Tag Fixture.BeautifulSoup Fixture.select Fixture.text
               Fixture.Response Fixture.session_get Fixture.response_text).
Abbreviation fx_running := (Running Fixture.Response).
Abbreviation fx_log := (log Fixture.Response).
Abbreviation fx_tasks := (tasks Fixture.Response).

Lemma output_independent_of_schedule_witness :
  exists f st,
    fx_main Fixture.two_pages 0 2 Fixture.one_by_one = fx_saved f st /\
    forall s2,
      fx_main Fixture.two_pages 0 2 s2
      = fx_running (fx_run s2 (fx_start Fixture.two_pages 0 2)) \/
      exists st2, fx_main Fixture.two_pages 0 2 s2 = fx_saved f st2.
Proof.
  eexists. eexists. split.
  - lazy. reflexivity.
  - eapply (output_independent_of_schedule Fixture.Soup Fixture.Tag Fixture.BeautifulSoup
           Fixture.select Fixture.text Fixture.Response Fixture.session_get
           Fixture.response_text Fixture.two_pages 0 2 Fixture.one_by_one).
    vm_compute. reflexivity.
Defined.

Lemma rows_hold_own_fields_witness :
  exists f st,
    fx_main Fixture.two_pages 0 2 Fixture.turn_by_turn = fx_saved f st /\
    default_index Fixture.two_pages = true /\
    exists soup,
      Fixture.BeautifulSoup Fixture.page_b = inr soup /\
      nth_error (rows f) 1
      = Some (cell_of_scalar Fixture.url_b
              :: map (fun kv => Pandas.cell_of_value (snd kv)) (fx_extract soup)).
Proof.
  eexists. eexists. split; [lazy; reflexivity|]. split; [reflexivity|].
  eapply (rows_hold_own_fields Fixture.Soup Fixture.Tag Fixture.BeautifulSoup
            Fixture.select Fixture.text Fixture.Response Fixture.session_get
            Fixture.response_text Fixture.two_pages 0 2 Fixture.turn_by_turn
            _ _ Fixture.url_a Fixture.page_a 1 Fixture.url_b Fixture.page_b);
    vm_compute; reflexivity.
Defined.

Lemma permits_returned_witness :
  (forall t, In t (fx_tasks (fx_run Fixture.one_by_one (fx_start Fixture.two_pages 1 1))) ->
             finished Fixture.Response t = true -> holding Fixture.Response t = false) /\
  (forall rs,
      gather Fixture.Response (fx_run Fixture.one_by_one (fx_start Fixture.two_pages 1 1))
      = Done rs ->
      semaphore (scraper Fixture.Response
                   (fx_run Fixture.one_by_one (fx_start Fixture.two_pages 1 1))) = 1%Z /\
      in_flight Fixture.Response
        (fx_run Fixture.one_by_one (fx_start Fixture.two_pages 1 1)) = 0%Z).
Proof.
  apply (permits_returned Fixture.Soup Fixture.Tag Fixture.BeautifulSoup
           Fixture.select Fixture.text Fixture.Response Fixture.session_get
           Fixture.response_text Fixture.two_pages 1 1).
  apply start_reachable; [lia | reflexivity].
Defined.

Lemma one_request_per_url_witness :
  (forall i url, nth_error (url_cells Fixture.two_pages) i = Some url ->
     filter is_request
       (events_of i (fx_log (fx_run Fixture.one_by_one (fx_start Fixture.two_pages 1 1))))
     = [] \/
     filter is_request
       (events_of i (fx_log (fx_run Fixture.one_by_one (fx_start Fixture.two_pages 1 1))))
     = [EvRequest url (is_ok (Fixture.session_get i url))]) /\
  (forall i u ok,
     In (i, EvRequest u ok)
        (fx_log (fx_run Fixture.one_by_one (fx_start Fixture.two_pages 1 1))) ->
     nth_error (url_cells Fixture.two_pages) i = Some u) /\
  requests (fx_log (fx_run Fixture.one_by_one (fx_start Fixture.two_pages 1 1)))
  <= List.length (url_cells Fixture.two_pages).
Proof.
  apply (one_request_per_url Fixture.Soup Fixture.Tag Fixture.BeautifulSoup
           Fixture.select Fixture.text Fixture.Response Fixture.session_get
           Fixture.response_text Fixture.two_pages 1 1).
  apply start_reachable; [lia | reflexivity].
Defined.

Lemma stdout_only_timeouts_witness :
  (forall line,
     In line (stdout Fixture.Response
                (fx_run Fixture.four_turns (fx_start Fixture.timeout_then_page 1 5))) ->
     exists i url, nth_error (url_cells Fixture.timeout_then_page) i = Some url /\
                   fx_fetched i url = inr None /\
                   line = py "TimeoutError occurred while fetching " ++ format url) /\
  ((forall i url, nth_error (url_cells Fixture.timeout_then_page) i = Some url ->
                  fx_fetched i url <> inr None) ->
   stdout Fixture.Response
     (fx_run Fixture.four_turns (fx_start Fixture.timeout_then_page 1 5)) = []).
Proof.
  apply (stdout_only_timeouts Fixture.Soup Fixture.Tag Fixture.BeautifulSoup
           Fixture.select Fixture.text Fixture.Response Fixture.session_get
           Fixture.response_text Fixture.timeout_then_page 1 5).
  apply start_reachable; [lia | reflexivity].
Defined.

(** Two URLs with the row names [r1] and [r2]: four rows are written. *)
Lemma row_names_double_the_rows_witness :
  exists f st,
    fx_main Fixture.with_row_names 0 2 Fixture.turn_by_turn = fx_saved f st /\
    List.length (rows f) = 4 /\
    is_unique (row_labels Fixture.with_row_names) = true /\
    List.length (rows f) = 2 * List.length (url_cells Fixture.with_row_names) /\
    exists scraped_df,
      DataFrame (results_from Fixture.Soup Fixture.Tag Fixture.BeautifulSoup
                   Fixture.select Fixture.text Fixture.Response Fixture.session_get
                   Fixture.response_text 0 (url_cells Fixture.with_row_names))
      = inr scraped_df /\
      forall i url, nth_error (url_cells Fixture.with_row_names) i = Some url ->
        nth_error (rows f) i
        = Some (cell_of_scalar url :: map (fun _ => CNaN) (columns scraped_df)) /\
        nth_error (rows f) (List.length (url_cells Fixture.with_row_names) + i)
        = Some (CNaN :: map (fun c => nth i (snd c) CNaN) (columns scraped_df)).
Proof.
  eexists. eexists. split; [lazy; reflexivity|]. split; [reflexivity|].
  eapply (row_names_double_the_rows Fixture.Soup Fixture.Tag Fixture.BeautifulSoup
            Fixture.select Fixture.text Fixture.Response Fixture.session_get
            Fixture.response_text Fixture.with_row_names 0 2 Fixture.turn_by_turn).
  - vm_compute. reflexivity.
  - discriminate.
  - reflexivity.
Defined.

(** The same row name twice: [main] dies in [pd.concat]. *)
Lemma repeated_labels_never_saved_witness :
  fx_main Fixture.same_row_name 0 2 Fixture.turn_by_turn
  = fx_fatal InvalidIndexError
      (fx_log (fx_run Fixture.turn_by_turn (fx_start Fixture.same_row_name 0 2))) /\
  forall schedule, fx_output (fx_main Fixture.same_row_name 0 2 schedule) = None.
Proof.
  split; [vm_compute; reflexivity|].
  apply (repeated_labels_never_saved Fixture.Soup Fixture.Tag Fixture.BeautifulSoup
           Fixture.select Fixture.text Fixture.Response Fixture.session_get
           Fixture.response_text Fixture.same_row_name 0 2).
  reflexivity.
Defined.

Lemma timeout_first_keeps_dicts_whole_witness :
  exists f st,
    fx_main Fixture.timeout_then_page 1 5 Fixture.one_by_one = fx_saved f st /\
    default_index Fixture.timeout_then_page = true /\
    header f = [LStr (py "url"); LInt 0] /\
    (default_index Fixture.timeout_then_page = true ->
     (fx_fetched 1 Fixture.url_a = inr None ->
      nth_error (rows f) 1 = Some [cell_of_scalar Fixture.url_a; CNone]) /\
     (forall body, fx_fetched 1 Fixture.url_a = inr (Some body) ->
      exists soup,
        Fixture.BeautifulSoup body = inr soup /\
        nth_error (rows f) 1
        = Some [cell_of_scalar Fixture.url_a; CDict (fx_extract soup)])).
Proof.
  eexists. eexists. split; [lazy; reflexivity|]. split; [reflexivity|].
  eapply (timeout_first_keeps_dicts_whole Fixture.Soup Fixture.Tag Fixture.BeautifulSoup
            Fixture.select Fixture.text Fixture.Response Fixture.session_get
            Fixture.response_text Fixture.timeout_then_page 1 5
            Fixture.one_by_one _ _ Fixture.url_slow 1 Fixture.url_a);
    vm_compute; reflexivity.
Defined.

Lemma report_counts_every_url_witness :
  exists f st preview,
    fx_main Fixture.timeout_then_page 1 5 Fixture.one_by_one = fx_saved f st /\
    default_index Fixture.timeout_then_page = true /\
    fx_main_stdout Fixture.timeout_then_page 1 5 Fixture.one_by_one
      (py "out.csv") (py "2.5 seconds")
    = map Line (stdout Fixture.Response st) ++
      [ Line (py "Results saved to " ++ py "out.csv");
        Line (py "It took " ++ py "2.5 seconds" ++ py " to find "
              ++ str_of_nat (List.length (rows f)) ++ py " articles");
        Framed (py "Preview of scraped data:" ++ [10%N]) preview ] /\
    to_csv preview false = {| header := header f; rows := firstn 5 (rows f) |} /\
    (default_index Fixture.timeout_then_page = true ->
     List.length (rows f) = List.length (url_cells Fixture.timeout_then_page)) /\
    (forall n,
       str_of_nat n = str_of_nat (List.length (rows f)) ->
       n = List.length (rows f)).
Proof.
  eexists. eexists.
  assert (H : fx_main Fixture.timeout_then_page 1 5 Fixture.one_by_one = fx_saved _ _)
    by (lazy; reflexivity).
  destruct (report_counts_every_url Fixture.Soup Fixture.Tag Fixture.BeautifulSoup
           Fixture.select Fixture.text Fixture.Response Fixture.session_get
           Fixture.response_text Fixture.timeout_then_page 1 5
              Fixture.one_by_one _ _ (py "out.csv") (py "2.5 seconds") H)
    as [preview Hp].
  exists preview. split; [exact H|]. split; [reflexivity | exact Hp].
Defined.

Lemma no_report_without_file_witness :
  (forall it,
     In it (fx_main_stdout Fixture.page_then_timeout 1 5 Fixture.last_first
              (py "out.csv") (py "2.5 seconds")) ->
     exists url, it = Line (py "TimeoutError occurred while fetching " ++ url)) /\
  ~ In (Line (py "Results saved to " ++ py "out.csv"))
       (fx_main_stdout Fixture.page_then_timeout 1 5 Fixture.last_first
          (py "out.csv") (py "2.5 seconds")).
Proof.
  apply (no_report_without_file Fixture.Soup Fixture.Tag Fixture.BeautifulSoup
           Fixture.select Fixture.text Fixture.Response Fixture.session_get
           Fixture.response_text Fixture.page_then_timeout 1 5 Fixture.last_first).
  vm_compute. reflexivity.
Defined.

Lemma single_match_is_trimmed_witness :
  PyDict.get (fx_extract Fixture.page_a) (py "grants")
  = Some (Text (strip (Fixture.text (py " R01 CA1 ")))) /\
  no_space_at_ends (strip (Fixture.text (py " R01 CA1 "))) /\
  (forallb isspace (Fixture.text (py " R01 CA1 ")) = true ->
   PyDict.get (fx_extract Fixture.page_a) (py "grants") = Some (Text [])).
Proof.
  apply (single_match_is_trimmed Fixture.Soup Fixture.Tag Fixture.BeautifulSoup
           Fixture.select Fixture.text Fixture.page_a (py "grants")
           (py "div#grants.grants")).
  - vm_compute. do 4 right. left. reflexivity.
  - vm_compute. reflexivity.
Defined.

Lemma blank_first_match_leaves_space_witness :
  PyDict.get (extract BlankFirst.Soup BlankFirst.Tag
                BlankFirst.select BlankFirst.text (py "<html></html>"))
             (py "authors")
  = Some (Text (32%N :: join (py " ")
                          (map (fun e => strip (BlankFirst.text e))
                               [py " Ann Lee "; py "Bo Chan"]))).
Proof.
  apply (blank_first_match_leaves_space BlankFirst.Soup BlankFirst.Tag
           BlankFirst.BeautifulSoup BlankFirst.select BlankFirst.text
           (py "<html></html>") (py "authors") BlankFirst.authors_css
           [32%N; 10%N] (py " Ann Lee ") [py "Bo Chan"]).
  - vm_compute. do 5 right. left. reflexivity.
  - vm_compute. reflexivity.
  - vm_compute. reflexivity.
Defined.

Lemma bound_is_reached_witness :
  reachable Fixture.Soup Fixture.Tag Fixture.BeautifulSoup
           Fixture.select Fixture.text Fixture.Response Fixture.session_get
           Fixture.response_text Fixture.two_pages 1 2 (fx_run (seq 0 2) (fx_start Fixture.two_pages 1 2)) /\
  in_flight Fixture.Response (fx_run (seq 0 2) (fx_start Fixture.two_pages 1 2))
  = Z.of_nat 2.
Proof.
  apply (bound_is_reached Fixture.Soup Fixture.Tag Fixture.BeautifulSoup
           Fixture.select Fixture.text Fixture.Response Fixture.session_get
           Fixture.response_text Fixture.two_pages 1 2 2).
  - reflexivity.
  - vm_compute. lia.
  - lia.
Defined.

Lemma operations_bounded_witness :
  List.length (fx_log (fx_run Fixture.one_by_one (fx_start Fixture.two_pages 1 1)))
  + remaining Fixture.Response Fixture.session_get Fixture.response_text
      (fx_run Fixture.one_by_one (fx_start Fixture.two_pages 1 1))
  = remaining Fixture.Response Fixture.session_get Fixture.response_text
      (fx_start Fixture.two_pages 1 1) /\
  List.length (fx_log (fx_run Fixture.one_by_one (fx_start Fixture.two_pages 1 1)))
  <= 6 * List.length (url_cells Fixture.two_pages).
Proof.
  apply (operations_bounded Fixture.Soup Fixture.Tag Fixture.BeautifulSoup
           Fixture.select Fixture.text Fixture.Response Fixture.session_get
           Fixture.response_text Fixture.two_pages 1 1).
  apply start_reachable; [lia | reflexivity].
Defined.
